(** * MultiQC plotly back-ends: the data-reduction kernels

    A shallow embedding of the numeric kernels of
    [multiqc/plots/plotly/violin.py], [scatter.py] and [bar.py]:
    outlier detection, rank downsampling, axis ranges, the annotation
    threshold search, bar dataset assembly and the percentage pass.

    Number model.  The violin and scatter code computes on numpy
    [float64] arrays, so their numbers are the kernel's binary64 floats
    ([PrimFloat]); Python integers that enter these computations are
    converted by numpy and are embedded the same way (exact below 2^53).
    numpy's reductions ([np.mean], [np.std]) are written as left-to-right
    sums; no statement below depends on the summation order.
    The bar code computes on Python floats ([Category] declares
    [data: List[float]]), which are binary64 as well; the builtin [sum]
    of the stacked ranges, whose algorithm depends on the version of
    Python, is a parameter of the functions that call it. *)

From Stdlib Require Import String.
From Stdlib Require Import List Bool Arith ZArith Lia.
From Stdlib Require Import Permutation Sorted.
From Stdlib Require Import Floats.
Import ListNotations.

Set Warnings "-inexact-float".

Open Scope nat_scope.

(** ** Python and numpy primitives used by the three modules *)

Module Py.

(** Exceptions the modelled code can raise. *)
Inductive exn : Type :=
| ValueError
| AssertionError
| IndexError
| ZeroDivisionError.

(** The outcome of a call: a value, an exception, or [Timeout] when a
    [while] loop was still running after the rounds it was given. *)
Inductive result (A : Type) : Type :=
| Ok (a : A)
| Raise (e : exn)
| Timeout.
Arguments Ok {A} a.
Arguments Raise {A} e.
Arguments Timeout {A}.

Definition bind {A B : Type} (r : result A) (k : A -> result B) : result B :=
  match r with
  | Ok a => k a
  | Raise e => Raise e
  | Timeout => Timeout
  end.

Notation "x <- r ;; k" := (bind r (fun x => k))
  (at level 61, r at next level, right associativity).

(** [for x in l: acc = f(acc, x)] where the body may raise. *)
Fixpoint foldM {A S : Type} (f : S -> A -> result S) (l : list A) (s : S)
  : result S :=
  match l with
  | [] => Ok s
  | x :: t => s' <- f s x ;; foldM f t s'
  end.

(** [[f(x) for x in l]] where [f] may raise. *)
Fixpoint mapM {A B : Type} (f : A -> result B) (l : list A)
  : result (list B) :=
  match l with
  | [] => Ok []
  | x :: t => y <- f x ;; ys <- mapM f t ;; Ok (y :: ys)
  end.

(** [l[i]] for a non-negative index. *)
Definition getitem {A : Type} (l : list A) (i : nat) : result A :=
  match nth_error l i with
  | Some x => Ok x
  | None => Raise IndexError
  end.

(** [l[-n:]] for [n > 0]: the last [n] elements (all of them when
    [n >= len(l)]). *)
Definition last_n {A : Type} (n : nat) (l : list A) : list A :=
  skipn (length l - n) l.

(** [l[:-n]] for [n > 0]: all but the last [n] elements. *)
Definition drop_last {A : Type} (n : nat) (l : list A) : list A :=
  firstn (length l - n) l.

(** [l[::k]] for a step [k >= 1]: the elements at positions 0, k, 2k, ...
    [skip] counts the elements to pass over before the next one is kept. *)
Fixpoint stride_from {A : Type} (k skip : nat) (l : list A) : list A :=
  match l with
  | [] => []
  | x :: t =>
      match skip with
      | O => x :: stride_from k (k - 1) t
      | S s => stride_from k s t
      end
  end.

Definition every_nth {A : Type} (k : nat) (l : list A) : list A :=
  stride_from k 0 l.

(** [math.ceil(n / d)] on non-negative integers, [d > 0]. *)
Definition ceil_div (n d : nat) : nat := (n + d - 1) / d.

End Py.

Module Np.

Import Py.

Local Open Scope float_scope.

(** [float(n)] of a length. *)
Definition of_nat (n : nat) : float :=
  PrimFloat.of_uint63 (Uint63.of_Z (Z.of_nat n)).

(** The float64 value of a Python integer. *)
Definition of_Z (z : Z) : float :=
  if (z <? 0)%Z then - PrimFloat.of_uint63 (Uint63.of_Z (- z))
  else PrimFloat.of_uint63 (Uint63.of_Z z).

(** [np.zeros(n, dtype=bool)] *)
Definition zeros (n : nat) : list bool := repeat false n.

Definition sum (a : list float) : float := fold_left PrimFloat.add a 0.

(** [np.mean(a)] *)
Definition mean (a : list float) : float := sum a / of_nat (length a).

(** [np.std(a)]: the population standard deviation,
    [sqrt(mean(abs(a - a.mean()) ** 2))]. *)
Definition std (a : list float) : float :=
  let m := mean a in
  sqrt (mean (map (fun x => abs (x - m) * abs (x - m)) a)).

(** [np.isfinite(x)] *)
Definition isfinite (x : float) : bool :=
  negb (is_nan x || is_infinity x).

(** [np.where(a > c)[0]]: the positions of the entries above [c]. *)
Fixpoint where_gt_from (i : nat) (a : list float) (c : float) : list nat :=
  match a with
  | [] => []
  | z :: t =>
      if c <? z then i :: where_gt_from (S i) t c
      else where_gt_from (S i) t c
  end.

Definition where_gt (a : list float) (c : float) : list nat :=
  where_gt_from 0 a c.

(** [mask[i] = True]; numpy raises on an index out of range, which the
    callers below never produce, and the mask is returned unchanged
    there. *)
Fixpoint set_at (i : nat) (mask : list bool) : list bool :=
  match mask, i with
  | [], _ => []
  | _ :: t, O => true :: t
  | b :: t, S j => b :: set_at j t
  end.

(** [mask[indices] = True] *)
Definition set_true (indices : list nat) (mask : list bool) : list bool :=
  fold_left (fun m i => set_at i m) indices mask.

(** [np.argsort]: the positions of the entries in ascending order of
    their value.  numpy's default sort does not fix the order of equal
    entries; this model keeps them in their original order. *)
Section Argsort.

Context {A : Type} (leb : A -> A -> bool).

Fixpoint insert_key (x : nat * A) (l : list (nat * A)) : list (nat * A) :=
  match l with
  | [] => [x]
  | y :: t =>
      if leb (snd x) (snd y) then x :: y :: t else y :: insert_key x t
  end.

Definition sort_keyed (l : list (nat * A)) : list (nat * A) :=
  fold_right insert_key [] l.

Definition keyed (a : list A) : list (nat * A) :=
  combine (seq 0 (length a)) a.

Definition argsort (a : list A) : list nat :=
  map fst (sort_keyed (keyed a)).

End Argsort.

End Np.

(** ** violin.py *)

Module Violin.

Import Py.

Local Open Scope float_scope.

Definition SampleName := string.

(** [ValueT]: a cell of the data table. *)
Inductive ValueT : Type :=
| VInt (z : Z)
| VFloat (f : float)
| VStr (s : string).

(** [isinstance(v, (int, float))] *)
Definition is_number (v : ValueT) : bool :=
  match v with
  | VStr _ => false
  | _ => true
  end.

(** The float64 numpy computes with for a numeric cell. *)
Definition to_float (v : ValueT) : float :=
  match v with
  | VInt z => Np.of_Z z
  | VFloat f => f
  | VStr _ => nan
  end.

(** *** [find_outliers] *)

Definition opt_list {A : Type} (o : option A) : list A :=
  match o with
  | Some a => [a]
  | None => []
  end.

(** The default [z_cutoff=2.0]. *)
Definition default_z_cutoff : float := 2.0.

(** The search loop of [find_outliers],
    [while len(indices) <= len(added_values) and z_cutoff > 1.0],
    as a function of its state [(z_cutoff, indices)].  [fuel] bounds the
    number of times the body runs; the outcome is [Timeout] when the loop
    is still running after that many rounds. *)
Fixpoint lower_cutoff (fuel : nat) (z_scores : list float) (n_added : nat)
  (z_cutoff : float) (indices : list nat) {struct fuel}
  : result (float * list nat) :=
  if (length indices <=? n_added)%nat && (1.0 <? z_cutoff) then
    match fuel with
    | O => Timeout
    | S fuel' =>
        let z_cutoff' := z_cutoff - 0.2 in
        lower_cutoff fuel' z_scores n_added z_cutoff'
          (Np.where_gt z_scores z_cutoff')
    end
  else Ok (z_cutoff, indices).

(** [z_cutoff] after [k] rounds of [z_cutoff -= 0.2]. *)
Fixpoint cutoff_after (k : nat) (z_cutoff : float) : float :=
  match k with
  | O => z_cutoff
  | S k' => cutoff_after k' (z_cutoff - 0.2)
  end.

(** [top_n is not None and top_n <= 0] *)
Definition top_n_nonpositive (top_n : option Z) : bool :=
  match top_n with
  | Some n => (n <=? 0)%Z
  | None => false
  end.

(** [outlier_status[: -len(added_values)]] under [if added_values:] *)
Definition strip_added {A : Type} (added_values : list A)
  (outlier_status : list bool) : list bool :=
  match added_values with
  | [] => outlier_status
  | _ :: _ => drop_last (length added_values) outlier_status
  end.

(** [find_outliers(values, top_n, z_cutoff, minval, maxval)]; [fuel]
    bounds the rounds of the cutoff search. *)
Definition find_outliers (fuel : nat) (values : list float)
  (top_n : option Z) (z_cutoff : float) (minval maxval : option float)
  : result (list bool) :=
  if (length values =? 0)%nat || top_n_nonpositive top_n then
    Ok (Np.zeros (length values))
  else
    let added_values := opt_list minval ++ opt_list maxval in
    let np_values := values ++ added_values in
    let mean := Np.mean np_values in
    let std_dev := Np.std np_values in
    if std_dev =? 0 then Ok (Np.zeros (length np_values))
    else
      let z_scores := map (fun v => abs ((v - mean) / std_dev)) np_values in
      let outlier_status := Np.zeros (length np_values) in
      outlier_status <-
        match top_n with
        | Some n =>
            (* [if top_n:] holds here: [top_n <= 0] has returned above *)
            Ok (Np.set_true
                  (last_n (Z.to_nat n) (Np.argsort PrimFloat.leb z_scores))
                  outlier_status)
        | None =>
            st <- lower_cutoff fuel z_scores (length added_values) z_cutoff
                    (Np.where_gt z_scores z_cutoff) ;;
            Ok (Np.set_true (snd st) outlier_status)
        end ;;
      Ok (strip_added added_values outlier_status).

(** *** [Dataset.create], one metric at a time *)

(** The three [config] values the violin code reads. *)
Record Config : Type := {
  violin_min_threshold_no_points : nat;
  violin_min_threshold_outliers : nat;
  violin_downsample_after : option nat
}.

(** The fields of a table column ([ColumnMeta]) that [create] reads;
    namespace, description, colour and the hover format are left out. *)
Record ColumnMeta : Type := {
  cm_title : string;
  cm_suffix : option string;
  cm_dmin : option float;
  cm_dmax : option float;
  cm_hidden : bool
}.

Record XAxis : Type := {
  ticksuffix : option string;
  tickvals : option (list Z);
  range : option (list float)
}.

Record ViolinColumn : Type := {
  title : string;
  suffix : string;
  dmin : option float;
  dmax : option float;
  hidden : bool;
  xaxis : XAxis;
  show_only_outliers : bool;
  show_points : bool
}.

Definition ValueBySample := list (SampleName * ValueT).

(** [xmin == xmax == 0], that is [xmin == xmax and xmax == 0];
    [None == 0] is false. *)
Definition both_zero (xmin xmax : option float) : bool :=
  match xmin, xmax with
  | Some a, Some b => (a =? b) && (b =? 0)
  | _, _ => false
  end.

(** The block under [# Calculate range]: the tick values and the range
    stored in [column.xaxis]. *)
Definition calculate_range (dmin dmax : option float) (show_points : bool)
  : option (list Z) * option (list float) :=
  let xmin := dmin in
  let xmax := dmax in
  let '(xmax, tickvals) :=
    if both_zero xmin xmax then (Some 1, Some [0%Z]) else (xmax, None) in
  match xmin, xmax with
  | Some xmin, Some xmax =>
      if show_points then
        let xmin' := xmin - (xmax - xmin) * 0.005 in
        let xmax' := xmax + (xmax - xmin') * 0.005 in
        (tickvals, Some [xmin'; xmax'])
      else (tickvals, Some [xmin; xmax])
  | _, _ => (tickvals, None)
  end.

(** [{samples[idx]: numeric_values[idx] for idx in range(len(samples))
      if outlier_statuses[idx]}] *)
Definition select_outliers (value_by_sample : ValueBySample)
  (outlier_statuses : list bool) : result ValueBySample :=
  let samples := map fst value_by_sample in
  let numeric_values := map snd value_by_sample in
  picked <- mapM (fun idx =>
              flag <- getitem outlier_statuses idx ;;
              if flag : bool then
                s <- getitem samples idx ;;
                v <- getitem numeric_values idx ;;
                Ok [(s, v)]
              else Ok [])
            (seq 0 (length samples)) ;;
  Ok (concat picked).

Section Downsample.

Context {A : Type} (leb : A -> A -> bool).

(** The block under [# Now sort and downsample values]. *)
Definition rank_downsample (max_violin_points : option nat)
  (value_by_sample : list (SampleName * A))
  : result (list (SampleName * A)) :=
  match max_violin_points with
  | Some cap =>
      if (cap <? length value_by_sample)%nat then
        let samples := map fst value_by_sample in
        let values := map snd value_by_sample in
        let indices := Np.argsort leb values in
        if (cap =? 0)%nat then Raise ZeroDivisionError
        else
          let indices :=
            every_nth (ceil_div (length indices) cap) indices in
          mapM (fun idx =>
                  s <- getitem samples idx ;;
                  v <- getitem values idx ;;
                  Ok (s, v))
               indices
      else Ok value_by_sample
  | None => Ok value_by_sample
  end.

End Downsample.

(** What one round of the loop over the columns leaves behind: the header
    is always recorded; the metric is [Kept], with its point and violin
    values, unless the round ended in [continue]. *)
Inductive Metric : Type :=
| Skipped (column : ViolinColumn)
| Kept (column : ViolinColumn)
       (scatter_value_by_sample violin_value_by_sample : ValueBySample).

(** The series after [# Remove NaN and Inf values]. *)
Definition current_series (value_by_sample : ValueBySample) : ValueBySample :=
  if forallb is_number (map snd value_by_sample) then
    filter (fun sv => Np.isfinite (to_float (snd sv))) value_by_sample
  else value_by_sample.

Section Create.

(** The order numpy's sort uses on the array built from a series (for a
    series that mixes strings and numbers numpy compares their string
    forms). *)
Variable value_leb : ValueT -> ValueT -> bool.

Variable config : Config.

(** The body of the loop over the columns in [Dataset.create]. *)
Definition create_metric (fuel : nat) (dt_column : ColumnMeta)
  (value_by_sample : ValueBySample) : result Metric :=
  let column := {|
    title := cm_title dt_column;
    suffix := match cm_suffix dt_column with
              | Some s => s
              | None => EmptyString
              end;
    dmin := cm_dmin dt_column;
    dmax := cm_dmax dt_column;
    hidden := cm_hidden dt_column;
    xaxis := {| ticksuffix := cm_suffix dt_column;
                tickvals := None; range := None |};
    show_only_outliers := false;
    show_points := true |} in
  match value_by_sample with
  | [] => Ok (Skipped column)
  | _ :: _ =>
      let values_are_numeric :=
        forallb is_number (map snd value_by_sample) in
      let value_by_sample := current_series value_by_sample in
      match value_by_sample with
      | [] => Ok (Skipped column) (* only a numeric series can get here *)
      | _ :: _ =>
          let show_points :=
            (length value_by_sample
               <=? violin_min_threshold_no_points config)%nat in
          let show_only_outliers :=
            (violin_min_threshold_outliers config
               <? length value_by_sample)%nat in
          let xaxis :=
            if values_are_numeric then
              let '(tickvals, range) :=
                calculate_range (dmin column) (dmax column) show_points in
              {| ticksuffix := ticksuffix (xaxis column);
                 tickvals := tickvals; range := range |}
            else xaxis column in
          let column := {|
            title := title column; suffix := suffix column;
            dmin := dmin column; dmax := dmax column;
            hidden := hidden column; xaxis := xaxis;
            show_only_outliers := show_only_outliers;
            show_points := show_points |} in
          scatter_value_by_sample <-
            (if negb show_points then Ok []
             else if negb show_only_outliers then Ok []
             else if negb values_are_numeric then Ok []
             else
               outlier_statuses <-
                 find_outliers fuel
                   (map (fun sv => to_float (snd sv)) value_by_sample)
                   None default_z_cutoff (dmin column) (dmax column) ;;
               select_outliers value_by_sample outlier_statuses) ;;
          violin_value_by_sample <-
            rank_downsample value_leb (violin_downsample_after config)
              value_by_sample ;;
          Ok (Kept column scatter_value_by_sample violin_value_by_sample)
      end
  end.

(** [Dataset.create]: the rounds of the loop, in column order. *)
Definition create (fuel : nat)
  (columns : list (ColumnMeta * ValueBySample)) : result (list Metric) :=
  mapM (fun cv => create_metric fuel (fst cv) (snd cv)) columns.

End Create.

(** The points [create_figure] draws on top of a metric's violin
    ([if add_scatter and header.show_points]). *)
Definition point_layer (m : Metric) : ValueBySample :=
  match m with
  | Skipped _ => []
  | Kept column scatter_value_by_sample violin_value_by_sample =>
      if show_points column then
        if show_only_outliers column then scatter_value_by_sample
        else violin_value_by_sample
      else []
  end.

(** The order of a numeric series: numpy compares the float64 values. *)
Definition numeric_leb (a b : ValueT) : bool := to_float a <=? to_float b.

End Violin.

(** ** scatter.py *)

Module Scatter.

Import Py.

Local Open Scope float_scope.

(** A coordinate of a point: a number, or anything else (which makes
    numpy's array non-numeric). *)
Inductive Coord : Type :=
| CNum (f : float)
| CStr (s : string).

Definition is_number (c : Coord) : bool :=
  match c with
  | CNum _ => true
  | CStr _ => false
  end.

Definition to_float (c : Coord) : float :=
  match c with
  | CNum f => f
  | CStr _ => nan
  end.

(** The keys of a point that the annotation step reads. [annotate] is
    [point.get("annotate", True) is not False]. *)
Record Point : Type := {
  x : Coord;
  y : Coord;
  name : string;
  annotation : option string;
  annotate : bool
}.

(** [MAX_ANNOTATIONS = 10] *)
Definition MAX_ANNOTATIONS : nat := 10.

(** [np.count_nonzero((x_z_scores > threshold) | (y_z_scores > threshold))] *)
Definition count_outliers (x_z_scores y_z_scores : list float)
  (threshold : float) : nat :=
  length (filter (fun xy => (threshold <? fst xy) || (threshold <? snd xy))
            (combine x_z_scores y_z_scores)).

(** The search [while threshold <= 6.0: ... threshold += 0.2] as a
    function of [threshold]; it yields the threshold the loop ends with.
    [fuel] bounds the number of times [threshold += 0.2] runs. *)
Fixpoint find_threshold (fuel : nat) (n_annotated : nat)
  (x_z_scores y_z_scores : list float) (threshold : float) {struct fuel}
  : result float :=
  if threshold <=? 6.0 then
    let n_outliers := count_outliers x_z_scores y_z_scores threshold in
    if (n_annotated + n_outliers <=? MAX_ANNOTATIONS)%nat then Ok threshold
    else
      match fuel with
      | O => Timeout
      | S fuel' =>
          find_threshold fuel' n_annotated x_z_scores y_z_scores
            (threshold + 0.2)
      end
  else Ok threshold.

(** [threshold] after [k] rounds of [threshold += 0.2]. *)
Fixpoint threshold_after (k : nat) (threshold : float) : float :=
  match k with
  | O => threshold
  | S k' => threshold_after k' (threshold + 0.2)
  end.

(** [np.abs((v - np.mean(v)) / std) if std else np.zeros_like(v)] *)
Definition z_scores (values : list float) (std : float) : list float :=
  if std =? 0 then map (fun _ => 0) values
  else map (fun v => abs ((v - Np.mean values) / std)) values.

Definition set_annotation (p : Point) : Point :=
  {| x := x p; y := y p; name := name p;
     annotation := Some (name p); annotate := annotate p |}.

(** [point["annotation"] = point["name"]] for the flagged ones among the
    points that may be annotated; the others are left as they are. *)
Fixpoint mark (points : list Point) (flags : list bool) : list Point :=
  match points with
  | [] => []
  | p :: ps =>
      if annotate p then
        match flags with
        | true :: fs => set_annotation p :: mark ps fs
        | false :: fs => p :: mark ps fs
        | [] => p :: mark ps []
        end
      else p :: mark ps flags
  end.

(** The annotation step of [Dataset.create_figure]: [self.points] as it
    is left for the traces. *)
Definition annotate_outliers (fuel : nat) (points : list Point)
  : result (list Point) :=
  let n_annotated :=
    length (filter (fun el => match annotation el with
                              | Some _ => true | None => false end)
              points) in
  if (n_annotated <? MAX_ANNOTATIONS)%nat then
    let eligible := filter annotate points in
    let x_values := map x eligible in
    let y_values := map y eligible in
    if forallb is_number x_values && forallb is_number y_values then
      let xs := map to_float x_values in
      let ys := map to_float y_values in
      let x_std := Np.std xs in
      let y_std := Np.std ys in
      if (x_std =? 0) && (y_std =? 0) then
        if (length eligible =? 1)%nat then
          Ok (mark points (map (fun _ => true) eligible))
        else Ok points
      else
        let x_z_scores := z_scores xs x_std in
        let y_z_scores := z_scores ys y_std in
        threshold <-
          find_threshold fuel n_annotated x_z_scores y_z_scores 1.0 ;;
        Ok (mark points
              (map (fun xy => (threshold <? fst xy) || (threshold <? snd xy))
                 (combine x_z_scores y_z_scores)))
    else Ok points
  else Ok points.

(** *** The axis ranges of a dataset

    The coordinates are compared as Python compares them: two numbers by
    their float64 values, two strings by their code points, and a
    string with a number not at all. *)

(** The outcome of a comparison, and of what is built on it: a value,
    or the [TypeError] that [>] and [<] raise between a string and a
    number. *)
Inductive compared (A : Type) : Type :=
| Compared (a : A)
| TypeError.
Arguments Compared {A} a.
Arguments TypeError {A}.

(** [a > b] *)
Definition gt (a b : Coord) : compared bool :=
  match a, b with
  | CNum u, CNum v => Compared (v <? u)
  | CStr s, CStr t => Compared (String.ltb t s)
  | _, _ => TypeError
  end.

(** [a < b] *)
Definition lt (a b : Coord) : compared bool :=
  match a, b with
  | CNum u, CNum v => Compared (u <? v)
  | CStr s, CStr t => Compared (String.ltb s t)
  | _, _ => TypeError
  end.

(** [max(a, b)]: [b] if [b > a], else [a]. *)
Definition py_max (a b : Coord) : compared Coord :=
  match gt b a with
  | Compared g => Compared (if g then b else a)
  | TypeError => TypeError
  end.

(** [min(a, b)]: [b] if [b < a], else [a]. *)
Definition py_min (a b : Coord) : compared Coord :=
  match lt b a with
  | Compared l => Compared (if l then b else a)
  | TypeError => TypeError
  end.

(** The loop of [get_x_range] and of [get_y_range], which differ in the
    key they read: [coord] is [point["x"]] or [point["y"]]. *)
Fixpoint range_loop (coord : Point -> Coord) (points : list Point)
  (vmax vmin : option Coord) : compared (option Coord * option Coord) :=
  match points with
  | [] => Compared (vmin, vmax)
  | point :: rest =>
      let v := coord point in
      match (match vmax with
             | Some m => py_max m v
             | None => Compared v
             end) with
      | Compared vmax' =>
          match (match vmin with
                 | Some m => py_min m v
                 | None => Compared v
                 end) with
          | Compared vmin' => range_loop coord rest (Some vmax') (Some vmin')
          | TypeError => TypeError
          end
      | TypeError => TypeError
      end
  end.

Definition get_x_range (points : list Point)
  : compared (option Coord * option Coord) :=
  match points with
  | [] => Compared (None, None)
  | _ :: _ => range_loop x points None None
  end.

Definition get_y_range (points : list Point)
  : compared (option Coord * option Coord) :=
  match points with
  | [] => Compared (None, None)
  | _ :: _ => range_loop y points None None
  end.

(** *** The legend of a dataset

    The second half of [Dataset.create_figure]: one trace per point,
    the first point of every legend key standing for the key in the
    legend. *)

(** A text as Python has it: a sequence of code points. *)
Definition Text : Type := list N.

(** [a <= b] on texts: the order of the code points. *)
Fixpoint text_leb (a b : Text) : bool :=
  match a, b with
  | [], _ => true
  | _ :: _, [] => false
  | c :: a', d :: b' =>
      if N.ltb c d then true
      else if N.eqb c d then text_leb a' b' else false
  end.

Fixpoint insert_name (n : Text) (l : list Text) : list Text :=
  match l with
  | [] => [n]
  | m :: t => if text_leb n m then n :: l else m :: insert_name n t
  end.

(** [sorted(names)] for a set of names. *)
Definition sorted_names (names : list Text) : list Text :=
  fold_right insert_name [] (nodup (list_eq_dec N.eq_dec) names).

(** [sep.join(l)] *)
Fixpoint join (sep : Text) (l : list Text) : Text :=
  match l with
  | [] => []
  | [a] => a
  | a :: t => a ++ sep ++ join sep t
  end.

(** [MAX_WIDTH = 60] *)
Definition MAX_WIDTH : nat := 60.

(** Truthiness of a text that may be missing: [None] and [""] are
    false. *)
Definition truthy (t : option Text) : bool :=
  match t with
  | Some (_ :: _) => true
  | _ => false
  end.

Section Legend.

(** The legend key of a point,
    [(color, marker_size, marker_line_width, group)], with the equality
    that [key not in in_legend] uses, and the group it holds. *)
Variable Key : Type.
Variable key_eqb : Key -> Key -> bool.
Variable group_of : Key -> option Text.

(** The keys of a point that the legend step reads; [hide_in_legend] is
    the truth value of [el.get("hide_in_legend")]. *)
Record LegendPoint : Type := {
  lp_name : Text;
  lp_key : Key;
  lp_hide_in_legend : bool;
  lp_annotation : option Text
}.

(** What the step passes to [go.Scatter]. *)
Record Trace : Type := {
  tr_name : Text;
  tr_text : Text;
  tr_showlegend : bool
}.

(** [names_by_legend_key[key]] *)
Definition names_of (points : list LegendPoint) (key : Key) : list Text :=
  map lp_name (filter (fun el => key_eqb (lp_key el) key) points).

(** The label of a legend key: the sorted names, after the group if
    there is one, cropped to [MAX_WIDTH] code points. *)
Definition legend_label (points : list LegendPoint) (key : Key) : Text :=
  let names := sorted_names (names_of points key) in
  let label := join [44; 32]%N names in
  let label :=
    match group_of key with
    | Some (c :: g) => (c :: g) ++ [58; 32]%N ++ label
    | _ => label
    end in
  if (MAX_WIDTH <? length label)%nat
  then firstn MAX_WIDTH label ++ [46; 46; 46]%N
  else label.

(** [annotation or name] *)
Definition annotation_or (annotation : option Text) (name : Text) : Text :=
  match annotation with
  | Some (c :: a) => c :: a
  | _ => name
  end.

(** The loop [for el in self.points] that adds the traces; [in_legend]
    holds the keys added so far, the latest first. *)
Fixpoint legend_loop (all rest : list LegendPoint) (in_legend : list Key)
  : list Trace * list Key :=
  match rest with
  | [] => ([], in_legend)
  | el :: rest' =>
      let key := lp_key el in
      if negb (lp_hide_in_legend el)
         && negb (existsb (key_eqb key) in_legend) then
        let name := legend_label all key in
        let later := legend_loop all rest' (key :: in_legend) in
        ({| tr_name := name;
            tr_text := annotation_or (lp_annotation el) name;
            tr_showlegend := true |} :: fst later, snd later)
      else
        let name := lp_name el in
        let later := legend_loop all rest' in_legend in
        ({| tr_name := name;
            tr_text := annotation_or (lp_annotation el) name;
            tr_showlegend := false |} :: fst later, snd later)
  end.

(** The traces of a dataset and the height added for the legend,
    [len(in_legend) * 5]. *)
Definition legend_traces (points : list LegendPoint) : list Trace * nat :=
  let out := legend_loop points points [] in
  (fst out, (length (snd out) * 5)%nat).

End Legend.

End Scatter.

(** ** bar.py *)

Module Bar.

Import Py.

Local Open Scope float_scope.

(** The values of a category are floats: [Category] declares [data] and
    [data_pct] as [List[float]], and the arithmetic of the module is
    that of float64. *)

(** [a / b] on floats, which raises when [b] is zero. *)
Definition py_div (a b : float) : result float :=
  if b =? 0 then Raise ZeroDivisionError else Ok (a / b).

(** [CatDataDict]: an input category; the keys ["name"] and ["data_pct"]
    may be missing. *)
Record CatDataDict : Type := {
  cd_name : option string;
  cd_color : string;
  cd_data : list float;
  cd_data_pct : option (list float)
}.

Record Category : Type := {
  name : string;
  color : string;
  data : list float;
  data_pct : list float
}.

(** A bar dataset; [pct_range_min] is [pct_range["xaxis"]["min"]]. *)
Record Dataset : Type := {
  cats : list Category;
  samples : list string;
  pct_range_min : option float
}.

(** [pconfig.stacking] *)
Inductive Stacking : Type :=
| StackGroup
| StackOverlay
| StackRelative
| StackNormal.

Inductive Barmode : Type :=
| Group
| Overlay
| Relative.

(** [# Set the barmode]: [None] reads as "group", "normal" as
    "relative". *)
Definition barmode_of (stacking : option Stacking) : Barmode :=
  match stacking with
  | None => Group
  | Some StackGroup => Group
  | Some StackOverlay => Overlay
  | Some StackRelative => Relative
  | Some StackNormal => Relative
  end.

Definition is_group (b : Barmode) : bool :=
  match b with
  | Group => true
  | _ => false
  end.

Section Create.

(** [split_long_string] (of [plot.py]) and the colour conversion of the
    [spectra] package, which the module imports. *)
Variable split_long_string : string -> list string.
Variable html_rgb : string -> string.

(** The body of the loop over [cats] in [Dataset.create]; [samples] is
    the reversed sample list. *)
Definition create_category (samples : list string) (input_cat : CatDataDict)
  : result Category :=
  match cd_name input_cat with
  | None => Raise ValueError
  | Some n =>
      let cat := {|
        name := String.concat "<br>" (split_long_string n);
        color := html_rgb (cd_color input_cat);
        data := rev (cd_data input_cat);
        data_pct := match cd_data_pct input_cat with
                    | Some pct => rev pct
                    | None => []
                    end |} in
      if negb (length samples =? length (data cat))%nat then
        Raise AssertionError
      else
        match data_pct cat with
        | _ :: _ =>
            if negb (length samples =? length (data_pct cat))%nat then
              Raise AssertionError
            else Ok cat
        | [] => Ok cat
        end
  end.

(** [Dataset.create(dataset, cats, samples)] *)
Definition create (input_cats : list CatDataDict) (input_samples : list string)
  : result Dataset :=
  let samples := rev input_samples in
  fixed_cats <- mapM (create_category samples) input_cats ;;
  Ok {| cats := fixed_cats; samples := samples; pct_range_min := None |}.

End Create.

Definition set_data (cat : Category) (d : list float) : Category :=
  {| name := name cat; color := color cat; data := d;
     data_pct := data_pct cat |}.

Definition set_data_pct (cat : Category) (d : list float) : Category :=
  {| name := name cat; color := color cat; data := data cat;
     data_pct := d |}.

(** [# Expand data with zeroes if there are fewer values than samples] *)
Definition expand_with_zeroes (dataset : Dataset) : Dataset :=
  let n := length (samples dataset) in
  {| cats :=
       map (fun cat =>
              if (length (data cat) <? n)%nat then
                set_data cat
                  (data cat ++ repeat 0 (n - length (data cat)))
              else cat)
           (cats dataset);
     samples := samples dataset;
     pct_range_min := pct_range_min dataset |}.

(** [for sample_idx, val in enumerate(cat.data):
       if not math.isnan(val): sums[sample_idx] += abs(val)] *)
Fixpoint add_abs (sums : list float) (data : list float)
  : result (list float) :=
  match data with
  | [] => Ok sums
  | val :: data' =>
      match sums with
      | s :: sums' =>
          rest <- add_abs sums' data' ;;
          Ok ((if is_nan val then s else s + abs val) :: rest)
      | [] =>
          if is_nan val then add_abs [] data' else Raise IndexError
      end
  end.

(** [# Count totals for each category] *)
Definition count_totals (cats : list Category) : result (list float) :=
  match cats with
  | [] => Raise IndexError
  | first :: _ =>
      foldM (fun sums cat => add_abs sums (data cat)) cats
        (map (fun _ => 0) (data first))
  end.

(** The total the statements below compare [count_totals] with: the
    absolute values of the entries at sample index [i], added in the
    order of the categories, NaN entries left out. *)
Definition add_entry (field : Category -> list float) (i : nat) (acc : float)
  (cat : Category) : float :=
  match nth_error (field cat) i with
  | Some val => if is_nan val then acc else acc + abs val
  | None => acc
  end.

Definition abs_total (field : Category -> list float) (cats : list Category)
  (i : nat) : float :=
  fold_left (add_entry field i) cats 0.

(** One entry of [cat.data_pct]:
    [0 if sum_for_sample == 0
       else float(val + 0.0) / float(sum_for_sample) * 100.0] *)
Definition percentage (val : float) (sum_for_sample : float) : result float :=
  if sum_for_sample =? 0 then Ok 0
  else
    quotient <- py_div (val + 0) sum_for_sample ;;
    Ok (quotient * 100).

(** [for sample_idx, val in enumerate(values): ...] *)
Fixpoint percentages (sums : list float) (values : list float)
  : result (list float) :=
  match values with
  | [] => Ok []
  | val :: values' =>
      match sums with
      | s :: sums' =>
          pct <- percentage val s ;;
          rest <- percentages sums' values' ;;
          Ok (pct :: rest)
      | [] => Raise IndexError
      end
  end.

(** Python's [min] of a sequence: the first entry that no later entry
    is [<] than. *)
Definition py_min (l : list float) : result float :=
  match l with
  | [] => Raise ValueError
  | a :: t => Ok (fold_left (fun m v => if v <? m then v else m) t a)
  end.

Definition py_max (l : list float) : result float :=
  match l with
  | [] => Raise ValueError
  | a :: t => Ok (fold_left (fun m v => if m <? v then v else m) t a)
  end.

(** [[field(cat)[i] for cat in cats]] *)
Definition column_at (field : Category -> list float) (cats : list Category)
  (i : nat) : result (list float) :=
  mapM (fun cat => getitem (field cat) i) cats.

Section Ranges.

(** Python's [sum] over floats.  How it adds them up depends on the
    version of the interpreter (from the left; with a compensation of
    the rounding errors since 3.12), so it is left open here. *)
Variable py_sum : list float -> float.

(** [sum(v if v < 0 else 0 for v in column)] *)
Definition sum_negative (column : list float) : float :=
  py_sum (map (fun v => if v <? 0 then v else 0) column).

(** [sum(v if v > 0 else 0 for v in column)] *)
Definition sum_positive (column : list float) : float :=
  py_sum (map (fun v => if 0 <? v then v else 0) column).

(** The minimum over the sample indices of the per-sample minimum
    (grouped bars) or of the per-sample sum of the negative entries
    (stacked bars). *)
Definition range_min (barmode : Barmode) (field : Category -> list float)
  (dataset : Dataset) : result float :=
  per_sample <-
    mapM (fun i =>
            column <- column_at field (cats dataset) i ;;
            if is_group barmode then py_min column
            else Ok (sum_negative column))
         (seq 0 (length (samples dataset))) ;;
  py_min per_sample.

Definition range_max (barmode : Barmode) (field : Category -> list float)
  (dataset : Dataset) : result float :=
  per_sample <-
    mapM (fun i =>
            column <- column_at field (cats dataset) i ;;
            if is_group barmode then py_max column
            else Ok (sum_positive column))
         (seq 0 (length (samples dataset))) ;;
  py_max per_sample.

(** [xmax_cnt], [xmin_cnt] and [minallowed] of the loop that sets the
    axis limits of a dataset. *)
Definition axis_limits (barmode : Barmode) (dataset : Dataset)
  : result (float * float) :=
  xmax_cnt <- range_max barmode data dataset ;;
  xmin_cnt <- range_min barmode data dataset ;;
  let minallowed := if 0 <? xmin_cnt then 0 else xmin_cnt in
  Ok (minallowed, xmax_cnt).

(** [# Calculate and save percentages], for one dataset. *)
Definition percentage_pass (barmode : Barmode) (dataset : Dataset)
  : result Dataset :=
  sums <- count_totals (cats dataset) ;;
  cats' <- mapM (fun cat =>
                   values <- percentages sums (data cat) ;;
                   Ok (set_data_pct cat values))
                (cats dataset) ;;
  let dataset' := {| cats := cats'; samples := samples dataset;
                     pct_range_min := pct_range_min dataset |} in
  pct_min <- range_min barmode data_pct dataset' ;;
  Ok {| cats := cats'; samples := samples dataset;
        pct_range_min := Some pct_min |}.

End Ranges.

Section Assemble.

Variable split_long_string : string -> list string.
Variable html_rgb : string -> string.
Variable py_sum : list float -> float.

(** [BarPlot.create] for one dataset, without the reordering of the
    log-scale tab: assembly, the axis limits, the padding and the
    percentage pass. *)
Definition assemble (stacking : option Stacking) (add_pct_tab : bool)
  (input_cats : list CatDataDict) (input_samples : list string)
  : result Dataset :=
  let barmode := barmode_of stacking in
  dataset <- create split_long_string html_rgb input_cats input_samples ;;
  _ <- axis_limits py_sum barmode dataset ;;
  let dataset := expand_with_zeroes dataset in
  if add_pct_tab then percentage_pass py_sum barmode dataset
  else Ok dataset.

End Assemble.

End Bar.

(** ** Sample inputs *)

Module Examples.

Import Violin.

Local Open Scope string_scope.
Local Open Scope float_scope.

(** Thresholds small enough to be crossed by a handful of samples. *)
Definition small_config : Config := {|
  violin_min_threshold_no_points := 5;
  violin_min_threshold_outliers := 3;
  violin_downsample_after := Some 2%nat
|}.

(** A percentage column: bounds 0 and 100. *)
Definition percent_column : ColumnMeta := {|
  cm_title := "pct"; cm_suffix := Some "%";
  cm_dmin := Some 0; cm_dmax := Some 100; cm_hidden := false
|}.

(** A column whose bounds are both zero. *)
Definition zero_column : ColumnMeta := {|
  cm_title := "zero"; cm_suffix := None;
  cm_dmin := Some 0; cm_dmax := Some 0; cm_hidden := false
|}.

Definition four_samples : ValueBySample :=
  [("a", VInt 1); ("b", VInt 2); ("c", VInt 3); ("d", VInt 90)].

Definition two_zero_samples : ValueBySample :=
  [("a", VInt 0); ("b", VInt 0)].

(** Four samples with distinct values, not in order. *)
Definition unordered_samples : ValueBySample :=
  [("a", VInt 3); ("b", VInt 1); ("c", VInt 4); ("d", VInt 2)].

(** The same series with integer values. *)
Definition unordered_integers : list (SampleName * Z) :=
  [("a", 3%Z); ("b", 1%Z); ("c", 4%Z); ("d", 2%Z)].

(** The header [create_metric] leaves for [four_samples] under
    [percent_column]. *)
Definition percent_header : ViolinColumn := {|
  title := "pct"; suffix := "%"; dmin := Some 0; dmax := Some 100;
  hidden := false;
  xaxis := {| ticksuffix := Some "%"; tickvals := None;
              range := Some [-0.5; 100.5025] |};
  show_only_outliers := true; show_points := true
|}.

(** The header [create_metric] leaves for [two_zero_samples] under
    [zero_column]. *)
Definition zero_header : ViolinColumn := {|
  title := "zero"; suffix := ""; dmin := Some 0; dmax := Some 0;
  hidden := false;
  xaxis := {| ticksuffix := None; tickvals := Some [0%Z];
              range := Some [-0.0050000000000000001; 1.0050250000000001] |};
  show_only_outliers := false; show_points := true
|}.

(** The two categories X = [1, 1] and Y = [1, 3] over the samples s1
    and s2, and a category with one value too few. *)
Definition cat_X : Bar.CatDataDict := {|
  Bar.cd_name := Some "X"; Bar.cd_color := "#ff0000";
  Bar.cd_data := [1; 1]; Bar.cd_data_pct := None
|}.

Definition cat_Y : Bar.CatDataDict := {|
  Bar.cd_name := Some "Y"; Bar.cd_color := "#00ff00";
  Bar.cd_data := [1; 3]; Bar.cd_data_pct := None
|}.

Definition cat_short : Bar.CatDataDict := {|
  Bar.cd_name := Some "Z"; Bar.cd_color := "#0000ff";
  Bar.cd_data := [1]; Bar.cd_data_pct := None
|}.

Definition two_samples : list string := ["s1"; "s2"].

(** Stand-ins for [split_long_string] and the colour conversion: names
    and colours are passed through. *)
Definition keep_name (s : string) : list string := [s].
Definition keep_color (s : string) : string := s.

(** A stand-in for Python's [sum]: the floats added from the left,
    starting at 0. *)
Definition sum_from_left (l : list float) : float :=
  fold_left PrimFloat.add l 0.

(** [cat_X] and [cat_Y] as assembled over [two_samples]. *)
Definition assembled_XY : Bar.Dataset := {|
  Bar.cats :=
    [ {| Bar.name := "X"; Bar.color := "#ff0000";
         Bar.data := [1; 1]; Bar.data_pct := [] |};
      {| Bar.name := "Y"; Bar.color := "#00ff00";
         Bar.data := [3; 1]; Bar.data_pct := [] |} ];
  Bar.samples := ["s2"; "s1"];
  Bar.pct_range_min := None
|}.

(** [assembled_XY] after the percentage pass: X is 25% of s2 and 50% of
    s1, Y is 75% of s2 and 50% of s1. *)
Definition percent_XY : Bar.Dataset := {|
  Bar.cats :=
    [ {| Bar.name := "X"; Bar.color := "#ff0000";
         Bar.data := [1; 1];
         Bar.data_pct := [25; 50] |};
      {| Bar.name := "Y"; Bar.color := "#00ff00";
         Bar.data := [3; 1];
         Bar.data_pct := [75; 50] |} ];
  Bar.samples := ["s2"; "s1"];
  Bar.pct_range_min := Some 0
|}.

End Examples.

(** * Properties *)

Import Py.

(** ** Lists, slices and the result monad *)

Lemma zeros_length (n : nat) : length (Np.zeros n) = n.
Proof. apply repeat_length. Qed.

Lemma zeros_all_false (n : nat) : Forall (fun b => b = false) (Np.zeros n).
Proof.
  unfold Np.zeros. induction n as [|n IH]; simpl; constructor; auto.
Qed.

Lemma set_at_length (i : nat) (mask : list bool) :
  length (Np.set_at i mask) = length mask.
Proof.
  revert i. induction mask as [|b t IH]; intros [|j]; simpl; auto.
Qed.

Lemma set_true_length (indices : list nat) (mask : list bool) :
  length (Np.set_true indices mask) = length mask.
Proof.
  unfold Np.set_true. revert mask.
  induction indices as [|i t IH]; intros mask; simpl; [reflexivity|].
  rewrite IH. apply set_at_length.
Qed.

Lemma drop_last_length {A : Type} (n : nat) (l : list A) :
  length (drop_last n l) = length l - n.
Proof. unfold drop_last. rewrite length_firstn. lia. Qed.

Lemma opt_list_length {A : Type} (o : option A) :
  length (Violin.opt_list o) <= 1.
Proof. destruct o; simpl; lia. Qed.

Lemma strip_added_length {A : Type} (added : list A) (status : list bool) :
  length (Violin.strip_added added status) = length status - length added.
Proof.
  destruct added as [|a t].
  - simpl. lia.
  - unfold Violin.strip_added. apply drop_last_length.
Qed.

(** ** [find_outliers]: the length of the mask *)

Section FindOutliersLength.

Local Open Scope float_scope.

Variables (fuel : nat) (values : list float) (top_n : option Z).
Variables (z_cutoff : float) (minval maxval : option float).

Let added_values := Violin.opt_list minval ++ Violin.opt_list maxval.

(** The first early return gives one [False] per value. *)
Lemma find_outliers_first_return :
  (length values =? 0)%nat || Violin.top_n_nonpositive top_n = true ->
  Violin.find_outliers fuel values top_n z_cutoff minval maxval
  = Ok (Np.zeros (length values)).
Proof.
  intros H. unfold Violin.find_outliers. rewrite H. reflexivity.
Qed.

(** The return under [if std_dev == 0] gives one [False] per value and
    per added bound. *)
Lemma find_outliers_zero_std_return :
  (length values =? 0)%nat || Violin.top_n_nonpositive top_n = false ->
  (Np.std (values ++ added_values) =? 0) = true ->
  Violin.find_outliers fuel values top_n z_cutoff minval maxval
  = Ok (Np.zeros (length values + length added_values)).
Proof.
  intros H0 Hstd. unfold Violin.find_outliers. rewrite H0.
  fold added_values. rewrite Hstd. now rewrite length_app.
Qed.

(** The last return strips the added bounds. *)
Lemma find_outliers_last_return (mask : list bool) :
  (length values =? 0)%nat || Violin.top_n_nonpositive top_n = false ->
  (Np.std (values ++ added_values) =? 0) = false ->
  Violin.find_outliers fuel values top_n z_cutoff minval maxval = Ok mask ->
  length mask = length values.
Proof.
  intros H0 Hstd. unfold Violin.find_outliers. rewrite H0.
  fold added_values. rewrite Hstd. cbv zeta.
  assert (Hlen : forall idx,
    length (Violin.strip_added added_values
              (Np.set_true idx (Np.zeros (length (values ++ added_values)))))
    = length values).
  { intros idx. rewrite strip_added_length, set_true_length, zeros_length,
      length_app. lia. }
  destruct top_n as [n|]; simpl.
  - intros [= <-]. apply Hlen.
  - destruct (Violin.lower_cutoff _ _ _ _ _) as [st| |]; simpl;
      try discriminate.
    intros [= <-]. apply Hlen.
Qed.

(** Every mask has at least one entry per value, and at most two more. *)
Lemma find_outliers_length_bounds (mask : list bool) :
  Violin.find_outliers fuel values top_n z_cutoff minval maxval = Ok mask ->
  length values <= length mask <= length values + 2.
Proof.
  intros H.
  destruct ((length values =? 0)%nat || Violin.top_n_nonpositive top_n)
    eqn:H0.
  - rewrite find_outliers_first_return in H by exact H0.
    injection H as <-. rewrite zeros_length. lia.
  - destruct (Np.std (values ++ added_values) =? 0) eqn:Hstd.
    + rewrite find_outliers_zero_std_return in H by assumption.
      injection H as <-. rewrite zeros_length.
      unfold added_values. rewrite length_app.
      pose proof (opt_list_length minval). pose proof (opt_list_length maxval).
      lia.
    + rewrite (find_outliers_last_return mask H0 Hstd H). lia.
Qed.

End FindOutliersLength.

(** C1, at a series of two equal values whose declared minimum is that
    value: the standard deviation is zero, and the mask that comes back
    has three entries, one more than the series has values; the same
    call without the bound gives two. *)
Theorem find_outliers_zero_std_keeps_sentinels :
  Violin.find_outliers 6 [0; 0]%float None Violin.default_z_cutoff
    (Some 0%float) None
  = Ok [false; false; false]
  /\ length [false; false; false] <> length [0; 0]%float
  /\ Violin.find_outliers 6 [0; 0]%float None Violin.default_z_cutoff
       None None
     = Ok [false; false].
Proof.
  split; [reflexivity|]. split; [simpl; lia | reflexivity].
Qed.

(** C7: for an empty series, and for any series when [top_n] is given
    and not positive, [find_outliers] returns at once an all-false mask
    with one entry per value; its length is 0 exactly when the series is
    empty. *)
Theorem find_outliers_early_return
  (fuel : nat) (values : list float) (top_n : option Z) (z_cutoff : float)
  (minval maxval : option float) :
  values = [] \/ (exists n, top_n = Some n /\ (n <= 0)%Z) ->
  exists mask,
    Violin.find_outliers fuel values top_n z_cutoff minval maxval = Ok mask
    /\ length mask = length values
    /\ Forall (fun b => b = false) mask
    /\ (length mask = 0 <-> values = []).
Proof.
  intros H. exists (Np.zeros (length values)).
  split; [|split; [apply zeros_length|split; [apply zeros_all_false|]]].
  - apply find_outliers_first_return.
    destruct H as [-> | (n & -> & Hn)]; [reflexivity|].
    simpl. apply orb_true_iff. right. now apply Z.leb_le.
  - rewrite zeros_length. destruct values; simpl; split; congruence.
Qed.

Lemma find_outliers_early_return_witness :
  exists mask,
    Violin.find_outliers 0 [1; 2; 3]%float (Some (-1)%Z) 2%float None None
    = Ok mask
    /\ length mask = length [1; 2; 3]%float
    /\ Forall (fun b => b = false) mask
    /\ (length mask = 0 <-> [1; 2; 3]%float = []).
Proof.
  apply (find_outliers_early_return 0 [1; 2; 3]%float (Some (-1)%Z)).
  right. exists (-1)%Z. split; [reflexivity | lia].
Defined.

(** C7 as stated fails: with [top_n = 0] and three values the mask has
    three entries, not none. *)
Lemma find_outliers_top_n_zero_mask_not_empty :
  ~ (exists mask,
       Violin.find_outliers 6 [1; 2; 3]%float (Some 0%Z)
         Violin.default_z_cutoff None None = Ok mask
       /\ length mask = 0).
Proof.
  intros (mask & H & Hlen).
  vm_compute in H. injection H as <-. discriminate Hlen.
Qed.

(** ** The two threshold searches *)

Section Searches.

Local Open Scope float_scope.

(** If the cutoff is no longer above 1.0 after [k] decrements, the search
    of [find_outliers] ends within [k] rounds, in a state where the loop
    condition is false. *)
Lemma lower_cutoff_within (k : nat) :
  forall fuel z_scores n_added z_cutoff indices,
    (k <= fuel)%nat ->
    (1.0 <? Violin.cutoff_after k z_cutoff) = false ->
    exists j indices',
      (j <= k)%nat
      /\ Violin.lower_cutoff fuel z_scores n_added z_cutoff indices
         = Ok (Violin.cutoff_after j z_cutoff, indices')
      /\ (length indices' <=? n_added)%nat
         && (1.0 <? Violin.cutoff_after j z_cutoff) = false.
Proof.
  induction k as [|k IH]; intros fuel zs n z idx Hk Hz.
  - simpl in Hz. exists 0%nat, idx. split; [lia|].
    assert (Hc : (length idx <=? n)%nat && (1.0 <? z) = false)
      by (rewrite Hz; apply andb_false_r).
    split; [|exact Hc].
    destruct fuel; simpl; rewrite Hc; reflexivity.
  - destruct fuel as [|fuel]; [lia|].
    destruct ((length idx <=? n)%nat && (1.0 <? z)) eqn:Hc.
    + destruct (IH fuel zs n (z - 0.2) (Np.where_gt zs (z - 0.2)))
        as (j & idx' & Hj & Hrun & Hend); [lia | exact Hz |].
      exists (S j), idx'. split; [lia|]. split; [|exact Hend].
      simpl. rewrite Hc. exact Hrun.
    + exists 0%nat, idx. split; [lia|]. split; [|exact Hc].
      simpl. rewrite Hc. reflexivity.
Qed.


(** In binary64 the default cutoff 2.0 is still above 1.0 after five
    decrements (it is 1.0000000000000002) and below after six. *)
Lemma default_cutoff_rounds :
  (1.0 <? Violin.cutoff_after 5 Violin.default_z_cutoff) = true
  /\ (1.0 <? Violin.cutoff_after 6 Violin.default_z_cutoff) = false.
Proof. split; reflexivity. Qed.

(** In binary64 the threshold is still at most 6.0 after 24 increments
    of 1.0 and above after 25 (it is 6.0000000000000027). *)
Lemma threshold_rounds :
  (Scatter.threshold_after 24 1.0 <=? 6.0) = true
  /\ (Scatter.threshold_after 25 1.0 <=? 6.0) = false.
Proof. split; reflexivity. Qed.

(** With the default cutoff [find_outliers] returns a mask within six
    rounds of its search, whatever the values, [top_n] and bounds. *)
Lemma find_outliers_default_returns (extra : nat) (values : list float)
  (top_n : option Z) (minval maxval : option float) :
  exists mask,
    Violin.find_outliers (6 + extra) values top_n Violin.default_z_cutoff
      minval maxval = Ok mask.
Proof.
  unfold Violin.find_outliers.
  destruct ((length values =? 0)%nat || Violin.top_n_nonpositive top_n);
    [eexists; reflexivity|].
  destruct (Np.std _ =? 0); [eexists; reflexivity|].
  cbv zeta. destruct top_n as [n|]; [eexists; reflexivity|].
  match goal with
  | |- context [Violin.lower_cutoff ?f ?zs ?n ?z ?idx] =>
      destruct (lower_cutoff_within 6 f zs n z idx) as (j & idx' & _ & -> & _)
  end; [lia | reflexivity |].
  eexists; reflexivity.
Qed.


End Searches.


(** ** The violin dataset: ranges and point layers *)

Section FloatZero.

Local Open Scope float_scope.

(** The binary64 values that compare equal to zero are 0 and -0. *)
Lemma float_eqb_zero (x z : float) :
  z = 0 \/ z = -0 -> (x =? z) = true -> x = 0 \/ x = -0.
Proof.
  intros Hz H. rewrite FloatAxioms.eqb_spec in H.
  rewrite <- (FloatAxioms.SF2Prim_Prim2SF x).
  assert (Hz' : Prim2SF z = S754_zero false \/ Prim2SF z = S754_zero true)
    by (destruct Hz as [-> | ->]; [left | right]; reflexivity).
  destruct (Prim2SF x) as [s | s | | s m e].
  - destruct s; [right | left]; reflexivity.
  - exfalso. destruct Hz' as [E | E]; rewrite E in H;
      destruct s; discriminate H.
  - exfalso. destruct Hz' as [E | E]; rewrite E in H; discriminate H.
  - exfalso. destruct Hz' as [E | E]; rewrite E in H;
      destruct s; discriminate H.
Qed.

Lemma both_zero_inv (xmin xmax : option float) :
  Violin.both_zero xmin xmax = true ->
  exists a b, xmin = Some a /\ xmax = Some b
              /\ (a = 0 \/ a = -0) /\ (b = 0 \/ b = -0).
Proof.
  destruct xmin as [a|], xmax as [b|]; simpl; try discriminate.
  intros H. apply andb_true_iff in H as [Hab Hb].
  exists a, b. repeat split; auto.
  - apply (float_eqb_zero a b); [|exact Hab].
    apply (float_eqb_zero b 0); auto.
  - apply (float_eqb_zero b 0); auto.
Qed.

(** The range of a metric whose bounds are both zero: 0..1, padded when
    the points are shown, with the single tick 0. *)
Lemma calculate_range_both_zero (dmin dmax : option float)
  (show_points : bool) :
  Violin.both_zero dmin dmax = true ->
  exists lo hi,
    Violin.calculate_range dmin dmax show_points
    = (Some [0%Z], Some [lo; hi])
    /\ (lo <? hi) = true
    /\ (if show_points
        then lo = 0 - (1 - 0) * 0.005 /\ hi = 1 + (1 - lo) * 0.005
        else (lo =? 0) = true /\ hi = 1).
Proof.
  intros H. destruct (both_zero_inv _ _ H) as (a & b & -> & -> & Ha & Hb).
  destruct Ha as [-> | ->], Hb as [-> | ->], show_points;
    eexists; eexists; (split; [reflexivity|]); split; try split; reflexivity.
Qed.

End FloatZero.

Section CreateMetric.

Import Violin.

Variable value_leb : ValueT -> ValueT -> bool.
Variable config : Config.

(** What a kept metric records, read off the loop body. *)
Lemma create_metric_kept (fuel : nat) (dt_column : ColumnMeta)
  (value_by_sample : ValueBySample) (column : ViolinColumn)
  (scatter violin : ValueBySample) :
  create_metric value_leb config fuel dt_column value_by_sample
  = Ok (Kept column scatter violin) ->
  let series := current_series value_by_sample in
  let values_are_numeric := forallb is_number (map snd value_by_sample) in
  let shown := length series <=? violin_min_threshold_no_points config in
  let only_outliers :=
    violin_min_threshold_outliers config <? length series in
  series <> []
  /\ show_points column = shown
  /\ show_only_outliers column = only_outliers
  /\ dmin column = cm_dmin dt_column
  /\ dmax column = cm_dmax dt_column
  /\ (tickvals (xaxis column), range (xaxis column))
     = (if values_are_numeric
        then calculate_range (cm_dmin dt_column) (cm_dmax dt_column) shown
        else (None, None))
  /\ (if negb shown then Ok []
      else if negb only_outliers then Ok []
      else if negb values_are_numeric then Ok []
      else
        outlier_statuses <-
          find_outliers fuel (map (fun sv => to_float (snd sv)) series)
            None default_z_cutoff (cm_dmin dt_column) (cm_dmax dt_column) ;;
        select_outliers series outlier_statuses) = Ok scatter
  /\ rank_downsample value_leb (violin_downsample_after config) series
     = Ok violin.
Proof.
  intros H series values_are_numeric shown only_outliers.
  unfold create_metric in H.
  destruct value_by_sample as [|sv0 rest] eqn:Hv; [discriminate|].
  fold values_are_numeric in H. fold series in H.
  destruct series as [|s0 srest] eqn:Hseries; [discriminate|].
  cbv zeta in H. cbn [dmin dmax xaxis title suffix hidden ticksuffix] in H.
  fold shown only_outliers in H.
  match type of H with
  | bind ?sc _ = _ => destruct sc as [sc_v| |] eqn:Hsc
  end; simpl in H; try discriminate.
  destruct (rank_downsample _ _ _) as [vi| |] eqn:Hvi; simpl in H;
    try discriminate.
  injection H as <- <- <-. simpl.
  repeat split; try congruence.
  destruct values_are_numeric; [|reflexivity].
  destruct (calculate_range _ _ _). reflexivity.
Qed.

End CreateMetric.

Lemma mapM_ok_map {A B : Type} (f : A -> result B) (g : A -> B)
  (l : list A) :
  (forall x, In x l -> f x = Ok (g x)) -> mapM f l = Ok (map g l).
Proof.
  induction l as [|x t IH]; intros H; simpl; [reflexivity|].
  rewrite (H x) by (left; reflexivity). simpl.
  rewrite IH by (intros y Hy; apply H; right; exact Hy). reflexivity.
Qed.

Lemma mapM_ok_length {A B : Type} (f : A -> result B) (l : list A)
  (out : list B) :
  mapM f l = Ok out -> length out = length l.
Proof.
  revert out. induction l as [|x t IH]; intros out; simpl.
  - intros [= <-]. reflexivity.
  - destruct (f x); simpl; try discriminate.
    destruct (mapM f t); simpl; try discriminate.
    intros [= <-]. simpl. f_equal. now apply IH.
Qed.

Lemma getitem_nth_error {A : Type} (l : list A) (i : nat) (x : A) :
  nth_error l i = Some x -> getitem l i = Ok x.
Proof. unfold getitem. now intros ->. Qed.

(** The entries a mask flags, in the order of the series. *)
Lemma flagged_concat {A : Type} (series : list A) (mask : list bool) :
  length series <= length mask ->
  concat (map (fun idx =>
                 match nth_error mask idx, nth_error series idx with
                 | Some true, Some e => [e]
                 | _, _ => []
                 end)
            (seq 0 (length series)))
  = map fst (filter snd (combine series mask)).
Proof.
  revert mask. induction series as [|e es IH]; intros mask Hlen.
  - reflexivity.
  - destruct mask as [|b bs]; [simpl in Hlen; lia|].
    simpl in Hlen. cbn [length seq map concat].
    rewrite <- seq_shift, map_map. cbn [nth_error].
    rewrite IH by lia. cbn [combine filter snd].
    destruct b; reflexivity.
Qed.

(** [select_outliers] keeps exactly the entries the mask flags; a mask
    longer than the series is read up to the length of the series. *)
Lemma select_outliers_flagged (series : Violin.ValueBySample)
  (mask : list bool) :
  length series <= length mask ->
  Violin.select_outliers series mask
  = Ok (map fst (filter snd (combine series mask))).
Proof.
  intros Hlen. unfold Violin.select_outliers.
  rewrite (mapM_ok_map _
             (fun idx =>
                match nth_error mask idx, nth_error series idx with
                | Some true, Some e => [e]
                | _, _ => []
                end)).
  - simpl. rewrite length_map, flagged_concat by exact Hlen. reflexivity.
  - intros idx Hidx. apply in_seq in Hidx. rewrite length_map in Hidx.
    destruct (nth_error mask idx) as [b|] eqn:Hb;
      [|apply nth_error_None in Hb; lia].
    rewrite (getitem_nth_error _ _ _ Hb). simpl.
    destruct b; [|reflexivity].
    destruct (nth_error series idx) as [[s v]|] eqn:He;
      [|apply nth_error_None in He; lia].
    rewrite (getitem_nth_error (map fst series) idx s)
      by (rewrite nth_error_map, He; reflexivity).
    simpl.
    rewrite (getitem_nth_error (map snd series) idx v)
      by (rewrite nth_error_map, He; reflexivity).
    reflexivity.
Qed.

Section ViolinClaims.

Import Violin.

Local Open Scope float_scope.

Variable value_leb : ValueT -> ValueT -> bool.
Variable config : Config.

(** C5: a numeric metric whose declared bounds are both zero is given
    the tick values [0] and a range whose upper end is above its lower
    end: 0..1 when its points are not shown, and that range padded when
    they are. *)
Theorem zero_bounds_give_unit_range (fuel : nat) (dt_column : ColumnMeta)
  (value_by_sample : ValueBySample) (column : ViolinColumn)
  (scatter violin : ValueBySample) :
  create_metric value_leb config fuel dt_column value_by_sample
  = Ok (Kept column scatter violin) ->
  forallb is_number (map snd value_by_sample) = true ->
  both_zero (cm_dmin dt_column) (cm_dmax dt_column) = true ->
  tickvals (xaxis column) = Some [0%Z]
  /\ exists lo hi,
       range (xaxis column) = Some [lo; hi]
       /\ (lo <? hi) = true
       /\ (if show_points column
           then lo = 0 - (1 - 0) * 0.005 /\ hi = 1 + (1 - lo) * 0.005
           else (lo =? 0) = true /\ hi = 1).
Proof.
  intros Hrun Hnum Hzero.
  destruct (create_metric_kept _ _ _ _ _ _ _ _ Hrun)
    as (_ & Hshown & _ & _ & _ & Hrange & _).
  rewrite Hnum in Hrange.
  destruct (calculate_range_both_zero _ _
              (length (current_series value_by_sample)
               <=? violin_min_threshold_no_points config)%nat Hzero)
    as (lo & hi & Hcalc & Hlt & Hends).
  rewrite Hcalc in Hrange. injection Hrange as Ht Hr.
  split; [exact Ht|]. exists lo, hi. rewrite Hshown. auto.
Qed.

(** C4: in a series with more samples than the outliers threshold
    (after NaN and Inf are removed), only outliers are to be shown.  A
    series with a value that is not a number has no points drawn.  A
    numeric series has points drawn only when [show_points] holds, that
    is while it is within the no-points threshold, and these points are
    exactly the entries that [find_outliers], run on the series with the
    declared bounds, flags, in the order of the series. *)
Theorem outliers_only_point_layer (fuel : nat) (dt_column : ColumnMeta)
  (value_by_sample : ValueBySample) (column : ViolinColumn)
  (scatter violin : ValueBySample) :
  create_metric value_leb config fuel dt_column value_by_sample
  = Ok (Kept column scatter violin) ->
  (violin_min_threshold_outliers config
   < length (current_series value_by_sample))%nat ->
  let series := current_series value_by_sample in
  let layer := point_layer (Kept column scatter violin) in
  show_only_outliers column = true
  /\ show_points column
     = (length series <=? violin_min_threshold_no_points config)%nat
  /\ (forallb is_number (map snd value_by_sample) = false -> layer = [])
  /\ (forallb is_number (map snd value_by_sample) = true ->
      if show_points column then
        exists outlier_statuses,
          find_outliers fuel (map (fun sv => to_float (snd sv)) series)
            None default_z_cutoff (cm_dmin dt_column) (cm_dmax dt_column)
          = Ok outlier_statuses
          /\ layer = map fst (filter snd (combine series outlier_statuses))
      else layer = []).
Proof.
  intros Hrun Hsize series layer.
  destruct (create_metric_kept _ _ _ _ _ _ _ _ Hrun)
    as (_ & Hshown & Honly & _ & _ & _ & Hscatter & _).
  fold series in Hshown, Honly, Hscatter.
  apply Nat.ltb_lt in Hsize. fold series in Hsize.
  rewrite Hsize in Honly, Hscatter. simpl in Hscatter.
  split; [exact Honly|]. split; [exact Hshown|].
  unfold layer, point_layer. rewrite Hshown, Honly.
  destruct (forallb is_number (map snd value_by_sample));
    destruct (length series <=? violin_min_threshold_no_points config)%nat;
    simpl in Hscatter; (split; [intros Hnum | intros Hnum]);
    try reflexivity; try discriminate Hnum; try congruence.
  destruct (find_outliers _ _ _ _ _ _) as [mask| |] eqn:Hmask;
    simpl in Hscatter; try discriminate.
  exists mask. split; [reflexivity|].
  pose proof (find_outliers_length_bounds _ _ _ _ _ _ _ Hmask) as [Hlen _].
  rewrite length_map in Hlen.
  rewrite select_outliers_flagged in Hscatter by exact Hlen.
  congruence.
Qed.

End ViolinClaims.

Lemma zero_bounds_give_unit_range_witness :
  Violin.tickvals (Violin.xaxis Examples.zero_header) = Some [0%Z]
  /\ exists lo hi,
       Violin.range (Violin.xaxis Examples.zero_header) = Some [lo; hi]
       /\ (lo <? hi)%float = true
       /\ (if Violin.show_points Examples.zero_header
           then lo = (0 - (1 - 0) * 0.005)%float
                /\ hi = (1 + (1 - lo) * 0.005)%float
           else (lo =? 0)%float = true /\ hi = 1%float).
Proof.
  apply (zero_bounds_give_unit_range Violin.numeric_leb Examples.small_config
           6 Examples.zero_column Examples.two_zero_samples
           Examples.zero_header [] Examples.two_zero_samples);
    reflexivity.
Defined.

Lemma outliers_only_point_layer_witness :
  let series := Violin.current_series Examples.four_samples in
  let layer :=
    Violin.point_layer
      (Violin.Kept Examples.percent_header [("d"%string, Violin.VInt 90)]
         [("a"%string, Violin.VInt 1); ("c"%string, Violin.VInt 3)]) in
  Violin.show_only_outliers Examples.percent_header = true
  /\ Violin.show_points Examples.percent_header
     = (length series
        <=? Violin.violin_min_threshold_no_points Examples.small_config)
  /\ (forallb Violin.is_number (map snd Examples.four_samples) = false ->
      layer = [])
  /\ (forallb Violin.is_number (map snd Examples.four_samples) = true ->
      if Violin.show_points Examples.percent_header then
        exists outlier_statuses,
          Violin.find_outliers 6
            (map (fun sv => Violin.to_float (snd sv)) series) None
            Violin.default_z_cutoff
            (Violin.cm_dmin Examples.percent_column)
            (Violin.cm_dmax Examples.percent_column)
          = Ok outlier_statuses
          /\ layer = map fst (filter snd (combine series outlier_statuses))
      else layer = []).
Proof.
  apply (outliers_only_point_layer Violin.numeric_leb Examples.small_config
           6 Examples.percent_column Examples.four_samples
           Examples.percent_header
           [("d"%string, Violin.VInt 90)]
           [("a"%string, Violin.VInt 1); ("c"%string, Violin.VInt 3)]).
  - reflexivity.
  - vm_compute. lia.
Defined.

(** C6, at a percentage column (bounds 0 and 100) whose points are
    shown: the lower end of the range is 0 less 0.5% of the span, -0.5,
    but the upper end is 100.5025, above 100 plus 0.5% of the span: the
    padding of the upper end is computed from the lower end that has
    already been moved. *)
Theorem range_padding_overshoots_upper_end :
  Violin.create_metric Violin.numeric_leb Examples.small_config 6
    Examples.percent_column Examples.four_samples
  = Ok (Violin.Kept Examples.percent_header
          [("d"%string, Violin.VInt 90)]
          [("a"%string, Violin.VInt 1); ("c"%string, Violin.VInt 3)])
  /\ Violin.calculate_range (Some 0%float) (Some 100%float) true
     = (None, Some [-0.5; 100.5025]%float)
  /\ (0 - (100 - 0) * 0.005 = -0.5)%float
  /\ (100 + (100 - 0) * 0.005 = 100.5)%float
  /\ (100.5 <? 100.5025)%float = true.
Proof. repeat split; reflexivity. Qed.

(** ** Strided slices *)

Lemma nth_error_stride_from {A : Type} (k : nat) (l : list A) :
  0 < k ->
  forall skip j,
    nth_error (stride_from k skip l) j = nth_error l (skip + j * k).
Proof.
  intros Hk. induction l as [|x t IH]; intros skip j.
  - simpl. now rewrite !nth_error_nil.
  - destruct skip as [|s]; simpl.
    + destruct j as [|j]; [reflexivity|].
      cbn [nth_error]. rewrite IH.
      replace (S j * k) with (S (k - 1 + j * k)) by lia.
      reflexivity.
    + apply IH.
Qed.

Lemma nth_error_every_nth {A : Type} (k : nat) (l : list A) (j : nat) :
  0 < k -> nth_error (every_nth k l) j = nth_error l (j * k).
Proof.
  intros Hk. unfold every_nth. now rewrite nth_error_stride_from.
Qed.

Lemma stride_from_map {A B : Type} (f : A -> B) (k : nat) (l : list A) :
  forall skip, stride_from k skip (map f l) = map f (stride_from k skip l).
Proof.
  induction l as [|x t IH]; intros [|s]; simpl; auto. now rewrite IH.
Qed.

Lemma stride_from_incl {A : Type} (k : nat) (l : list A) :
  forall skip x, In x (stride_from k skip l) -> In x l.
Proof.
  induction l as [|y t IH]; intros [|s] x; simpl; auto.
  - intros [H | H]; [now left | right; eauto].
  - intros H. right. eauto.
Qed.

(** [ceil(n / cap)] steps of size at most [cap] cover [n]. *)
Lemma ceil_div_covers (n cap : nat) : 0 < cap -> n <= cap * ceil_div n cap.
Proof.
  intros Hcap. unfold ceil_div.
  pose proof (Nat.div_mod_eq (n + cap - 1) cap) as Hdm.
  pose proof (Nat.mod_upper_bound (n + cap - 1) cap) as Hlt.
  nia.
Qed.

Lemma ceil_div_positive (n cap : nat) : 0 < cap -> 0 < n -> 0 < ceil_div n cap.
Proof.
  intros Hcap Hn. pose proof (ceil_div_covers n cap Hcap). nia.
Qed.

(** A slice with step [ceil(n / cap)] of [n] elements has at most [cap]
    elements. *)
Lemma every_nth_length_le_cap {A : Type} (cap : nat) (l : list A) :
  0 < cap -> 0 < length l ->
  length (every_nth (ceil_div (length l) cap) l) <= cap.
Proof.
  intros Hcap Hn.
  apply nth_error_None.
  rewrite nth_error_every_nth by now apply ceil_div_positive.
  apply nth_error_None. now apply ceil_div_covers.
Qed.

(** ** [argsort] *)

Section ArgsortFacts.

Context {A : Type} (leb : A -> A -> bool).

Let by_value (x y : nat * A) : Prop := leb (snd x) (snd y) = true.

Lemma insert_key_perm (x : nat * A) (l : list (nat * A)) :
  Permutation (Np.insert_key leb x l) (x :: l).
Proof.
  induction l as [|y t IH]; simpl; [reflexivity|].
  destruct (leb (snd x) (snd y)); [reflexivity|].
  rewrite IH. apply perm_swap.
Qed.

Lemma sort_keyed_perm (l : list (nat * A)) :
  Permutation (Np.sort_keyed leb l) l.
Proof.
  induction l as [|x t IH]; simpl; [reflexivity|].
  rewrite insert_key_perm. now constructor.
Qed.

Lemma keyed_fst (a : list A) : map fst (Np.keyed a) = seq 0 (length a).
Proof.
  unfold Np.keyed. generalize 0.
  induction a as [|x t IH]; intros n; simpl; [reflexivity|].
  now rewrite IH.
Qed.

Lemma keyed_snd (a : list A) : map snd (Np.keyed a) = a.
Proof.
  unfold Np.keyed. generalize 0.
  induction a as [|x t IH]; intros n; simpl; [reflexivity|].
  now rewrite IH.
Qed.

Lemma keyed_nth_error (a : list A) (iv : nat * A) :
  In iv (Np.keyed a) -> nth_error a (fst iv) = Some (snd iv).
Proof.
  unfold Np.keyed.
  assert (H : forall n, In iv (combine (seq n (length a)) a) ->
                        n <= fst iv /\ nth_error a (fst iv - n) = Some (snd iv)).
  { induction a as [|x t IH]; intros n; simpl; [tauto|].
    intros [<- | Hin].
    - simpl. rewrite Nat.sub_diag. auto.
    - destruct (IH _ Hin) as [Hle Hnth]. split; [lia|].
      replace (fst iv - n) with (S (fst iv - S n)) by lia. exact Hnth. }
  intros Hin. destruct (H 0 Hin) as [_ Hnth].
  now rewrite Nat.sub_0_r in Hnth.
Qed.

(** [argsort] lists every position once. *)
Lemma argsort_perm (a : list A) :
  Permutation (Np.argsort leb a) (seq 0 (length a)).
Proof.
  unfold Np.argsort. rewrite <- keyed_fst.
  apply Permutation_map, sort_keyed_perm.
Qed.

Lemma argsort_in_range (a : list A) (i : nat) :
  In i (Np.argsort leb a) -> i < length a.
Proof.
  intros Hin. apply (Permutation_in _ (argsort_perm a)) in Hin.
  now apply in_seq in Hin.
Qed.

(** The order [leb] need only be total and transitive on the values that
    are sorted. *)
Variable dom : A -> Prop.
Hypothesis leb_total :
  forall a b, dom a -> dom b -> leb a b = true \/ leb b a = true.
Hypothesis leb_trans :
  forall a b c, dom a -> dom b -> dom c ->
                leb a b = true -> leb b c = true -> leb a c = true.

Lemma insert_key_sorted (x : nat * A) (l : list (nat * A)) :
  dom (snd x) -> Forall (fun y => dom (snd y)) l ->
  StronglySorted by_value l ->
  StronglySorted by_value (Np.insert_key leb x l).
Proof.
  intros Hx Hdom Hsorted.
  induction Hsorted as [|y t Ht IH Hy]; simpl.
  - repeat constructor.
  - inversion Hdom as [|? ? Hdy Hdt]; subst.
    destruct (leb (snd x) (snd y)) eqn:Hxy.
    + constructor; [now constructor|].
      constructor; [exact Hxy|].
      rewrite Forall_forall in Hy, Hdt |- *.
      intros z Hz. unfold by_value.
      apply (leb_trans (snd x) (snd y) (snd z)); auto.
      now apply Hy.
    + constructor; [now apply IH|].
      apply (Permutation_Forall (Permutation_sym (insert_key_perm x t))).
      constructor; [|exact Hy].
      unfold by_value.
      destruct (leb_total (snd x) (snd y) Hx Hdy) as [H | H];
        [congruence | exact H].
Qed.

Lemma sort_keyed_sorted (l : list (nat * A)) :
  Forall (fun y => dom (snd y)) l ->
  StronglySorted by_value (Np.sort_keyed leb l).
Proof.
  induction l as [|x t IH]; intros Hdom; simpl; [constructor|].
  inversion Hdom as [|? ? Hx Ht]; subst.
  apply insert_key_sorted; auto.
  apply (Permutation_Forall (Permutation_sym (sort_keyed_perm t))).
  exact Ht.
Qed.

(** The values read at the positions [argsort] returns are in ascending
    order. *)
Lemma argsort_sorted (a : list A) :
  Forall dom a ->
  StronglySorted (fun u v => leb u v = true)
    (map snd (Np.sort_keyed leb (Np.keyed a))).
Proof.
  intros Hdom.
  assert (Hk : Forall (fun y => dom (snd y)) (Np.keyed a)).
  { apply Forall_map. now rewrite keyed_snd. }
  pose proof (sort_keyed_sorted _ Hk) as Hs.
  induction Hs as [|y t Ht IH Hy]; simpl; constructor; auto.
  apply Forall_map. exact Hy.
Qed.

End ArgsortFacts.

(** ** Rank downsampling *)

Lemma map_nth_seq {A : Type} (l : list A) (d : A) :
  map (fun i => nth i l d) (seq 0 (length l)) = l.
Proof.
  induction l as [|x t IH]; [reflexivity|].
  cbn [length seq map nth]. rewrite <- seq_shift, map_map. cbn [nth].
  now rewrite IH.
Qed.

Lemma sorted_by_snd {K A : Type} (leb : A -> A -> bool) (l : list (K * A)) :
  StronglySorted (fun u v => leb u v = true) (map snd l) ->
  StronglySorted (fun x y => leb (snd x) (snd y) = true) l.
Proof.
  induction l as [|x t IH]; intros H; [constructor|].
  simpl in H. inversion H as [|? ? Ht Hx]; subst.
  constructor; [now apply IH|].
  rewrite Forall_map in Hx. exact Hx.
Qed.

Lemma sorted_nth_error {A : Type} (R : A -> A -> Prop) (l : list A) :
  StronglySorted R l ->
  forall i j x y,
    i < j -> nth_error l i = Some x -> nth_error l j = Some y -> R x y.
Proof.
  induction 1 as [|a t Ht IH Ha]; intros i j x y Hij Hi Hj.
  - now rewrite nth_error_nil in Hi.
  - destruct j as [|j]; [lia|]. simpl in Hj.
    destruct i as [|i]; simpl in Hi.
    + injection Hi as <-. rewrite Forall_forall in Ha.
      apply Ha. eapply nth_error_In; eauto.
    + apply (IH i j); auto. lia.
Qed.

Section RankDownsample.

Context {A : Type} (leb : A -> A -> bool).

Variable cap : nat.
Variable value_by_sample : list (Violin.SampleName * A).

Let n := length value_by_sample.
Let values := map snd value_by_sample.
Let by_value (x y : Violin.SampleName * A) : Prop :=
  leb (snd x) (snd y) = true.

(** At or below the cap the series is returned as it is. *)
Lemma rank_downsample_small :
  n <= cap ->
  Violin.rank_downsample leb (Some cap) value_by_sample = Ok value_by_sample.
Proof.
  intros H. unfold Violin.rank_downsample.
  now rewrite (proj2 (Nat.ltb_ge cap (length value_by_sample)) H).
Qed.

(** Above the cap, the result is every [ceil(n / cap)]-th entry of the
    series read in the order [argsort] gives. *)
Lemma rank_downsample_large (d : Violin.SampleName * A) :
  0 < cap -> cap < n ->
  Violin.rank_downsample leb (Some cap) value_by_sample
  = Ok (every_nth (ceil_div n cap)
          (map (fun i => nth i value_by_sample d) (Np.argsort leb values))).
Proof.
  intros Hcap Hn. unfold Violin.rank_downsample.
  rewrite (proj2 (Nat.ltb_lt cap (length value_by_sample)) Hn).
  rewrite (proj2 (Nat.eqb_neq cap 0)) by lia.
  fold values.
  rewrite (Permutation_length (argsort_perm leb values)), length_seq.
  unfold values at 2. rewrite length_map. fold n.
  unfold every_nth. rewrite stride_from_map.
  apply mapM_ok_map.
  intros idx Hidx. apply stride_from_incl, argsort_in_range in Hidx.
  unfold values in Hidx. rewrite length_map in Hidx.
  rewrite (getitem_nth_error (map fst value_by_sample) idx
             (fst (nth idx value_by_sample d))).
  2:{ rewrite nth_error_map, (nth_error_nth' _ d) by exact Hidx.
      reflexivity. }
  simpl.
  rewrite (getitem_nth_error values idx
             (snd (nth idx value_by_sample d))).
  2:{ unfold values.
      rewrite nth_error_map, (nth_error_nth' _ d) by exact Hidx.
      reflexivity. }
  simpl. now destruct (nth idx value_by_sample d).
Qed.

Lemma sorted_entries_perm (d : Violin.SampleName * A) :
  Permutation
    (map (fun i => nth i value_by_sample d) (Np.argsort leb values))
    value_by_sample.
Proof.
  assert (Hlen : length values = length value_by_sample)
    by (unfold values; apply length_map).
  pose proof (Permutation_map (fun i => nth i value_by_sample d)
                (argsort_perm leb values)) as H.
  rewrite Hlen, map_nth_seq in H. exact H.
Qed.

Hypothesis leb_total :
  forall a b, In a values -> In b values ->
              leb a b = true \/ leb b a = true.
Hypothesis leb_trans :
  forall a b c, In a values -> In b values -> In c values ->
                leb a b = true -> leb b c = true -> leb a c = true.

Lemma sorted_entries_sorted (d : Violin.SampleName * A) :
  StronglySorted by_value
    (map (fun i => nth i value_by_sample d) (Np.argsort leb values)).
Proof.
  apply (sorted_by_snd leb). unfold Np.argsort. rewrite !map_map.
  rewrite (map_ext_in _ snd).
  - apply (argsort_sorted leb (fun a => In a values) leb_total leb_trans).
    now apply Forall_forall.
  - intros iv Hiv.
    apply (Permutation_in _ (sort_keyed_perm leb _)) in Hiv.
    apply (keyed_nth_error leb) in Hiv. unfold values in Hiv.
    rewrite nth_error_map in Hiv.
    destruct (nth_error value_by_sample (fst iv)) as [e|] eqn:He;
      [|discriminate].
    rewrite (nth_error_nth _ _ d He). simpl in Hiv. congruence.
Qed.

End RankDownsample.

(** C2, as the code has it: a series at or below the cap is returned
    unchanged.  A longer one is sorted by value and every
    [ceil(n / cap)]-th entry by rank is kept, starting with the first:
    at most [cap] entries, among them one of minimum value; an entry of
    maximum value is among them when [n - 1] is a multiple of the step.
    The order [leb] is assumed total and transitive on the values of the
    series. *)
Theorem rank_downsample_keeps_every_step_th_rank {A : Type}
  (leb : A -> A -> bool) (cap : nat)
  (value_by_sample : list (Violin.SampleName * A)) :
  0 < cap ->
  (forall a b,
     In a (map snd value_by_sample) -> In b (map snd value_by_sample) ->
     leb a b = true \/ leb b a = true) ->
  (forall a b c,
     In a (map snd value_by_sample) -> In b (map snd value_by_sample) ->
     In c (map snd value_by_sample) ->
     leb a b = true -> leb b c = true -> leb a c = true) ->
  let n := length value_by_sample in
  let step := ceil_div n cap in
  (n <= cap ->
   Violin.rank_downsample leb (Some cap) value_by_sample
   = Ok value_by_sample)
  /\ (cap < n ->
      exists sorted out,
        Permutation sorted value_by_sample
        /\ StronglySorted (fun x y => leb (snd x) (snd y) = true) sorted
        /\ Violin.rank_downsample leb (Some cap) value_by_sample = Ok out
        /\ (forall j, nth_error out j = nth_error sorted (j * step))
        /\ length out <= cap
        /\ (exists e, In e out
                      /\ forall e', In e' value_by_sample ->
                                    leb (snd e) (snd e') = true)
        /\ ((n - 1) mod step = 0 ->
            exists e, In e out
                      /\ forall e', In e' value_by_sample ->
                                    leb (snd e') (snd e) = true)).
Proof.
  intros Hcap Htotal Htrans n step.
  split; [apply rank_downsample_small|].
  intros Hn.
  assert (d : Violin.SampleName * A).
  { destruct value_by_sample as [|d ?]; [exfalso | exact d].
    unfold n in Hn. simpl in Hn. lia. }
  set (sorted := map (fun i => nth i value_by_sample d)
                   (Np.argsort leb (map snd value_by_sample))).
  assert (Hperm : Permutation sorted value_by_sample)
    by apply sorted_entries_perm.
  assert (Hsorted : StronglySorted (fun x y => leb (snd x) (snd y) = true)
                      sorted)
    by (apply sorted_entries_sorted; assumption).
  assert (Hlen : length sorted = n) by apply (Permutation_length Hperm).
  assert (Hstep : 0 < step) by (apply ceil_div_positive; lia).
  assert (Hrefl : forall e, In e sorted -> leb (snd e) (snd e) = true).
  { intros e He. apply (Permutation_in _ Hperm) in He.
    apply (in_map snd) in He. destruct (Htotal _ _ He He); assumption. }
  assert (Hrank : forall j,
            nth_error (every_nth step sorted) j = nth_error sorted (j * step))
    by (intros j; now apply nth_error_every_nth).
  exists sorted, (every_nth step sorted).
  split; [exact Hperm|]. split; [exact Hsorted|].
  split; [apply rank_downsample_large; assumption|].
  split; [exact Hrank|].
  split.
  { unfold step. rewrite <- Hlen. apply every_nth_length_le_cap; lia. }
  split.
  - destruct (nth_error sorted 0) as [e0|] eqn:H0;
      [|apply nth_error_None in H0; lia].
    exists e0. split.
    + apply (nth_error_In _ 0). now rewrite Hrank.
    + intros e' He'. apply (Permutation_in _ (Permutation_sym Hperm)) in He'.
      destruct (In_nth_error _ _ He') as [i Hi].
      destruct i as [|i].
      * assert (e' = e0) by congruence. subst e'.
        apply Hrefl. eapply nth_error_In; eauto.
      * apply (sorted_nth_error _ _ Hsorted 0 (S i)); auto. lia.
  - intros Hmod.
    destruct (nth_error sorted (n - 1)) as [eL|] eqn:HL;
      [|apply nth_error_None in HL; lia].
    exists eL. split.
    + apply (nth_error_In _ ((n - 1) / step)). rewrite Hrank.
      replace ((n - 1) / step * step) with (n - 1); [exact HL|].
      apply Nat.Div0.div_exact in Hmod. lia.
    + intros e' He'. apply (Permutation_in _ (Permutation_sym Hperm)) in He'.
      destruct (In_nth_error _ _ He') as [i Hi].
      assert (Hi' : i < n)
        by (rewrite <- Hlen; apply nth_error_Some; congruence).
      destruct (Nat.eq_dec i (n - 1)) as [-> | Hne].
      * assert (e' = eL) by congruence. subst e'.
        apply Hrefl. eapply nth_error_In; eauto.
      * apply (sorted_nth_error _ _ Hsorted i (n - 1)); auto. lia.
Qed.

Lemma rank_downsample_keeps_every_step_th_rank_witness :
  let value_by_sample := Examples.unordered_integers in
  let n := length value_by_sample in
  let step := ceil_div n 2 in
  (n <= 2 ->
   Violin.rank_downsample Z.leb (Some 2) value_by_sample
   = Ok value_by_sample)
  /\ (2 < n ->
      exists sorted out,
        Permutation sorted value_by_sample
        /\ StronglySorted (fun x y => Z.leb (snd x) (snd y) = true) sorted
        /\ Violin.rank_downsample Z.leb (Some 2) value_by_sample = Ok out
        /\ (forall j, nth_error out j = nth_error sorted (j * step))
        /\ length out <= 2
        /\ (exists e, In e out
                      /\ forall e', In e' value_by_sample ->
                                    Z.leb (snd e) (snd e') = true)
        /\ ((n - 1) mod step = 0 ->
            exists e, In e out
                      /\ forall e', In e' value_by_sample ->
                                    Z.leb (snd e') (snd e) = true)).
Proof.
  apply (rank_downsample_keeps_every_step_th_rank Z.leb 2
           Examples.unordered_integers).
  - lia.
  - intros a b _ _. rewrite !Z.leb_le. lia.
  - intros a b c _ _ _. rewrite !Z.leb_le. lia.
Defined.

(** C2 as stated fails: of four samples with the values 3, 1, 4, 2 and a
    cap of two, the ranks 0 and 2 are kept, the values 1 and 3; no kept
    entry is as large as every value of the series. *)
Lemma rank_downsample_can_drop_the_maximum :
  Violin.rank_downsample Violin.numeric_leb (Some 2)
    Examples.unordered_samples
  = Ok [("b"%string, Violin.VInt 1); ("a"%string, Violin.VInt 3)]
  /\ ~ (exists out,
          Violin.rank_downsample Violin.numeric_leb (Some 2)
            Examples.unordered_samples = Ok out
          /\ exists e,
               In e out
               /\ forall e', In e' Examples.unordered_samples ->
                             Violin.numeric_leb (snd e') (snd e) = true).
Proof.
  split; [reflexivity|].
  intros (out & Hout & e & He & Hmax).
  vm_compute in Hout. injection Hout as <-.
  assert (Hc : Violin.numeric_leb (Violin.VInt 4) (snd e) = true).
  { apply (Hmax ("c"%string, Violin.VInt 4)). simpl. auto. }
  destruct He as [<- | [<- | []]]; vm_compute in Hc; discriminate Hc.
Qed.

(** Unless the downsampling cap is set to zero, every round of the loop
    over the columns ends with a result, and six rounds of the cutoff
    search are enough for it. *)
Lemma create_metric_returns (value_leb : Violin.ValueT -> Violin.ValueT -> bool)
  (config : Violin.Config) (extra : nat) (dt_column : Violin.ColumnMeta)
  (value_by_sample : Violin.ValueBySample) :
  Violin.violin_downsample_after config <> Some 0 ->
  exists m,
    Violin.create_metric value_leb config (6 + extra) dt_column
      value_by_sample = Ok m.
Proof.
  intros Hcap. unfold Violin.create_metric.
  destruct value_by_sample as [|sv0 rest]; [eexists; reflexivity|].
  destruct (Violin.current_series (sv0 :: rest)) as [|d series'] eqn:Hs;
    [eexists; reflexivity|].
  set (series := d :: series') in *.
  cbv zeta.
  cbn [Violin.dmin Violin.dmax Violin.xaxis Violin.title Violin.suffix
       Violin.hidden Violin.ticksuffix].
  match goal with
  | |- exists m, bind ?sc _ = _ =>
      assert (Hsc : exists scatter, sc = Ok scatter)
  end.
  { destruct (negb (_ <=? _)); [eexists; reflexivity|].
    destruct (negb (_ <? _)); [eexists; reflexivity|].
    destruct (negb (forallb _ _)); [eexists; reflexivity|].
    destruct (find_outliers_default_returns extra
                (map (fun sv => Violin.to_float (snd sv)) series) None
                (Violin.cm_dmin dt_column) (Violin.cm_dmax dt_column))
      as [mask Hmask].
    rewrite Hmask. simpl.
    pose proof (find_outliers_length_bounds _ _ _ _ _ _ _ Hmask) as [Hlen _].
    rewrite length_map in Hlen.
    rewrite select_outliers_flagged by exact Hlen.
    eexists; reflexivity. }
  destruct Hsc as [scatter ->]. simpl.
  assert (Hvi : exists violin,
            Violin.rank_downsample value_leb
              (Violin.violin_downsample_after config) series = Ok violin).
  { destruct (Violin.violin_downsample_after config) as [cap|];
      [|eexists; reflexivity].
    destruct (Nat.le_gt_cases (length series) cap) as [Hle | Hgt].
    - rewrite rank_downsample_small by exact Hle. eexists; reflexivity.
    - rewrite (rank_downsample_large value_leb cap series d).
      + eexists; reflexivity.
      + destruct cap; [congruence | lia].
      + exact Hgt. }
  destruct Hvi as [violin ->]. simpl. eexists; reflexivity.
Qed.

(** ** Bar datasets: assembly *)

Lemma mapM_ok_Forall2 {A B : Type} (f : A -> result B) (l : list A)
  (out : list B) :
  mapM f l = Ok out -> Forall2 (fun x y => f x = Ok y) l out.
Proof.
  revert out. induction l as [|x t IH]; intros out; simpl.
  - intros [= <-]. constructor.
  - destruct (f x) as [y| |] eqn:Hx; simpl; try discriminate.
    destruct (mapM f t) as [ys| |]; simpl; try discriminate.
    intros [= <-]. constructor; auto.
Qed.

Lemma combine_app_same_length {A B : Type} (l1 l1' : list A)
  (l2 l2' : list B) :
  length l1 = length l2 ->
  combine (l1 ++ l1') (l2 ++ l2') = combine l1 l2 ++ combine l1' l2'.
Proof.
  revert l2. induction l1 as [|x t IH]; intros [|y u] H; simpl in *;
    try discriminate; [reflexivity|].
  f_equal. apply IH. lia.
Qed.

(** Reversing two lists of one length reverses their pairs. *)
Lemma combine_rev {A B : Type} (l1 : list A) (l2 : list B) :
  length l1 = length l2 ->
  combine (rev l1) (rev l2) = rev (combine l1 l2).
Proof.
  revert l2. induction l1 as [|x t IH]; intros [|y u] H; simpl in *;
    try discriminate; [reflexivity|].
  rewrite combine_app_same_length by (rewrite !length_rev; lia).
  rewrite IH by lia. reflexivity.
Qed.

Section BarCreate.

Import Bar.

Variable split_long_string : string -> list string.
Variable html_rgb : string -> string.

(** What [create_category] checks and returns. *)
Lemma create_category_ok (samples : list string) (input_cat : CatDataDict)
  (cat : Category) :
  create_category split_long_string html_rgb samples input_cat = Ok cat ->
  cd_name input_cat <> None
  /\ data cat = rev (cd_data input_cat)
  /\ length (cd_data input_cat) = length samples
  /\ match cd_data_pct input_cat with
     | Some pct =>
         data_pct cat = rev pct
         /\ (pct = [] \/ length pct = length samples)
     | None => data_pct cat = []
     end.
Proof.
  unfold create_category.
  destruct (cd_name input_cat) as [n|]; [|discriminate].
  cbn [data data_pct].
  destruct (length samples =? length (rev (cd_data input_cat))) eqn:Hlen;
    [|discriminate].
  apply Nat.eqb_eq in Hlen. rewrite length_rev in Hlen. simpl.
  destruct (cd_data_pct input_cat) as [pct|].
  - destruct (rev pct) as [|p ps] eqn:Hrev.
    + intros [= <-]. simpl. repeat split; auto; try congruence.
      left. apply (f_equal (@rev _)) in Hrev.
      now rewrite rev_involutive in Hrev.
    + destruct (length samples =? length (p :: ps)) eqn:Hlen';
        [|discriminate].
      apply Nat.eqb_eq in Hlen'. rewrite <- Hrev, length_rev in Hlen'.
      simpl. intros [= <-]. simpl. repeat split; auto; congruence.
  - intros [= <-]. simpl. repeat split; auto; congruence.
Qed.

(** A category whose data has not one value per sample is refused. *)
Lemma create_category_length_mismatch (samples : list string)
  (input_cat : CatDataDict) :
  length (cd_data input_cat) <> length samples ->
  create_category split_long_string html_rgb samples input_cat
  = Raise (match cd_name input_cat with
           | Some _ => AssertionError
           | None => ValueError
           end).
Proof.
  intros H. unfold create_category.
  destruct (cd_name input_cat); [|reflexivity].
  cbn [data]. rewrite length_rev.
  destruct (length samples =? length (cd_data input_cat)) eqn:Hlen;
    [|reflexivity].
  apply Nat.eqb_eq in Hlen. congruence.
Qed.

Lemma create_category_raises_or_returns (samples : list string)
  (input_cat : CatDataDict) :
  create_category split_long_string html_rgb samples input_cat <> Timeout.
Proof.
  unfold create_category.
  destruct (cd_name input_cat); [|discriminate].
  destruct (negb _); [discriminate|].
  destruct (data_pct _); [discriminate|].
  destruct (negb _); discriminate.
Qed.

End BarCreate.

Section BarAssembly.

Import Bar.

Variable split_long_string : string -> list string.
Variable html_rgb : string -> string.

(** C10: assembly reverses the samples and each category's values
    together.  For every category, pairing the assembled samples with the
    assembled data (and with the percentages, when the input has them)
    gives the pairs of the input, in reverse order; position [i] of the
    assembled lists holds what position [n - 1 - i] of the input lists
    held. *)
Theorem create_keeps_sample_value_pairs (input_cats : list CatDataDict)
  (input_samples : list string) (dataset : Dataset) :
  create split_long_string html_rgb input_cats input_samples = Ok dataset ->
  samples dataset = rev input_samples
  /\ Forall2
       (fun input_cat cat =>
          combine (samples dataset) (data cat)
          = rev (combine input_samples (cd_data input_cat))
          /\ (forall pct,
                cd_data_pct input_cat = Some pct ->
                combine (samples dataset) (data_pct cat)
                = rev (combine input_samples pct))
          /\ (forall i,
                i < length input_samples ->
                nth_error (samples dataset) i
                = nth_error input_samples (length input_samples - S i)
                /\ nth_error (data cat) i
                   = nth_error (cd_data input_cat)
                       (length input_samples - S i)))
       input_cats (cats dataset).
Proof.
  unfold create.
  destruct (mapM _ input_cats) as [fixed| |] eqn:Hcats; simpl;
    try discriminate.
  intros [= <-]. cbn [samples cats]. split; [reflexivity|].
  apply mapM_ok_Forall2 in Hcats.
  eapply Forall2_impl; [|exact Hcats].
  intros input_cat cat Hcat. cbv beta in Hcat.
  apply create_category_ok in Hcat
    as (_ & Hdata & Hlen & Hpct).
  rewrite length_rev in Hlen.
  split; [|split].
  - rewrite Hdata. apply combine_rev. congruence.
  - intros pct Hsome. rewrite Hsome in Hpct.
    destruct Hpct as [-> [-> | Hlen']].
    + simpl. now rewrite !combine_nil.
    + apply combine_rev. rewrite length_rev in Hlen'. congruence.
  - intros i Hi. rewrite Hdata, !nth_error_rev, Hlen.
    now rewrite (proj2 (Nat.ltb_lt _ _) Hi).
Qed.

(** Padding in isolation: afterwards every category has at least one
    value per sample, and one that had fewer has exactly one per
    sample. *)
Lemma expand_with_zeroes_lengths (dataset : Dataset) :
  samples (expand_with_zeroes dataset) = samples dataset
  /\ Forall2
       (fun cat cat' =>
          length (data cat') = Nat.max (length (data cat))
                                 (length (samples dataset))
          /\ firstn (length (data cat)) (data cat') = data cat)
       (cats dataset) (cats (expand_with_zeroes dataset)).
Proof.
  split; [reflexivity|]. unfold expand_with_zeroes. cbn [cats].
  induction (cats dataset) as [|cat t IH]; simpl; constructor; auto.
  destruct (length (data cat) <? length (samples dataset)) eqn:Hlt.
  - apply Nat.ltb_lt in Hlt. cbn [set_data data]. split.
    + rewrite length_app, repeat_length. lia.
    + rewrite firstn_app, Nat.sub_diag, firstn_all. simpl.
      apply app_nil_r.
  - apply Nat.ltb_ge in Hlt. split; [lia | apply firstn_all].
Qed.

(** Padding leaves a dataset whose categories have one value per sample
    as it is. *)
Lemma expand_with_zeroes_same_length (dataset : Dataset) :
  Forall (fun cat => length (data cat) = length (samples dataset))
    (cats dataset) ->
  expand_with_zeroes dataset = dataset.
Proof.
  intros H. unfold expand_with_zeroes. destruct dataset as [cs ss pm].
  cbn [cats samples pct_range_min] in *. f_equal.
  induction H as [|cat t Hcat _ IH]; simpl; [reflexivity|].
  rewrite IH. rewrite Hcat, Nat.ltb_irrefl. reflexivity.
Qed.

Lemma create_lengths (input_cats : list CatDataDict)
  (input_samples : list string) (dataset : Dataset) :
  create split_long_string html_rgb input_cats input_samples = Ok dataset ->
  Forall (fun cat => length (data cat) = length (samples dataset))
    (cats dataset)
  /\ Forall (fun c => length (cd_data c) = length input_samples) input_cats.
Proof.
  unfold create.
  destruct (mapM _ input_cats) as [fixed| |] eqn:Hcats; simpl;
    try discriminate.
  intros [= <-]. cbn [samples cats].
  apply mapM_ok_Forall2 in Hcats.
  induction Hcats as [|c cat cs fixed' Hc _ IH].
  - split; constructor.
  - destruct IH as [IH1 IH2].
    apply create_category_ok in Hc as (_ & Hdata & Hlen & _).
    rewrite length_rev in Hlen.
    split; constructor; auto.
    rewrite Hdata, !length_rev. congruence.
Qed.

(** C8, as the code has it: assembly returns only when every category
    has one value per sample, so the padding that follows changes
    nothing; a category with fewer (or more) values makes assembly raise,
    an assertion error when every category has a name. *)
Theorem create_refuses_short_categories (input_cats : list CatDataDict)
  (input_samples : list string) :
  (forall dataset,
     create split_long_string html_rgb input_cats input_samples
     = Ok dataset ->
     Forall (fun cat => length (data cat) = length (samples dataset))
       (cats dataset)
     /\ Forall (fun c => length (cd_data c) = length input_samples)
          input_cats
     /\ expand_with_zeroes dataset = dataset)
  /\ (Exists (fun c => length (cd_data c) <> length input_samples)
        input_cats ->
      exists e,
        create split_long_string html_rgb input_cats input_samples
        = Raise e
        /\ (Forall (fun c => cd_name c <> None) input_cats ->
            e = AssertionError)).
Proof.
  split.
  - intros dataset Hrun.
    destruct (create_lengths _ _ _ Hrun) as [H1 H2].
    repeat split; auto. now apply expand_with_zeroes_same_length.
  - intros Hex. unfold create.
    induction Hex as [c cs Hc | c cs Hcs IH]; cbn [mapM].
    + rewrite create_category_length_mismatch
        by (rewrite length_rev; exact Hc).
      simpl. eexists. split; [reflexivity|].
      intros Hnames. inversion Hnames as [|? ? Hn _]; subst.
      destruct (cd_name c); congruence.
    + destruct (create_category _ _ _ c) as [cat|e|] eqn:Hcat.
      * cbn [bind] in *.
        destruct IH as (e & Hrun & He).
        destruct (mapM _ cs) as [fixed| |]; simpl in Hrun |- *;
          try discriminate.
        injection Hrun as <-. eexists. split; [reflexivity|].
        intros Hnames. inversion Hnames; subst. auto.
      * simpl. eexists. split; [reflexivity|].
        intros Hnames. inversion Hnames as [|? ? Hn _]; subst.
        unfold create_category in Hcat.
        destruct (cd_name c); [|congruence].
        destruct (negb _); [congruence|].
        destruct (data_pct _); [discriminate|].
        destruct (negb _); [congruence | discriminate].
      * exfalso. now apply create_category_raises_or_returns in Hcat.
Qed.

End BarAssembly.

Lemma create_keeps_sample_value_pairs_witness :
  Bar.samples Examples.assembled_XY = rev Examples.two_samples
  /\ Forall2
       (fun input_cat cat =>
          combine (Bar.samples Examples.assembled_XY) (Bar.data cat)
          = rev (combine Examples.two_samples (Bar.cd_data input_cat))
          /\ (forall pct,
                Bar.cd_data_pct input_cat = Some pct ->
                combine (Bar.samples Examples.assembled_XY) (Bar.data_pct cat)
                = rev (combine Examples.two_samples pct))
          /\ (forall i,
                i < length Examples.two_samples ->
                nth_error (Bar.samples Examples.assembled_XY) i
                = nth_error Examples.two_samples
                    (length Examples.two_samples - S i)
                /\ nth_error (Bar.data cat) i
                   = nth_error (Bar.cd_data input_cat)
                       (length Examples.two_samples - S i)))
       [Examples.cat_X; Examples.cat_Y] (Bar.cats Examples.assembled_XY).
Proof.
  apply (create_keeps_sample_value_pairs Examples.keep_name
           Examples.keep_color [Examples.cat_X; Examples.cat_Y]
           Examples.two_samples Examples.assembled_XY).
  reflexivity.
Defined.

(** C8 as stated fails: a category with one value for two samples is
    not padded; assembly raises an assertion error, in [Dataset.create]
    and so in [BarPlot.create], with or without the percentage tab. *)
Lemma short_category_is_not_padded :
  Bar.create Examples.keep_name Examples.keep_color
    [Examples.cat_X; Examples.cat_short] Examples.two_samples
  = Raise AssertionError
  /\ (forall py_sum stacking add_pct_tab,
        Bar.assemble Examples.keep_name Examples.keep_color py_sum stacking
          add_pct_tab [Examples.cat_X; Examples.cat_short]
          Examples.two_samples
        = Raise AssertionError)
  /\ ~ (exists py_sum dataset,
          Bar.assemble Examples.keep_name Examples.keep_color py_sum
            (Some Bar.StackRelative) false
            [Examples.cat_X; Examples.cat_short] Examples.two_samples
          = Ok dataset
          /\ Forall (fun cat => length (Bar.data cat)
                                = length (Bar.samples dataset))
               (Bar.cats dataset)).
Proof.
  split; [reflexivity|]. split; [reflexivity|].
  intros (py_sum & dataset & H & _). discriminate H.
Qed.

(** ** Bar datasets: the percentage pass *)

Lemma nth_error_combine {A B : Type} (l1 : list A) (l2 : list B) (i : nat) :
  nth_error (combine l1 l2) i
  = match nth_error l1 i, nth_error l2 i with
    | Some a, Some b => Some (a, b)
    | _, _ => None
    end.
Proof.
  revert l2 i. induction l1 as [|a t IH]; intros [|b u] [|i]; simpl; auto.
  destruct (nth_error t i); reflexivity.
Qed.

Lemma mapM_ok_exists {A B : Type} (f : A -> result B) (l : list A) :
  (forall x, In x l -> exists y, f x = Ok y) ->
  exists out, mapM f l = Ok out /\ length out = length l.
Proof.
  induction l as [|x t IH]; intros H; simpl.
  - exists []. auto.
  - destruct (H x) as [y Hy]; [now left|].
    destruct IH as (ys & Hys & Hlen); [intros z Hz; apply H; now right|].
    rewrite Hy, Hys. simpl. exists (y :: ys). simpl. auto.
Qed.

Section PercentagePass.

Import Bar.

Local Open Scope float_scope.

Variable py_sum : list float -> float.

Lemma add_abs_ok (data : list float) :
  forall sums,
    length data = length sums ->
    add_abs sums data
    = Ok (map (fun sv => if is_nan (snd sv) then fst sv
                         else fst sv + abs (snd sv))
            (combine sums data)).
Proof.
  induction data as [|val t IH]; intros [|s sums] H; simpl in H;
    try discriminate; [reflexivity|].
  simpl. rewrite IH by lia. reflexivity.
Qed.

(** The guard [sum_for_sample == 0] keeps the division from raising. *)
Lemma percentage_returns (val sum_for_sample : float) :
  percentage val sum_for_sample
  = Ok (if sum_for_sample =? 0 then 0
        else (val + 0) / sum_for_sample * 100).
Proof.
  unfold percentage, py_div.
  destruct (sum_for_sample =? 0); reflexivity.
Qed.

Lemma percentages_ok (values : list float) :
  forall sums,
    length values = length sums ->
    percentages sums values
    = Ok (map (fun vs => if snd vs =? 0 then 0
                         else (fst vs + 0) / snd vs * 100)
            (combine values sums)).
Proof.
  induction values as [|val t IH]; intros [|s sums] H; simpl in H;
    try discriminate; [reflexivity|].
  cbn [percentages]. rewrite percentage_returns. cbn [bind].
  rewrite IH by lia. reflexivity.
Qed.

(** Adding the categories one after the other into [sums] adds, at every
    sample index, their entries at that index. *)
Lemma add_all_categories (cats : list Category) :
  forall sums0,
    Forall (fun cat => length (data cat) = length sums0) cats ->
    exists sums,
      foldM (fun sums cat => add_abs sums (data cat)) cats sums0 = Ok sums
      /\ length sums = length sums0
      /\ forall i,
           nth_error sums i
           = option_map (fold_left (add_entry data i) cats)
               (nth_error sums0 i).
Proof.
  induction cats as [|cat t IH]; intros sums0 Hlen.
  - exists sums0. simpl. repeat split; auto.
    intros i. now destruct (nth_error sums0 i).
  - inversion Hlen as [|? ? Hcat Ht]; subst.
    cbn [foldM]. rewrite add_abs_ok by exact Hcat. cbn [bind].
    set (sums1 := map _ (combine sums0 (data cat))).
    assert (Hlen1 : length sums1 = length sums0).
    { unfold sums1. rewrite length_map, length_combine. lia. }
    destruct (IH sums1) as (sums & Hrun & Hl & Hnth).
    { rewrite Hlen1. exact Ht. }
    exists sums. split; [exact Hrun|]. split; [congruence|].
    intros i. rewrite Hnth. unfold sums1.
    rewrite nth_error_map, nth_error_combine.
    destruct (nth_error sums0 i) as [s|] eqn:Hs; [|reflexivity].
    destruct (nth_error (data cat) i) as [val|] eqn:Hv.
    { cbn [option_map fst snd fold_left]. do 2 f_equal.
      unfold add_entry. now rewrite Hv. }
    exfalso. apply nth_error_None in Hv.
    assert (i < length sums0)%nat by (apply nth_error_Some; congruence).
    lia.
Qed.

(** [count_totals] computes the totals of the absolute values. *)
Lemma count_totals_ok (cats : list Category) (n : nat) :
  cats <> [] ->
  Forall (fun cat => length (data cat) = n) cats ->
  exists sums,
    count_totals cats = Ok sums
    /\ length sums = n
    /\ forall i, (i < n)%nat ->
                 nth_error sums i = Some (abs_total data cats i).
Proof.
  intros Hne Hlen. unfold count_totals.
  destruct cats as [|first rest]; [congruence|].
  assert (Hfirst : length (data first) = n) by now inversion Hlen.
  destruct (add_all_categories (first :: rest)
              (map (fun _ => 0) (data first)))
    as (sums & Hrun & Hl & Hnth).
  { rewrite length_map, Hfirst. exact Hlen. }
  exists sums. split; [exact Hrun|].
  rewrite length_map, Hfirst in Hl. split; [exact Hl|].
  intros i Hi. rewrite Hnth, nth_error_map.
  destruct (nth_error (data first) i) eqn:Hv; [reflexivity|].
  apply nth_error_None in Hv. lia.
Qed.

Lemma range_min_ok (barmode : Barmode) (field : Category -> list float)
  (dataset : Dataset) :
  cats dataset <> [] -> samples dataset <> [] ->
  Forall (fun cat => length (field cat) = length (samples dataset))
    (cats dataset) ->
  exists m, range_min py_sum barmode field dataset = Ok m.
Proof.
  intros Hcats Hsamples Hlen. unfold range_min.
  destruct (mapM_ok_exists
              (fun i =>
                 column <- column_at field (cats dataset) i ;;
                 if is_group barmode then py_min column
                 else Ok (sum_negative py_sum column))
              (seq 0 (length (samples dataset))))
    as (per_sample & -> & Hps).
  - intros i Hi. apply in_seq in Hi.
    destruct (mapM_ok_exists (fun cat => getitem (field cat) i)
                (cats dataset)) as (column & Hcol & Hcl).
    + intros cat Hcat. rewrite Forall_forall in Hlen.
      specialize (Hlen cat Hcat).
      destruct (nth_error (field cat) i) as [v|] eqn:Hv.
      * exists v. now apply getitem_nth_error.
      * apply nth_error_None in Hv. lia.
    + unfold column_at. rewrite Hcol. simpl.
      destruct (is_group barmode); [|eexists; reflexivity].
      destruct column as [|c0 cs]; [|eexists; reflexivity].
      destruct (cats dataset); [congruence | discriminate].
  - simpl. rewrite length_seq in Hps.
    destruct per_sample as [|p ps]; [|eexists; reflexivity].
    destruct (samples dataset); [congruence | discriminate].
Qed.

Lemma Forall2_map_right {A B : Type} (R : A -> B -> Prop) (h : A -> B)
  (l : list A) :
  (forall x, In x l -> R x (h x)) -> Forall2 R l (map h l).
Proof.
  induction l as [|x t IH]; intros H; simpl; constructor.
  - apply H. now left.
  - apply IH. intros y Hy. apply H. now right.
Qed.

(** The percentage pass returns, and every percentage is computed from
    the entry and the total of its sample index. *)
Lemma percentage_pass_ok (barmode : Barmode) (dataset : Dataset) :
  cats dataset <> [] -> samples dataset <> [] ->
  Forall (fun cat => length (data cat) = length (samples dataset))
    (cats dataset) ->
  exists dataset',
    percentage_pass py_sum barmode dataset = Ok dataset'
    /\ samples dataset' = samples dataset
    /\ Forall2
         (fun cat cat' =>
            name cat' = name cat /\ data cat' = data cat
            /\ forall i,
                 nth_error (data_pct cat') i
                 = option_map
                     (fun val =>
                        let denominator :=
                          abs_total data (cats dataset) i in
                        if denominator =? 0 then 0
                        else (val + 0) / denominator * 100)
                     (nth_error (data cat) i))
         (cats dataset) (cats dataset').
Proof.
  intros Hcats Hsamples Hlen. unfold percentage_pass.
  destruct (count_totals_ok _ _ Hcats Hlen) as (sums & -> & Hsl & Hsums).
  cbn [bind].
  set (h := fun cat =>
              set_data_pct cat
                (map (fun vs => if snd vs =? 0 then 0
                                else (fst vs + 0) / snd vs * 100)
                   (combine (data cat) sums))).
  rewrite (mapM_ok_map _ h).
  2:{ intros cat Hcat. rewrite Forall_forall in Hlen.
      rewrite percentages_ok by (rewrite Hsl; now apply Hlen).
      reflexivity. }
  cbn [bind].
  destruct (range_min_ok barmode data_pct
              {| cats := map h (cats dataset); samples := samples dataset;
                 pct_range_min := pct_range_min dataset |})
    as [m Hm]; cbn [cats samples].
  - destruct (cats dataset); [congruence | discriminate].
  - exact Hsamples.
  - apply Forall_map. rewrite Forall_forall in Hlen |- *.
    intros cat Hcat. unfold h. cbn [data_pct set_data_pct].
    rewrite length_map, length_combine, Hsl, (Hlen cat Hcat). lia.
  - rewrite Hm. cbn [bind]. eexists. split; [reflexivity|].
    cbn [samples cats]. split; [reflexivity|].
    apply Forall2_map_right. intros cat Hcat.
    unfold h. cbn [name data data_pct set_data_pct].
    repeat split.
    intros i. rewrite nth_error_map, nth_error_combine.
    rewrite Forall_forall in Hlen. specialize (Hlen cat Hcat).
    destruct (nth_error (data cat) i) as [val|] eqn:Hv; [|reflexivity].
    assert (Hi : (i < length (samples dataset))%nat)
      by (rewrite <- Hlen; apply nth_error_Some; congruence).
    rewrite (Hsums i Hi). reflexivity.
Qed.

End PercentagePass.

Lemma Forall2_and_left {A B : Type} (R : A -> B -> Prop) (P : A -> Prop)
  (l : list A) (l' : list B) :
  Forall2 R l l' -> Forall P l -> Forall2 (fun x y => R x y /\ P x) l l'.
Proof.
  induction 1 as [|x y t t' Hxy _ IH]; intros HP; constructor.
  - split; [exact Hxy | now inversion HP].
  - apply IH. now inversion HP.
Qed.

Lemma Forall2_Forall_right {A B : Type} (P : B -> Prop)
  (l : list A) (l' : list B) :
  Forall2 (fun _ y => P y) l l' -> Forall P l'.
Proof. induction 1; constructor; auto. Qed.

(** C3, as the code has it: the percentage pass over a dataset with at
    least one category and one sample, each category holding one value
    per sample, whatever the stacking mode and however Python's [sum]
    adds.  The pass returns, so no division raises.  At every sample
    index the denominator is the float64 sum, added up in the order of
    the categories, of the absolute values of the entries that are not
    NaN.  Where it is zero every percentage is 0; elsewhere a
    category's percentage is the float64 value of
    [(value + 0.0) / denominator * 100.0].  Categories X = [1, 1] and
    Y = [1, 3] over the samples s1 and s2 give s1: X = 50, Y = 50 and
    s2: X = 25, Y = 75 (however [sum] adds), which add up to 100 at
    both samples. *)
Theorem percentages_of_each_sample :
  (forall (py_sum : list float -> float) (barmode : Bar.Barmode)
          (dataset : Bar.Dataset),
     Bar.cats dataset <> [] -> Bar.samples dataset <> [] ->
     Forall (fun cat => length (Bar.data cat)
                        = length (Bar.samples dataset))
       (Bar.cats dataset) ->
     exists sums dataset',
       Bar.count_totals (Bar.cats dataset) = Ok sums
       /\ Bar.percentage_pass py_sum barmode dataset = Ok dataset'
       /\ Bar.samples dataset' = Bar.samples dataset
       /\ Forall2 (fun cat cat' => Bar.name cat' = Bar.name cat
                                   /\ Bar.data cat' = Bar.data cat)
            (Bar.cats dataset) (Bar.cats dataset')
       /\ forall i,
            i < length (Bar.samples dataset) ->
            let denominator :=
              fold_left
                (fun acc cat =>
                   match nth_error (Bar.data cat) i with
                   | Some val =>
                       if is_nan val then acc else (acc + abs val)%float
                   | None => acc
                   end)
                (Bar.cats dataset) 0%float in
            nth_error sums i = Some denominator
            /\ ((denominator =? 0)%float = true ->
                Forall (fun cat' => nth_error (Bar.data_pct cat') i
                                    = Some 0%float)
                  (Bar.cats dataset'))
            /\ ((denominator =? 0)%float = false ->
                Forall2
                  (fun cat cat' =>
                     exists val,
                       nth_error (Bar.data cat) i = Some val
                       /\ nth_error (Bar.data_pct cat') i
                          = Some ((val + 0) / denominator * 100)%float)
                  (Bar.cats dataset) (Bar.cats dataset')))
  /\ Bar.assemble Examples.keep_name Examples.keep_color
       Examples.sum_from_left (Some Bar.StackRelative) true
       [Examples.cat_X; Examples.cat_Y] Examples.two_samples
     = Ok Examples.percent_XY
  /\ (forall py_sum : list float -> float,
        exists dataset',
          Bar.assemble Examples.keep_name Examples.keep_color py_sum
            (Some Bar.StackRelative) true
            [Examples.cat_X; Examples.cat_Y] Examples.two_samples
          = Ok dataset'
          /\ Bar.samples dataset' = Bar.samples Examples.percent_XY
          /\ Bar.cats dataset' = Bar.cats Examples.percent_XY)
  /\ Bar.abs_total Bar.data_pct (Bar.cats Examples.percent_XY) 0
     = 100%float
  /\ Bar.abs_total Bar.data_pct (Bar.cats Examples.percent_XY) 1
     = 100%float.
Proof.
  split;
    [|split; [reflexivity|];
      split; [intros py_sum; eexists; split; [lazy; reflexivity|];
              split; reflexivity
             | split; reflexivity]].
  intros py_sum barmode dataset Hcats Hsamples Hlen.
  destruct (count_totals_ok _ _ Hcats Hlen) as (sums & Hsums & _ & Hnth).
  destruct (percentage_pass_ok py_sum barmode dataset Hcats Hsamples Hlen)
    as (dataset' & Hrun & Hs & Hrel).
  exists sums, dataset'.
  split; [exact Hsums|]. split; [exact Hrun|]. split; [exact Hs|]. split.
  { eapply Forall2_impl; [|exact Hrel].
    intros cat cat' (Hn & Hd & _). split; assumption. }
  intros i Hi denominator.
  change denominator with (Bar.abs_total Bar.data (Bar.cats dataset) i).
  split; [now apply Hnth|].
  assert (Hentry : Forall2
            (fun cat cat' =>
               exists val,
                 nth_error (Bar.data cat) i = Some val
                 /\ nth_error (Bar.data_pct cat') i
                    = Some (if (Bar.abs_total Bar.data (Bar.cats dataset) i
                                =? 0)%float
                            then 0%float
                            else ((val + 0)
                                  / Bar.abs_total Bar.data
                                      (Bar.cats dataset) i * 100)%float))
            (Bar.cats dataset) (Bar.cats dataset')).
  { eapply Forall2_impl;
      [|apply (Forall2_and_left _ _ _ _ Hrel Hlen)].
    intros cat cat' [(_ & _ & Hpct) Hl].
    destruct (nth_error (Bar.data cat) i) as [val|] eqn:Hv.
    - exists val. split; [reflexivity|]. rewrite Hpct, Hv. reflexivity.
    - apply nth_error_None in Hv. lia. }
  split; intros Hden; rewrite Hden in Hentry.
  - apply (Forall2_Forall_right _ (Bar.cats dataset)).
    eapply Forall2_impl; [|exact Hentry].
    intros cat cat' (val & _ & Hpct). exact Hpct.
  - exact Hentry.
Qed.

(** C3 as stated fails: the percentages are float64 values and need not
    add up to 100.  Three categories of value 1 get 33.333333333333329
    each, 99.999999999999986 in total; and two categories of value
    1e308 have the denominator infinity and get 0 each. *)
Lemma equal_thirds_do_not_add_up_to_100 :
  let one (n : string) (v : float) :=
    {| Bar.name := n; Bar.color := "#000000"%string;
       Bar.data := [v]; Bar.data_pct := [] |} in
  let with_pct (n : string) (v p : float) :=
    {| Bar.name := n; Bar.color := "#000000"%string;
       Bar.data := [v]; Bar.data_pct := [p] |} in
  let dataset (cats : list Bar.Category) (m : option float) :=
    {| Bar.cats := cats; Bar.samples := ["s"%string];
       Bar.pct_range_min := m |} in
  let third := 33.333333333333329%float in
  let thirds :=
    [with_pct "A"%string 1%float third; with_pct "B"%string 1%float third;
     with_pct "C"%string 1%float third] in
  let huge :=
    [with_pct "A"%string 1e308%float 0%float;
     with_pct "B"%string 1e308%float 0%float] in
  (forall (py_sum : list float -> float) (barmode : Bar.Barmode),
     exists m,
       Bar.percentage_pass py_sum barmode
         (dataset [one "A"%string 1%float; one "B"%string 1%float;
                   one "C"%string 1%float] None)
       = Ok (dataset thirds (Some m)))
  /\ Bar.percentage_pass Examples.sum_from_left Bar.Relative
       (dataset [one "A"%string 1%float; one "B"%string 1%float;
                 one "C"%string 1%float] None)
     = Ok (dataset thirds (Some 0%float))
  /\ Bar.abs_total Bar.data_pct thirds 0 = 99.999999999999986%float
  /\ (Bar.abs_total Bar.data_pct thirds 0 =? 100)%float = false
  /\ (forall (py_sum : list float -> float) (barmode : Bar.Barmode),
        exists m,
          Bar.percentage_pass py_sum barmode
            (dataset [one "A"%string 1e308%float;
                      one "B"%string 1e308%float] None)
          = Ok (dataset huge (Some m)))
  /\ Bar.abs_total Bar.data
       [one "A"%string 1e308%float; one "B"%string 1e308%float] 0
     = infinity
  /\ Bar.abs_total Bar.data_pct huge 0 = 0%float.
Proof.
  repeat split; try reflexivity;
    intros py_sum [| |]; eexists; lazy; reflexivity.
Qed.

(** * Further properties *)

(** ** The order of binary64 values *)

Section FloatOrder.

Local Open Scope float_scope.

Lemma SFleb_trans (a b c : spec_float) :
  SFleb a b = true -> SFleb b c = true -> SFleb a c = true.
Proof.
  unfold SFleb.
  destruct a as [sa|sa| |sa ma ea], b as [sb|sb| |sb mb eb],
    c as [sc|sc| |sc mc ec]; simpl;
    try discriminate; try reflexivity;
    repeat match goal with s : bool |- _ => destruct s end;
    simpl; try discriminate; try reflexivity;
    change (Pos.compare_cont Eq ?x ?y) with (Pos.compare x y) in *;
    repeat match goal with
           | |- context [Z.compare ?x ?y] => destruct (Z.compare_spec x y)
           | |- context [Pos.compare ?x ?y] => destruct (Pos.compare_spec x y)
           end; simpl; try discriminate; try reflexivity;
    intros; exfalso; lia.
Qed.

Lemma SFleb_total (a b : spec_float) :
  a <> S754_nan -> b <> S754_nan -> SFleb a b = true \/ SFleb b a = true.
Proof.
  unfold SFleb.
  destruct a as [sa|sa| |sa ma ea], b as [sb|sb| |sb mb eb]; simpl;
    try congruence;
    repeat match goal with s : bool |- _ => destruct s end;
    simpl; auto;
    change (Pos.compare_cont Eq ?x ?y) with (Pos.compare x y) in *;
    repeat match goal with
           | |- context [Z.compare ?x ?y] => destruct (Z.compare_spec x y)
           | |- context [Pos.compare ?x ?y] => destruct (Pos.compare_spec x y)
           end; simpl; auto; intros; exfalso; lia.
Qed.

Lemma SFltb_SFleb (a b : spec_float) :
  a <> S754_nan -> b <> S754_nan -> SFltb a b = negb (SFleb b a).
Proof.
  unfold SFltb, SFleb.
  destruct a as [sa|sa| |sa ma ea], b as [sb|sb| |sb mb eb]; simpl;
    try congruence;
    repeat match goal with s : bool |- _ => destruct s end;
    simpl; auto;
    change (Pos.compare_cont Eq ?x ?y) with (Pos.compare x y) in *;
    rewrite ?(Z.compare_antisym ea eb), ?(Pos.compare_antisym ma mb);
    intros _ _; destruct (Z.compare ea eb); simpl; auto;
    destruct (Pos.compare ma mb); reflexivity.
Qed.

Lemma not_nan_spec (x : float) : is_nan x = false -> Prim2SF x <> S754_nan.
Proof.
  unfold is_nan. rewrite FloatAxioms.eqb_spec. intros H E.
  rewrite E in H. discriminate H.
Qed.

Lemma isfinite_not_nan (x : float) : Np.isfinite x = true -> is_nan x = false.
Proof.
  unfold Np.isfinite. intros H. apply negb_true_iff in H.
  now apply orb_false_iff in H.
Qed.

(** [<=] on binary64 is transitive, and total on values that are not
    NaN, where [a < b] is the negation of [b <= a]. *)
Lemma float_leb_trans (a b c : float) :
  (a <=? b) = true -> (b <=? c) = true -> (a <=? c) = true.
Proof. rewrite !FloatAxioms.leb_spec. apply SFleb_trans. Qed.

Lemma float_leb_total (a b : float) :
  is_nan a = false -> is_nan b = false ->
  (a <=? b) = true \/ (b <=? a) = true.
Proof.
  intros Ha Hb. rewrite !FloatAxioms.leb_spec.
  apply SFleb_total; now apply not_nan_spec.
Qed.

Lemma float_ltb_leb (a b : float) :
  is_nan a = false -> is_nan b = false -> (a <? b) = negb (b <=? a).
Proof.
  intros Ha Hb. rewrite FloatAxioms.ltb_spec, FloatAxioms.leb_spec.
  apply SFltb_SFleb; now apply not_nan_spec.
Qed.

Lemma float_leb_refl (a : float) : is_nan a = false -> (a <=? a) = true.
Proof. intros Ha. now destruct (float_leb_total a a Ha Ha). Qed.

End FloatOrder.

(** ** [find_outliers]: which values are flagged *)

Section FindOutliersFlags.

Local Open Scope float_scope.

Lemma set_at_app (pre : list bool) (b : bool) (rest : list bool) :
  Np.set_at (length pre) (pre ++ b :: rest) = pre ++ true :: rest.
Proof. induction pre as [|p t IH]; simpl; [reflexivity | now rewrite IH]. Qed.

(** Setting the positions above a cutoff in an all-false mask gives the
    mask of the comparison. *)
Lemma set_true_where_gt_from (c : float) (zs : list float) :
  forall pre,
    Np.set_true (Np.where_gt_from (length pre) zs c)
      (pre ++ Np.zeros (length zs))
    = pre ++ map (fun z => c <? z) zs.
Proof.
  unfold Np.set_true, Np.zeros.
  induction zs as [|z t IH]; intros pre; [reflexivity|].
  cbn [Np.where_gt_from length repeat map].
  specialize (IH (pre ++ [c <? z])).
  rewrite length_app, Nat.add_1_r, <- !app_assoc in IH. cbn [app] in IH.
  destruct (c <? z); cbn [fold_left].
  - rewrite set_at_app. exact IH.
  - exact IH.
Qed.

Lemma set_true_where_gt (c : float) (zs : list float) :
  Np.set_true (Np.where_gt zs c) (Np.zeros (length zs))
  = map (fun z => c <? z) zs.
Proof. apply (set_true_where_gt_from c zs []). Qed.

(** From the positions above its first cutoff, the search ends at the
    first cutoff at which its loop condition is false, with the positions
    above that cutoff; at every cutoff before it the condition held. *)
Lemma lower_cutoff_first_stop (z_scores : list float) (n_added : nat)
  (k : nat) :
  forall fuel z_cutoff,
    (k <= fuel)%nat ->
    (1.0 <? Violin.cutoff_after k z_cutoff) = false ->
    exists j,
      (j <= k)%nat
      /\ Violin.lower_cutoff fuel z_scores n_added z_cutoff
           (Np.where_gt z_scores z_cutoff)
         = Ok (Violin.cutoff_after j z_cutoff,
               Np.where_gt z_scores (Violin.cutoff_after j z_cutoff))
      /\ (length (Np.where_gt z_scores (Violin.cutoff_after j z_cutoff))
          <=? n_added)%nat
         && (1.0 <? Violin.cutoff_after j z_cutoff) = false
      /\ forall i,
           (i < j)%nat ->
           (length (Np.where_gt z_scores (Violin.cutoff_after i z_cutoff))
            <=? n_added)%nat
           && (1.0 <? Violin.cutoff_after i z_cutoff) = true.
Proof.
  induction k as [|k IH]; intros fuel z Hk Hz.
  - simpl in Hz. exists 0%nat. split; [lia|].
    assert (Hc : (length (Np.where_gt z_scores z) <=? n_added)%nat
                 && (1.0 <? z) = false)
      by (rewrite Hz; apply andb_false_r).
    split; [|split; [exact Hc | intros i Hi; lia]].
    destruct fuel; simpl; rewrite Hc; reflexivity.
  - destruct fuel as [|fuel]; [lia|].
    destruct ((length (Np.where_gt z_scores z) <=? n_added)%nat
              && (1.0 <? z)) eqn:Hc.
    + destruct (IH fuel (z - 0.2)) as (j & Hj & Hrun & Hend & Hbefore);
        [lia | exact Hz |].
      exists (S j). split; [lia|]. split; [|split; [exact Hend|]].
      * simpl. rewrite Hc. exact Hrun.
      * intros [|i] Hi; [exact Hc|]. apply Hbefore. lia.
    + exists 0%nat. split; [lia|].
      split; [|split; [exact Hc | intros i Hi; lia]].
      simpl. rewrite Hc. reflexivity.
Qed.

(** The number of positions above a cutoff. *)
Lemma where_gt_length (z_score : float -> float) (c : float)
  (values : list float) :
  length (Np.where_gt (map z_score values) c)
  = length (filter (fun v => c <? z_score v) values).
Proof.
  unfold Np.where_gt. generalize 0%nat.
  induction values as [|v t IH]; intros k; simpl; [reflexivity|].
  destruct (c <? z_score v); simpl; now rewrite IH.
Qed.

Lemma count_set_at (i : nat) (mask : list bool) :
  (length (filter (fun b => b) (Np.set_at i mask))
   <= S (length (filter (fun b => b) mask)))%nat.
Proof.
  revert i. induction mask as [|b t IH]; intros [|j]; simpl; try lia.
  - destruct b; simpl; lia.
  - specialize (IH j). destruct b; simpl; lia.
Qed.

Lemma count_set_true (indices : list nat) (mask : list bool) :
  (length (filter (fun b => b) (Np.set_true indices mask))
   <= length indices + length (filter (fun b => b) mask))%nat.
Proof.
  unfold Np.set_true. revert mask.
  induction indices as [|i t IH]; intros mask; simpl; [lia|].
  specialize (IH (Np.set_at i mask)). pose proof (count_set_at i mask). lia.
Qed.

Lemma count_firstn (n : nat) (mask : list bool) :
  (length (filter (fun b => b) (firstn n mask))
   <= length (filter (fun b => b) mask))%nat.
Proof.
  revert n. induction mask as [|b t IH]; intros [|n]; simpl; try lia.
  specialize (IH n). destruct b; simpl; lia.
Qed.

Lemma count_zeros (n : nat) :
  length (filter (fun b => b) (Np.zeros n)) = 0%nat.
Proof. unfold Np.zeros. induction n; simpl; auto. Qed.

Lemma last_n_length {A : Type} (n : nat) (l : list A) :
  (length (last_n n l) <= n)%nat.
Proof. unfold last_n. rewrite length_skipn. lia. Qed.

End FindOutliersFlags.

(** Without declared bounds, or when the values together with the bounds
    are not all equal, the mask of [find_outliers] has one entry per
    value. *)
Theorem find_outliers_mask_length (fuel : nat) (values : list float)
  (top_n : option Z) (z_cutoff : float) (minval maxval : option float)
  (mask : list bool) :
  Violin.find_outliers fuel values top_n z_cutoff minval maxval = Ok mask ->
  (minval = None /\ maxval = None)
  \/ (Np.std (values ++ Violin.opt_list minval ++ Violin.opt_list maxval)
      =? 0)%float = false ->
  length mask = length values.
Proof.
  intros Hrun Hcase.
  destruct ((length values =? 0) || Violin.top_n_nonpositive top_n) eqn:H0.
  - rewrite find_outliers_first_return in Hrun by exact H0.
    injection Hrun as <-. apply zeros_length.
  - destruct (Np.std (values ++ Violin.opt_list minval
                        ++ Violin.opt_list maxval) =? 0)%float eqn:Hstd.
    + destruct Hcase as [[-> ->] | Hf]; [|discriminate Hf].
      rewrite find_outliers_zero_std_return in Hrun by assumption.
      injection Hrun as <-. rewrite zeros_length. simpl. lia.
    + eapply find_outliers_last_return; eauto.
Qed.

Lemma find_outliers_mask_length_witness :
  length [false; false; false; true] = length [1; 2; 3; 90]%float.
Proof.
  apply (find_outliers_mask_length 6 [1; 2; 3; 90]%float None
           Violin.default_z_cutoff (Some 0%float) (Some 100%float)).
  - reflexivity.
  - right. reflexivity.
Defined.

(** With [top_n] given and positive, at most [top_n] values are
    flagged. *)
Theorem find_outliers_top_n_flags_at_most_n (fuel : nat)
  (values : list float) (n : Z) (z_cutoff : float)
  (minval maxval : option float) (mask : list bool) :
  Violin.find_outliers fuel values (Some n) z_cutoff minval maxval
  = Ok mask ->
  length (filter (fun b => b) mask) <= Z.to_nat n.
Proof.
  unfold Violin.find_outliers.
  destruct ((length values =? 0) || Violin.top_n_nonpositive (Some n)).
  { intros [= <-]. rewrite count_zeros. lia. }
  destruct (Np.std _ =? 0)%float.
  { intros [= <-]. rewrite count_zeros. lia. }
  cbv zeta. simpl. intros [= <-].
  set (added := Violin.opt_list minval ++ Violin.opt_list maxval).
  set (status := Np.set_true _ _).
  assert (Hs : length (filter (fun b => b) status) <= Z.to_nat n).
  { unfold status.
    pose proof (count_set_true
                  (last_n (Z.to_nat n)
                     (Np.argsort PrimFloat.leb
                        (map (fun v =>
                                abs ((v - Np.mean (values ++ added))
                                     / Np.std (values ++ added)))%float
                           (values ++ added))))
                  (Np.zeros (length (values ++ added)))) as H.
    rewrite count_zeros in H.
    pose proof (last_n_length (Z.to_nat n)
                  (Np.argsort PrimFloat.leb
                     (map (fun v =>
                             abs ((v - Np.mean (values ++ added))
                                  / Np.std (values ++ added)))%float
                        (values ++ added)))).
    lia. }
  unfold Violin.strip_added. destruct added; [exact Hs|].
  unfold drop_last. pose proof (count_firstn
    (length status - length (f :: added)) status). lia.
Qed.

Lemma find_outliers_top_n_flags_at_most_n_witness :
  length (filter (fun b => b)
            [true; false; false; false; false; false; false; true])
  <= Z.to_nat 2.
Proof.
  apply (find_outliers_top_n_flags_at_most_n 0
           [1; 2; 3; 4; 5; 6; 7; 100]%float 2 Violin.default_z_cutoff
           None None).
  reflexivity.
Defined.

(** Without [top_n] and from the default cutoff, on values that (with the
    declared bounds) are not all equal: a value is flagged exactly when
    its z-score, taken over the values and the bounds, is above the
    cutoff the search ends with.  That cutoff is 2.0 lowered [j] times
    by 0.2, with [j] at most six, and it is the first cutoff of the
    search at which more entries are above it than bounds were added, or
    which is no longer above 1.0: at each of the [j] cutoffs before it
    no more entries were above it than bounds were added, and it was
    above 1.0. *)
Theorem find_outliers_flags_above_final_cutoff (extra : nat)
  (values : list float) (minval maxval : option float) :
  values <> [] ->
  let added_values := Violin.opt_list minval ++ Violin.opt_list maxval in
  let np_values := values ++ added_values in
  (Np.std np_values =? 0)%float = false ->
  let z_score v :=
    abs ((v - Np.mean np_values) / Np.std np_values)%float in
  let n_above z_cutoff :=
    length (filter (fun v => z_cutoff <? z_score v)%float np_values) in
  exists j,
    j <= 6
    /\ let z_cutoff := Violin.cutoff_after j Violin.default_z_cutoff in
       Violin.find_outliers (6 + extra) values None Violin.default_z_cutoff
         minval maxval
       = Ok (map (fun v => z_cutoff <? z_score v)%float values)
       /\ (length added_values < n_above z_cutoff
           \/ (1.0 <? z_cutoff)%float = false)
       /\ forall i,
            i < j ->
            let earlier := Violin.cutoff_after i Violin.default_z_cutoff in
            n_above earlier <= length added_values
            /\ (1.0 <? earlier)%float = true.
Proof.
  intros Hne added_values np_values Hstd z_score n_above.
  destruct (lower_cutoff_first_stop (map z_score np_values)
              (length added_values) 6 (6 + extra) Violin.default_z_cutoff)
    as (j & Hj & Hrun & Hend & Hbefore); [lia | reflexivity |].
  exists j. split; [exact Hj|]. cbv zeta.
  split; [|split].
  - unfold Violin.find_outliers.
    replace ((length values =? 0) || Violin.top_n_nonpositive None)
      with false by (destruct values; [congruence | reflexivity]).
    fold added_values. fold np_values. rewrite Hstd. cbv zeta.
    fold z_score. rewrite Hrun. cbn [bind snd].
    rewrite <- (length_map z_score np_values), set_true_where_gt.
    rewrite map_map. f_equal.
    unfold Violin.strip_added, np_values.
    destruct added_values as [|a t] eqn:Ha.
    + now rewrite app_nil_r.
    + unfold drop_last. rewrite length_map, length_app.
      replace (length values + length (a :: t) - length (a :: t))
        with (length values) by lia.
      rewrite map_app, firstn_app, length_map, Nat.sub_diag.
      rewrite <- (length_map (fun x => Violin.cutoff_after j
                                         Violin.default_z_cutoff
                                       <? z_score x)%float values) at 1.
      rewrite firstn_all. simpl. apply app_nil_r.
  - apply andb_false_iff in Hend. destruct Hend as [Hc | Hz].
    + left. apply Nat.leb_gt in Hc. rewrite where_gt_length in Hc.
      exact Hc.
    + right. exact Hz.
  - intros i Hi. specialize (Hbefore i Hi).
    apply andb_true_iff in Hbefore. destruct Hbefore as [Hc Hz].
    apply Nat.leb_le in Hc. rewrite where_gt_length in Hc.
    split; [exact Hc | exact Hz].
Qed.

Lemma find_outliers_flags_above_final_cutoff_witness :
  let values := [1; 2; 3; 90]%float in
  let added_values :=
    Violin.opt_list (@None float) ++ Violin.opt_list (@None float) in
  let np_values := values ++ added_values in
  let z_score v :=
    abs ((v - Np.mean np_values) / Np.std np_values)%float in
  let n_above z_cutoff :=
    length (filter (fun v => z_cutoff <? z_score v)%float np_values) in
  exists j,
    j <= 6
    /\ let z_cutoff := Violin.cutoff_after j Violin.default_z_cutoff in
       Violin.find_outliers (6 + 0) values None Violin.default_z_cutoff
         None None
       = Ok (map (fun v => z_cutoff <? z_score v)%float values)
       /\ (length added_values < n_above z_cutoff
           \/ (1.0 <? z_cutoff)%float = false)
       /\ forall i,
            i < j ->
            let earlier := Violin.cutoff_after i Violin.default_z_cutoff in
            n_above earlier <= length added_values
            /\ (1.0 <? earlier)%float = true.
Proof.
  apply (find_outliers_flags_above_final_cutoff 0 [1; 2; 3; 90]%float
           None None).
  - discriminate.
  - reflexivity.
Defined.

(** ** Violin datasets: what a metric keeps *)

Lemma stride_from_NoDup {A : Type} (k : nat) (l : list A) :
  NoDup l -> forall skip, NoDup (stride_from k skip l).
Proof.
  induction 1 as [|x t Hx Ht IH]; intros [|s]; simpl;
    try apply NoDup_nil; try apply IH.
  constructor; [|apply IH].
  intros Hin. apply Hx. eapply stride_from_incl; eauto.
Qed.

(** The downsampled series consists of entries of the series, holds no
    sample twice when the series does not, and has at most as many
    entries as the cap and as the series. *)
Lemma rank_downsample_entries {A : Type} (leb : A -> A -> bool)
  (cap : nat) (value_by_sample out : list (Violin.SampleName * A)) :
  Violin.rank_downsample leb (Some cap) value_by_sample = Ok out ->
  incl out value_by_sample
  /\ (NoDup (map fst value_by_sample) -> NoDup (map fst out))
  /\ length out <= Nat.min cap (length value_by_sample).
Proof.
  intros Hrun.
  destruct (Nat.le_gt_cases (length value_by_sample) cap) as [Hle | Hgt].
  - rewrite rank_downsample_small in Hrun by exact Hle.
    injection Hrun as <-. repeat split; auto using incl_refl. lia.
  - destruct cap as [|cap].
    { unfold Violin.rank_downsample in Hrun.
      rewrite (proj2 (Nat.ltb_lt _ _) Hgt) in Hrun. discriminate Hrun. }
    destruct value_by_sample as [|d rest] eqn:Hv; [simpl in Hgt; lia|].
    rewrite <- Hv in *.
    rewrite (rank_downsample_large leb (S cap) value_by_sample d) in Hrun
      by lia.
    set (step := ceil_div _ _) in Hrun.
    injection Hrun as <-. subst step.
    pose proof (sorted_entries_perm leb value_by_sample d) as Hperm.
    set (sorted := map _ (Np.argsort leb (map snd value_by_sample))) in *.
    split; [|split].
    + intros e He. apply stride_from_incl in He.
      now apply (Permutation_in _ Hperm).
    + intros Hnd. unfold every_nth. rewrite <- stride_from_map.
      apply stride_from_NoDup.
      apply (Permutation_NoDup
               (Permutation_sym (Permutation_map fst Hperm)) Hnd).
    + pose proof (every_nth_length_le_cap (S cap) sorted) as Hlen.
      rewrite (Permutation_length Hperm) in Hlen.
      specialize (Hlen ltac:(lia) ltac:(lia)). lia.
Qed.

(** The flagged entries are entries of the series, and no key occurs
    twice among them unless it does in the series. *)
Lemma flagged_entries {A B : Type} (f : A -> B) (series : list A)
  (mask : list bool) :
  let flagged := map fst (filter snd (combine series mask)) in
  incl flagged series
  /\ length flagged <= length series
  /\ (NoDup (map f series) -> NoDup (map f flagged)).
Proof.
  revert mask. induction series as [|e t IH]; intros mask; cbv zeta.
  - simpl. repeat split; auto using incl_nil_l, NoDup_nil.
  - destruct mask as [|b bs]; cbn [combine filter map length].
    + repeat split; auto using incl_nil_l, NoDup_nil. lia.
    + destruct (IH bs) as (Hincl & Hlen & Hnd).
      assert (Hkeys : NoDup (map f (e :: t)) ->
                      NoDup (map f (map fst (filter snd (combine t bs))))
                      /\ ~ In (f e)
                           (map f (map fst (filter snd (combine t bs))))).
      { cbn [map]. intros H. inversion H as [|? ? Hn Ht]; subst.
        split; [auto|]. intros Hin. apply Hn.
        apply in_map_iff in Hin. destruct Hin as (x & <- & Hx).
        apply in_map. now apply Hincl. }
      destruct b; cbn [snd fst map length].
      * split; [|split].
        -- intros x [<- | Hx]; [now left | right; auto].
        -- lia.
        -- intros H. destruct (Hkeys H). now constructor.
      * split; [|split].
        -- intros x Hx. right. auto.
        -- lia.
        -- intros H. now destruct (Hkeys H).
Qed.

(** The points a kept metric may show, read off the selection block. *)
Lemma scatter_selection_entries (fuel : nat) (shown only_outliers numeric : bool)
  (series scatter : Violin.ValueBySample) (minval maxval : option float) :
  (if negb shown then Ok []
   else if negb only_outliers then Ok []
   else if negb numeric then Ok []
   else
     outlier_statuses <-
       Violin.find_outliers fuel
         (map (fun sv => Violin.to_float (snd sv)) series)
         None Violin.default_z_cutoff minval maxval ;;
     Violin.select_outliers series outlier_statuses) = Ok scatter ->
  incl scatter series
  /\ length scatter <= length series
  /\ (NoDup (map fst series) -> NoDup (map fst scatter)).
Proof.
  intros H.
  assert (Hnil : ([] : Violin.ValueBySample) = scatter ->
                 incl scatter series
                 /\ length scatter <= length series
                 /\ (NoDup (map fst series) -> NoDup (map fst scatter))).
  { intros <-. simpl. repeat split; auto using incl_nil_l, NoDup_nil. lia. }
  destruct (negb shown); [injection H as H; auto|].
  destruct (negb only_outliers); [injection H as H; auto|].
  destruct (negb numeric); [injection H as H; auto|].
  destruct (Violin.find_outliers _ _ _ _ _ _) as [mask| |] eqn:Hmask;
    simpl in H; try discriminate.
  pose proof (find_outliers_length_bounds _ _ _ _ _ _ _ Hmask) as [Hlen _].
  rewrite length_map in Hlen.
  rewrite select_outliers_flagged in H by exact Hlen.
  injection H as <-. apply (flagged_entries fst).
Qed.

Lemma current_series_incl (value_by_sample : Violin.ValueBySample) :
  incl (Violin.current_series value_by_sample) value_by_sample
  /\ (NoDup (map fst value_by_sample) ->
      NoDup (map fst (Violin.current_series value_by_sample))).
Proof.
  unfold Violin.current_series.
  destruct (forallb _ _); [|split; auto using incl_refl].
  split; [apply incl_filter|].
  induction value_by_sample as [|e t IH]; simpl; [auto|].
  intros H. inversion H as [|? ? Hn Ht]; subst.
  destruct (Np.isfinite _); [|auto].
  cbn [map]. constructor; [|auto].
  intros Hin. apply Hn. apply in_map_iff in Hin.
  destruct Hin as (x & <- & Hx). apply in_map.
  apply filter_In in Hx. tauto.
Qed.

(** The two series a kept metric records hold entries of the column
    only: those of the series left after NaN and Inf are removed, each
    sample at most once.  The violin has no more entries than the
    downsampling cap, and the point layer no more than
    [violin_min_threshold_no_points]. *)
Theorem kept_metric_holds_entries_of_the_series
  (value_leb : Violin.ValueT -> Violin.ValueT -> bool)
  (config : Violin.Config) (fuel : nat) (dt_column : Violin.ColumnMeta)
  (value_by_sample : Violin.ValueBySample) (column : Violin.ViolinColumn)
  (scatter violin : Violin.ValueBySample) :
  Violin.create_metric value_leb config fuel dt_column value_by_sample
  = Ok (Violin.Kept column scatter violin) ->
  let series := Violin.current_series value_by_sample in
  incl series value_by_sample
  /\ incl scatter series
  /\ incl violin series
  /\ (NoDup (map fst value_by_sample) ->
      NoDup (map fst scatter) /\ NoDup (map fst violin))
  /\ (forall cap,
        Violin.violin_downsample_after config = Some cap ->
        length violin <= cap)
  /\ length (Violin.point_layer (Violin.Kept column scatter violin))
     <= Violin.violin_min_threshold_no_points config.
Proof.
  intros Hrun series.
  destruct (create_metric_kept _ _ _ _ _ _ _ _ Hrun)
    as (_ & Hshown & Honly & _ & _ & _ & Hsc & Hvi).
  fold series in Hshown, Honly, Hsc, Hvi.
  destruct (scatter_selection_entries _ _ _ _ _ _ _ _ Hsc)
    as (Hsi & Hsl & Hsn).
  destruct (current_series_incl value_by_sample) as [Hci Hcn].
  fold series in Hci, Hcn.
  assert (Hv : incl violin series
               /\ (NoDup (map fst series) -> NoDup (map fst violin))
               /\ length violin <= length series
               /\ (forall cap,
                     Violin.violin_downsample_after config = Some cap ->
                     length violin <= cap)).
  { destruct (Violin.violin_downsample_after config) as [cap|].
    - destruct (rank_downsample_entries _ _ _ _ Hvi) as (Hi & Hn & Hl).
      repeat split; auto; [lia|].
      intros c Hc. injection Hc as <-. lia.
    - injection Hvi as <-. repeat split; auto using incl_refl.
      intros c Hc. discriminate Hc. }
  destruct Hv as (Hvi' & Hvn & Hvl & Hvc).
  repeat split; auto.
  simpl. rewrite Hshown, Honly.
  destruct (length series <=? _) eqn:Hle; [|simpl; lia].
  apply Nat.leb_le in Hle.
  destruct (_ <? length series); lia.
Qed.

Lemma kept_metric_holds_entries_of_the_series_witness :
  let scatter := [("d"%string, Violin.VInt 90)] in
  let violin := [("a"%string, Violin.VInt 1); ("c"%string, Violin.VInt 3)] in
  incl scatter (Violin.current_series Examples.four_samples)
  /\ incl violin (Violin.current_series Examples.four_samples)
  /\ length violin <= 2
  /\ length (Violin.point_layer
               (Violin.Kept Examples.percent_header scatter violin)) <= 5.
Proof.
  intros scatter violin.
  destruct (kept_metric_holds_entries_of_the_series Violin.numeric_leb
              Examples.small_config 6 Examples.percent_column
              Examples.four_samples Examples.percent_header scatter violin)
    as (_ & Hs & Hv & _ & Hcap & Hlayer); [reflexivity|].
  repeat split; auto.
Defined.

Lemma stride_from_sorted {A : Type} (R : A -> A -> Prop) (k : nat)
  (l : list A) :
  StronglySorted R l -> forall skip, StronglySorted R (stride_from k skip l).
Proof.
  induction 1 as [|x t Ht IH Hx]; intros [|s]; simpl;
    try apply SSorted_nil; try apply IH.
  constructor; [apply IH|].
  rewrite Forall_forall in *. intros y Hy. apply Hx.
  eapply stride_from_incl; eauto.
Qed.

(** A non-empty series of values that are not NaN has a smallest one. *)
Lemma series_has_minimum (series : Violin.ValueBySample) :
  series <> [] ->
  Forall (fun e => is_nan (Violin.to_float (snd e)) = false) series ->
  exists e, In e series
            /\ forall e', In e' series ->
                          Violin.numeric_leb (snd e) (snd e') = true.
Proof.
  induction series as [|a t IH]; intros Hne Hall; [contradiction|].
  inversion Hall as [|? ? Ha Ht]; subst.
  destruct t as [|b t'].
  - exists a. split; [now left|].
    intros e' [<- | []]. now apply float_leb_refl.
  - destruct (IH ltac:(discriminate) Ht) as (m & Hm & Hmin).
    assert (Hmn : is_nan (Violin.to_float (snd m)) = false)
      by (rewrite Forall_forall in Ht; auto).
    destruct (float_leb_total _ _ Ha Hmn) as [Ham | Hma].
    + exists a. split; [now left|].
      intros e' [<- | He']; [now apply float_leb_refl|].
      unfold Violin.numeric_leb.
      eapply float_leb_trans; [exact Ham|]. now apply Hmin.
    + exists m. split; [now right|].
      intros e' [<- | He']; [exact Hma | now apply Hmin].
Qed.

Lemma current_series_finite (value_by_sample : Violin.ValueBySample) :
  forallb Violin.is_number (map snd value_by_sample) = true ->
  Forall (fun e => Np.isfinite (Violin.to_float (snd e)) = true)
    (Violin.current_series value_by_sample).
Proof.
  intros Hnum. unfold Violin.current_series. rewrite Hnum.
  apply Forall_forall. intros e He. apply filter_In in He. tauto.
Qed.

(** For a column of numbers, compared as numpy compares float64 values:
    every value of the violin is finite, and a smallest value of the
    series (NaN and Inf removed) is always kept, downsampled or not.
    A downsampled violin is in ascending order. *)
Theorem numeric_violin_keeps_a_minimum (config : Violin.Config)
  (fuel : nat) (dt_column : Violin.ColumnMeta)
  (value_by_sample : Violin.ValueBySample) (column : Violin.ViolinColumn)
  (scatter violin : Violin.ValueBySample) :
  forallb Violin.is_number (map snd value_by_sample) = true ->
  Violin.create_metric Violin.numeric_leb config fuel dt_column
    value_by_sample
  = Ok (Violin.Kept column scatter violin) ->
  let series := Violin.current_series value_by_sample in
  Forall (fun e => Np.isfinite (Violin.to_float (snd e)) = true) violin
  /\ (exists e, In e violin
                /\ forall e', In e' series ->
                     (Violin.to_float (snd e) <=? Violin.to_float (snd e'))%float
                     = true)
  /\ (forall cap,
        Violin.violin_downsample_after config = Some cap ->
        cap < length series ->
        StronglySorted
          (fun a b =>
             (Violin.to_float (snd a) <=? Violin.to_float (snd b))%float
             = true) violin).
Proof.
  intros Hnum Hrun series.
  destruct (create_metric_kept _ _ _ _ _ _ _ _ Hrun)
    as (Hne & _ & _ & _ & _ & _ & _ & Hvi).
  fold series in Hne, Hvi.
  pose proof (current_series_finite value_by_sample Hnum) as Hfin.
  fold series in Hfin.
  assert (Hnan : Forall (fun e => is_nan (Violin.to_float (snd e)) = false)
                   series).
  { eapply Forall_impl; [|exact Hfin]. intros e. apply isfinite_not_nan. }
  destruct (series_has_minimum series Hne Hnan) as (m & Hm & Hmin).
  assert (Hsmall : violin = series ->
            Forall (fun e => Np.isfinite (Violin.to_float (snd e)) = true)
              violin
            /\ (exists e, In e violin
                  /\ forall e', In e' series ->
                       (Violin.to_float (snd e)
                        <=? Violin.to_float (snd e'))%float = true)).
  { intros ->. split; [exact Hfin|]. exists m. auto. }
  destruct (Violin.violin_downsample_after config) as [cap|] eqn:Hcap.
  2:{ injection Hvi as Hvi. destruct (Hsmall (eq_sym Hvi)) as [H1 H2].
      repeat split; auto. intros c Hc. discriminate Hc. }
  destruct (Nat.le_gt_cases (length series) cap) as [Hle | Hgt].
  { rewrite rank_downsample_small in Hvi by exact Hle.
    injection Hvi as Hvi. destruct (Hsmall (eq_sym Hvi)) as [H1 H2].
    repeat split; auto. intros c Hc Hlt. injection Hc as <-. lia. }
  destruct (rank_downsample_entries _ _ _ _ Hvi) as (Hincl & _ & _).
  split; [|split].
  - apply Forall_forall. intros e He.
    rewrite Forall_forall in Hfin. apply Hfin, Hincl, He.
  - destruct cap as [|cap].
    { unfold Violin.rank_downsample in Hvi.
      rewrite (proj2 (Nat.ltb_lt _ _) Hgt) in Hvi. discriminate Hvi. }
    rewrite (rank_downsample_large _ (S cap) series m) in Hvi by lia.
    set (step := ceil_div _ _) in Hvi.
    injection Hvi as <-.
    pose proof (sorted_entries_perm Violin.numeric_leb series m) as Hperm.
    set (sorted := map _ (Np.argsort _ (map snd series))) in *.
    assert (Hsorted : StronglySorted
              (fun x y => Violin.numeric_leb (snd x) (snd y) = true) sorted).
    { apply sorted_entries_sorted.
      - intros a b Ha Hb. apply in_map_iff in Ha, Hb.
        destruct Ha as (ea & <- & Hea), Hb as (eb & <- & Heb).
        rewrite Forall_forall in Hnan.
        apply float_leb_total; auto.
      - intros a b c _ _ _. apply float_leb_trans. }
    destruct (nth_error sorted 0) as [e0|] eqn:H0.
    2:{ apply nth_error_None in H0.
        rewrite (Permutation_length Hperm) in H0. lia. }
    assert (Hstep : 0 < step) by (apply ceil_div_positive; lia).
    exists e0. split.
    + apply (nth_error_In _ 0).
      now rewrite nth_error_every_nth by exact Hstep.
    + intros e' He'.
      apply (Permutation_in _ (Permutation_sym Hperm)) in He'.
      destruct (In_nth_error _ _ He') as [i Hi].
      destruct i as [|i].
      * assert (e' = e0) by congruence. subst e'.
        apply float_leb_refl. rewrite Forall_forall in Hnan.
        apply Hnan. apply (Permutation_in _ Hperm).
        eapply nth_error_In; eauto.
      * apply (sorted_nth_error _ _ Hsorted 0 (S i)); auto. lia.
  - intros c Hc Hlt. injection Hc as <-.
    destruct cap as [|cap].
    { unfold Violin.rank_downsample in Hvi.
      rewrite (proj2 (Nat.ltb_lt _ _) Hgt) in Hvi. discriminate Hvi. }
    rewrite (rank_downsample_large _ (S cap) series m) in Hvi by lia.
    set (step := ceil_div _ _) in Hvi.
    injection Hvi as <-.
    assert (Hsorted : StronglySorted
              (fun x y => Violin.numeric_leb (snd x) (snd y) = true)
              (map (fun i => nth i series m)
                 (Np.argsort Violin.numeric_leb (map snd series)))).
    { apply sorted_entries_sorted.
      - intros a b Ha Hb. apply in_map_iff in Ha, Hb.
        destruct Ha as (ea & <- & Hea), Hb as (eb & <- & Heb).
        rewrite Forall_forall in Hnan.
        apply float_leb_total; auto.
      - intros a b c _ _ _. apply float_leb_trans. }
    apply stride_from_sorted. exact Hsorted.
Qed.

Lemma numeric_violin_keeps_a_minimum_witness :
  let violin := [("b"%string, Violin.VInt 1); ("a"%string, Violin.VInt 3)] in
  Forall (fun e => Np.isfinite (Violin.to_float (snd e)) = true) violin
  /\ exists e, In e violin
               /\ forall e',
                    In e' (Violin.current_series Examples.unordered_samples) ->
                    (Violin.to_float (snd e) <=? Violin.to_float (snd e'))%float
                    = true.
Proof.
  intros violin.
  destruct (numeric_violin_keeps_a_minimum Examples.small_config 6
              Examples.percent_column Examples.unordered_samples
              Examples.percent_header [] violin)
    as (Hfin & Hmin & _); [reflexivity | reflexivity |].
  split; assumption.
Defined.

(** ** Violin datasets: when the loop over the columns fails *)

(** The selection of the outliers returns within six rounds of the
    cutoff search. *)
Lemma scatter_selection_returns (extra : nat)
  (shown only_outliers numeric : bool) (series : Violin.ValueBySample)
  (minval maxval : option float) :
  exists scatter,
    (if negb shown then Ok []
     else if negb only_outliers then Ok []
     else if negb numeric then Ok []
     else
       outlier_statuses <-
         Violin.find_outliers (6 + extra)
           (map (fun sv => Violin.to_float (snd sv)) series)
           None Violin.default_z_cutoff minval maxval ;;
       Violin.select_outliers series outlier_statuses) = Ok scatter.
Proof.
  destruct (negb shown); [eexists; reflexivity|].
  destruct (negb only_outliers); [eexists; reflexivity|].
  destruct (negb numeric); [eexists; reflexivity|].
  destruct (find_outliers_default_returns extra
              (map (fun sv => Violin.to_float (snd sv)) series) None
              minval maxval) as [mask Hmask].
  rewrite Hmask. simpl.
  pose proof (find_outliers_length_bounds _ _ _ _ _ _ _ Hmask) as [Hlen _].
  rewrite length_map in Hlen.
  rewrite select_outliers_flagged by exact Hlen.
  eexists; reflexivity.
Qed.

(** A round of the loop over the columns fails in one case only: the
    downsampling cap is zero and the column has a value left after NaN
    and Inf are removed; the division of the number of values by the cap
    then raises [ZeroDivisionError].  In every other case the round
    returns, and six rounds of the cutoff search are enough. *)
Theorem create_metric_fails_only_on_zero_cap
  (value_leb : Violin.ValueT -> Violin.ValueT -> bool)
  (config : Violin.Config) (extra : nat) (dt_column : Violin.ColumnMeta)
  (value_by_sample : Violin.ValueBySample) :
  match Violin.violin_downsample_after config,
        Violin.current_series value_by_sample with
  | Some 0, _ :: _ =>
      Violin.create_metric value_leb config (6 + extra) dt_column
        value_by_sample = Raise ZeroDivisionError
  | _, _ =>
      exists m,
        Violin.create_metric value_leb config (6 + extra) dt_column
          value_by_sample = Ok m
  end.
Proof.
  destruct (Violin.violin_downsample_after config) as [[|cap]|] eqn:Hcap;
    try (apply create_metric_returns; rewrite Hcap; discriminate).
  destruct (Violin.current_series value_by_sample) as [|d rest] eqn:Hs.
  - unfold Violin.create_metric.
    destruct value_by_sample; [eexists; reflexivity|].
    rewrite Hs. eexists; reflexivity.
  - unfold Violin.create_metric.
    destruct value_by_sample as [|sv0 vs]; [discriminate Hs|].
    rewrite Hs. cbv zeta.
    cbn [Violin.dmin Violin.dmax Violin.xaxis Violin.title Violin.suffix
         Violin.hidden Violin.ticksuffix].
    match goal with
    | |- bind ?sc _ = _ =>
        destruct (scatter_selection_returns extra
                    (length (d :: rest)
                     <=? Violin.violin_min_threshold_no_points config)
                    (Violin.violin_min_threshold_outliers config
                     <? length (d :: rest))
                    (forallb Violin.is_number (map snd (sv0 :: vs)))
                    (d :: rest) (Violin.cm_dmin dt_column)
                    (Violin.cm_dmax dt_column)) as [scatter Hsc]
    end.
    rewrite Hsc, Hcap. reflexivity.
Qed.

(** What a round records in the header, whether the metric is kept or
    not. *)
Lemma create_metric_header
  (value_leb : Violin.ValueT -> Violin.ValueT -> bool)
  (config : Violin.Config) (fuel : nat) (dt_column : Violin.ColumnMeta)
  (value_by_sample : Violin.ValueBySample) (m : Violin.Metric) :
  Violin.create_metric value_leb config fuel dt_column value_by_sample
  = Ok m ->
  match m with
  | Violin.Skipped column =>
      Violin.current_series value_by_sample = []
      /\ Violin.title column = Violin.cm_title dt_column
      /\ Violin.show_points column = true
      /\ Violin.show_only_outliers column = false
      /\ Violin.range (Violin.xaxis column) = None
  | Violin.Kept column _ _ =>
      Violin.current_series value_by_sample <> []
      /\ Violin.title column = Violin.cm_title dt_column
  end.
Proof.
  unfold Violin.create_metric.
  destruct value_by_sample as [|sv0 vs].
  { intros [= <-]. simpl. auto. }
  destruct (Violin.current_series (sv0 :: vs)) as [|d rest] eqn:Hs.
  { intros [= <-]. simpl. auto. }
  cbv zeta.
  match goal with
  | |- bind ?sc _ = _ -> _ => destruct sc as [sc_v| |]
  end; simpl; try discriminate.
  destruct (Violin.rank_downsample _ _ _) as [vi| |]; simpl;
    try discriminate.
  intros [= <-]. simpl. split; [discriminate | reflexivity].
Qed.

(** Unless the downsampling cap is zero, [Dataset.create] goes through
    all the columns: a header is recorded for each, under the title of
    the column, and a column is left out of the metrics exactly when no
    value is left in it after NaN and Inf are removed; its header keeps
    the defaults (points shown, not only outliers, no range). *)
Theorem create_records_every_column
  (value_leb : Violin.ValueT -> Violin.ValueT -> bool)
  (config : Violin.Config) (extra : nat)
  (columns : list (Violin.ColumnMeta * Violin.ValueBySample)) :
  Violin.violin_downsample_after config <> Some 0 ->
  exists metrics,
    Violin.create value_leb config (6 + extra) columns = Ok metrics
    /\ Forall2
         (fun cv m =>
            match m with
            | Violin.Skipped column =>
                Violin.current_series (snd cv) = []
                /\ Violin.title column = Violin.cm_title (fst cv)
                /\ Violin.show_points column = true
                /\ Violin.show_only_outliers column = false
                /\ Violin.range (Violin.xaxis column) = None
            | Violin.Kept column _ _ =>
                Violin.current_series (snd cv) <> []
                /\ Violin.title column = Violin.cm_title (fst cv)
            end) columns metrics.
Proof.
  intros Hcap. unfold Violin.create.
  destruct (mapM_ok_exists
              (fun cv => Violin.create_metric value_leb config (6 + extra)
                           (fst cv) (snd cv)) columns)
    as (metrics & Hrun & _).
  { intros cv _. now apply create_metric_returns. }
  exists metrics. split; [exact Hrun|].
  apply mapM_ok_Forall2 in Hrun.
  eapply Forall2_impl; [|exact Hrun].
  intros cv m H. simpl in H. now apply create_metric_header in H.
Qed.

Lemma create_records_every_column_witness :
  exists metrics,
    Violin.create Violin.numeric_leb Examples.small_config 6
      [(Examples.percent_column, Examples.four_samples);
       (Examples.zero_column, [])] = Ok metrics
    /\ length metrics = 2.
Proof.
  destruct (create_records_every_column Violin.numeric_leb
              Examples.small_config 0
              [(Examples.percent_column, Examples.four_samples);
               (Examples.zero_column, [])])
    as (metrics & Hrun & Hall); [discriminate|].
  exists metrics. split; [exact Hrun|].
  apply Forall2_length in Hall. now rewrite <- Hall.
Defined.

(** ** Scatter plots: the annotation step *)

Section Annotations.

Import Scatter.

Local Open Scope float_scope.

Local Abbreviation has_annotation :=
  (fun el : Point => match annotation el with
                     | Some _ => true
                     | None => false
                     end).

Lemma mark_annotated (points : list Point) :
  forall flags,
    (length (filter has_annotation (mark points flags))
     <= length (filter has_annotation points)
        + length (filter (fun b : bool => b) flags))%nat.
Proof.
  induction points as [|p ps IH]; intros flags; [simpl; lia|].
  cbn [mark filter].
  destruct (annotate p).
  - destruct flags as [|[|] fs]; cbn [filter set_annotation annotation].
    + specialize (IH []). cbn [filter length] in IH.
      destruct (annotation p); cbn [length]; lia.
    + specialize (IH fs). destruct (annotation p); cbn [length]; lia.
    + specialize (IH fs). destruct (annotation p); cbn [length]; lia.
  - specialize (IH flags). cbn [filter].
    destruct (annotation p); cbn [length]; lia.
Qed.

Lemma count_flags {A : Type} (f : A -> bool) (l : list A) :
  length (filter (fun b : bool => b) (map f l)) = length (filter f l).
Proof.
  induction l as [|a t IH]; [reflexivity|].
  simpl. destruct (f a); simpl; now rewrite IH.
Qed.

(** The threshold the search ends with is above 6.0, or leaves few
    enough outliers. *)
Lemma find_threshold_ends (fuel : nat) :
  forall n_annotated xz yz threshold t,
    find_threshold fuel n_annotated xz yz threshold = Ok t ->
    (t <=? 6.0) = false
    \/ (n_annotated + count_outliers xz yz t <= MAX_ANNOTATIONS)%nat.
Proof.
  induction fuel as [|fuel IH]; intros n xz yz t0 t; simpl.
  - destruct (t0 <=? 6.0) eqn:Hle.
    + destruct (n + count_outliers xz yz t0 <=? MAX_ANNOTATIONS)%nat eqn:Hn;
        [|discriminate].
      intros [= <-]. right. now apply Nat.leb_le.
    + intros [= <-]. now left.
  - destruct (t0 <=? 6.0) eqn:Hle.
    + destruct (n + count_outliers xz yz t0 <=? MAX_ANNOTATIONS)%nat eqn:Hn.
      * intros [= <-]. right. now apply Nat.leb_le.
      * apply IH.
    + intros [= <-]. now left.
Qed.

Lemma combine_nth_error {A B : Type} (l : list A) :
  forall (l' : list B) i a b,
    nth_error l i = Some a -> nth_error l' i = Some b ->
    nth_error (combine l l') i = Some (a, b).
Proof.
  induction l as [|h t IH]; intros [|h' t'] [|i] a b Ha Hb;
    cbn [nth_error combine] in *; try discriminate.
  - congruence.
  - now apply IH.
Qed.

(** A flagged point among those that may be annotated carries its name
    as annotation afterwards. *)
Lemma mark_flagged (points : list Point) :
  forall flags i p,
    nth_error (filter annotate points) i = Some p ->
    nth_error flags i = Some true ->
    In (set_annotation p) (mark points flags).
Proof.
  induction points as [|q ps IH]; intros flags i p Hp Hf.
  - now rewrite nth_error_nil in Hp.
  - cbn [filter mark] in *. destruct (annotate q).
    + destruct flags as [|f fs]; [now rewrite nth_error_nil in Hf|].
      destruct i as [|i]; cbn [nth_error] in Hp, Hf.
      * injection Hp as ->. injection Hf as ->. now left.
      * destruct f; right; eapply IH; eauto.
    + right. eapply IH; eauto.
Qed.

(** When fewer than ten points carry an annotation, the step leaves at
    most ten annotated points, or its search ended at a threshold above
    6.0.  In that case the result is the points with those flagged whose
    z-score on x or on y is above that threshold, so every point that
    may be annotated and has such a z-score carries its name as
    annotation, however many they are. *)
Theorem annotate_outliers_keeps_within_budget (fuel : nat)
  (points out : list Point) :
  let annotated l :=
    length (filter (fun el => match annotation el with
                              | Some _ => true
                              | None => false
                              end) l) in
  let eligible := filter annotate points in
  let xs := map to_float (map x eligible) in
  let ys := map to_float (map y eligible) in
  let x_z_scores := z_scores xs (Np.std xs) in
  let y_z_scores := z_scores ys (Np.std ys) in
  annotate_outliers fuel points = Ok out ->
  (annotated points < MAX_ANNOTATIONS)%nat ->
  (annotated out <= MAX_ANNOTATIONS)%nat
  \/ exists t,
       find_threshold fuel (annotated points) x_z_scores y_z_scores 1.0
       = Ok t
       /\ (t <=? 6.0) = false
       /\ out
          = mark points
              (map (fun xy => (t <? fst xy) || (t <? snd xy))
                 (combine x_z_scores y_z_scores))
       /\ forall i p zx zy,
            nth_error eligible i = Some p ->
            nth_error x_z_scores i = Some zx ->
            nth_error y_z_scores i = Some zy ->
            (t <? zx) || (t <? zy) = true ->
            In (set_annotation p) out.
Proof.
  intros annotated eligible xs ys xz yz Hrun Hn.
  unfold annotated in *. clear annotated.
  unfold annotate_outliers in Hrun.
  rewrite (proj2 (Nat.ltb_lt _ _) Hn) in Hrun.
  fold eligible in Hrun.
  destruct (forallb _ _ && forallb _ _).
  2:{ injection Hrun as <-. left. lia. }
  cbv zeta in Hrun. fold xs ys in Hrun. fold xz yz in Hrun.
  destruct ((_ =? 0) && (_ =? 0)).
  - left. destruct (length eligible =? 1)%nat eqn:H1.
    + injection Hrun as <-.
      pose proof (mark_annotated points (map (fun _ => true) eligible)) as H.
      rewrite count_flags in H.
      apply Nat.eqb_eq in H1.
      assert (length (filter (fun _ : Point => true) eligible)
              <= length eligible)%nat by apply filter_length_le.
      unfold MAX_ANNOTATIONS in *. lia.
    + injection Hrun as <-. lia.
  - destruct (find_threshold _ _ _ _ _) as [t| |] eqn:Ht; simpl in Hrun;
      try discriminate.
    injection Hrun as <-.
    destruct (find_threshold_ends _ _ _ _ _ _ Ht) as [Hpast | Hfew].
    + right. exists t. split; [reflexivity|]. split; [exact Hpast|].
      split; [reflexivity|].
      intros i p zx zy Hp Hzx Hzy Hflag.
      apply (mark_flagged points _ i p Hp).
      rewrite <- Hflag.
      apply (map_nth_error (fun xy => (t <? fst xy) || (t <? snd xy)) i
               (combine xz yz) (d := (zx, zy))).
      now apply combine_nth_error.
    + left.
      pose proof (mark_annotated points
                    (map (fun xy => (t <? fst xy) || (t <? snd xy))
                       (combine xz yz))) as H.
      rewrite count_flags in H. unfold count_outliers in Hfew. lia.
Qed.

(** Eleven points far from 501 others: the search runs past 6.0 with
    eleven outliers left, and all eleven are annotated. *)
Lemma annotate_outliers_keeps_within_budget_witness :
  let far := {| x := CNum 1; y := CNum 0; name := "far"%string;
                annotation := None; annotate := true |} in
  let near := {| x := CNum 0; y := CNum 0; name := "near"%string;
                 annotation := None; annotate := true |} in
  let points := repeat far 11 ++ repeat near 501 in
  let out := repeat (set_annotation far) 11 ++ repeat near 501 in
  let xs := repeat 1 11 ++ repeat 0 501 in
  let ys := repeat 0 512 in
  annotate_outliers 25 points = Ok out
  /\ length (filter (fun el => match annotation el with
                               | Some _ => true
                               | None => false
                               end) out) = 11%nat
  /\ exists t,
       find_threshold 25 0 (z_scores xs (Np.std xs))
         (z_scores ys (Np.std ys)) 1.0 = Ok t
       /\ (t <=? 6.0) = false
       /\ out
          = mark points
              (map (fun xy => (t <? fst xy) || (t <? snd xy))
                 (combine (z_scores xs (Np.std xs))
                    (z_scores ys (Np.std ys)))).
Proof.
  intros far near points out xs ys.
  assert (Hrun : annotate_outliers 25 points = Ok out)
    by (vm_compute; reflexivity).
  assert (Hcount : length (filter (fun el => match annotation el with
                                             | Some _ => true
                                             | None => false
                                             end) out) = 11%nat)
    by (vm_compute; reflexivity).
  split; [exact Hrun|]. split; [exact Hcount|].
  destruct (annotate_outliers_keeps_within_budget 25 points out Hrun)
    as [Hle | (t & Ht & Hpast & Hout & _)].
  - vm_compute. lia.
  - rewrite Hcount in Hle. unfold MAX_ANNOTATIONS in Hle. lia.
  - exists t. split; [exact Ht|]. split; [exact Hpast | exact Hout].
Defined.

(** What the annotation step may do to a point: nothing, or set the
    annotation of a point that may be annotated to its name. *)
Let touched (p q : Point) : Prop :=
  x q = x p /\ y q = y p /\ name q = name p /\ annotate q = annotate p
  /\ (annotation q = annotation p
      \/ (annotate p = true /\ annotation q = Some (name p))).

Lemma touched_refl (p : Point) : touched p p.
Proof. unfold touched. auto 6. Qed.

Lemma touched_set_annotation (p : Point) :
  annotate p = true -> touched p (set_annotation p).
Proof. unfold touched. simpl. auto 7. Qed.

Lemma mark_touched (points : list Point) :
  forall flags, Forall2 touched points (mark points flags).
Proof.
  induction points as [|p ps IH]; intros flags; simpl; [constructor|].
  destruct (annotate p) eqn:Hp.
  - destruct flags as [|[|] fs]; constructor;
      auto using touched_refl, touched_set_annotation.
  - constructor; auto using touched_refl.
Qed.

(** The annotation step leaves the points in place, with their
    coordinates, names and [annotate] keys: all it does is set the
    annotation of some points that may be annotated to their names.  No
    annotation is removed, a point with [annotate] set to [False] is
    never touched, and nothing at all changes once ten points or more
    carry an annotation. *)
Theorem annotate_outliers_only_adds_annotations (fuel : nat)
  (points out : list Point) :
  annotate_outliers fuel points = Ok out ->
  Forall2
    (fun p q =>
       x q = x p /\ y q = y p /\ name q = name p /\ annotate q = annotate p
       /\ (annotation q = annotation p
           \/ (annotate p = true /\ annotation q = Some (name p))))
    points out
  /\ ((MAX_ANNOTATIONS
       <= length (filter (fun el => match annotation el with
                                    | Some _ => true
                                    | None => false
                                    end) points))%nat ->
      out = points).
Proof.
  intros Hrun. fold touched.
  assert (Hsame : Forall2 touched points points).
  { clear. induction points; constructor; auto using touched_refl. }
  unfold annotate_outliers in Hrun.
  destruct (_ <? MAX_ANNOTATIONS)%nat eqn:Hn.
  2:{ injection Hrun as <-. auto. }
  apply Nat.ltb_lt in Hn.
  split; [|intros Hge; exfalso; clear - Hn Hge; lia].
  destruct (forallb _ _ && forallb _ _).
  2:{ injection Hrun as <-. exact Hsame. }
  cbv zeta in Hrun.
  destruct ((_ =? 0) && (_ =? 0)).
  - destruct (_ =? 1)%nat; injection Hrun as <-;
      [apply mark_touched | exact Hsame].
  - destruct (find_threshold _ _ _ _ _) as [t| |]; simpl in Hrun;
      try discriminate.
    injection Hrun as <-. apply mark_touched.
Qed.

Lemma annotate_outliers_only_adds_annotations_witness :
  let p := {| x := CNum 1; y := CNum 2; name := "s1"%string;
              annotation := None; annotate := true |} in
  Forall2
    (fun p q =>
       x q = x p /\ y q = y p /\ name q = name p /\ annotate q = annotate p
       /\ (annotation q = annotation p
           \/ (annotate p = true /\ annotation q = Some (name p))))
    [p] [set_annotation p].
Proof.
  intros p.
  apply (annotate_outliers_only_adds_annotations 0 [p] [set_annotation p]).
  reflexivity.
Defined.

End Annotations.

(** ** Scatter plots: the axis ranges *)

Section FloatNaN.

Local Open Scope float_scope.

Lemma SFeqb_refl (a : spec_float) : a <> S754_nan -> SFeqb a a = true.
Proof.
  unfold SFeqb. destruct a as [s|s| |s m e]; simpl; try congruence.
  - destruct s; reflexivity.
  - intros _. rewrite Z.compare_refl.
    change (Pos.compare_cont Eq m m) with (Pos.compare m m).
    rewrite Pos.compare_refl. destruct s; reflexivity.
Qed.

Lemma nan_spec (a : float) : is_nan a = true -> Prim2SF a = S754_nan.
Proof.
  unfold is_nan. rewrite FloatAxioms.eqb_spec. intros H.
  destruct (Prim2SF a) as [s|s| |s m e] eqn:E; [| |reflexivity|];
    rewrite SFeqb_refl in H by discriminate; discriminate H.
Qed.

(** NaN is neither below nor above any value. *)
Lemma nan_ltb (a b : float) :
  is_nan a = true -> (a <? b) = false /\ (b <? a) = false.
Proof.
  intros H. apply nan_spec in H. rewrite !FloatAxioms.ltb_spec, H.
  split; [reflexivity|]. unfold SFltb.
  destruct (Prim2SF b); reflexivity.
Qed.

End FloatNaN.

Section AxisRange.

Import Scatter.

Local Open Scope float_scope.

Variable coord : Point -> Coord.

(** With numbers only, none of them NaN, the loop ends with the
    smallest and the largest value seen. *)
Lemma range_loop_numbers (rest : list Point) :
  forall hi lo,
    Forall (fun p => exists f, coord p = CNum f /\ is_nan f = false) rest ->
    is_nan hi = false -> is_nan lo = false ->
    exists lo' hi',
      range_loop coord rest (Some (CNum hi)) (Some (CNum lo))
      = Compared (Some (CNum lo'), Some (CNum hi'))
      /\ (hi' = hi \/ In (CNum hi') (map coord rest))
      /\ (lo' = lo \/ In (CNum lo') (map coord rest))
      /\ (hi <=? hi') = true /\ (lo' <=? lo) = true
      /\ forall p f, In p rest -> coord p = CNum f ->
                     (lo' <=? f) = true /\ (f <=? hi') = true.
Proof.
  induction rest as [|p rest IH]; intros hi lo Hall Hhi Hlo.
  - exists lo, hi. simpl.
    repeat split; auto using float_leb_refl; contradiction.
  - inversion Hall as [|? ? (f & Hp & Hf) Hrest]; subst.
    cbn [range_loop map]. rewrite Hp. cbn [py_max py_min gt lt].
    set (hi1 := if hi <? f then f else hi).
    set (lo1 := if f <? lo then f else lo).
    replace (if hi <? f then CNum f else CNum hi) with (CNum hi1)
      by (unfold hi1; now destruct (hi <? f)).
    replace (if f <? lo then CNum f else CNum lo) with (CNum lo1)
      by (unfold lo1; now destruct (f <? lo)).
    assert (Hhi1 : is_nan hi1 = false /\ (hi <=? hi1) = true
                   /\ (f <=? hi1) = true /\ (hi1 = hi \/ hi1 = f)).
    { unfold hi1. rewrite (float_ltb_leb hi f Hhi Hf).
      destruct (f <=? hi) eqn:E; simpl;
        repeat split; auto using float_leb_refl.
      destruct (float_leb_total f hi Hf Hhi); congruence. }
    assert (Hlo1 : is_nan lo1 = false /\ (lo1 <=? lo) = true
                   /\ (lo1 <=? f) = true /\ (lo1 = lo \/ lo1 = f)).
    { unfold lo1. rewrite (float_ltb_leb f lo Hf Hlo).
      destruct (lo <=? f) eqn:E; simpl;
        repeat split; auto using float_leb_refl.
      destruct (float_leb_total lo f Hlo Hf); congruence. }
    destruct Hhi1 as (Hn1 & Hh1 & Hf1 & Hc1).
    destruct Hlo1 as (Hn2 & Hl2 & Hf2 & Hc2).
    destruct (IH hi1 lo1 Hrest Hn1 Hn2)
      as (lo' & hi' & Hrun & Hhi' & Hlo' & Hle1 & Hle2 & Hbounds).
    exists lo', hi'. split; [exact Hrun|].
    split; [|split; [|split; [|split]]].
    + destruct Hhi' as [-> | H]; [|now right; right].
      destruct Hc1 as [-> | ->]; [now left | right; now left].
    + destruct Hlo' as [-> | H]; [|now right; right].
      destruct Hc2 as [-> | ->]; [now left | right; now left].
    + eapply float_leb_trans; eauto.
    + eapply float_leb_trans; eauto.
    + intros q g [<- | Hq] Hg.
      * assert (g = f) by congruence. subst g.
        split; eapply float_leb_trans; eauto.
      * now apply (Hbounds q g).
Qed.

(** With coordinates of one kind the loop returns coordinates it has
    seen; a coordinate of the other kind makes it raise. *)
Lemma range_loop_kinds (rest : list Point) :
  forall a b,
    is_number a = is_number b ->
    match range_loop coord rest (Some a) (Some b) with
    | Compared (lo, hi) =>
        Forall (fun p => is_number (coord p) = is_number a) rest
        /\ exists lo' hi',
             lo = Some lo' /\ hi = Some hi'
             /\ In lo' (b :: map coord rest)
             /\ In hi' (a :: map coord rest)
    | TypeError =>
        exists p, In p rest /\ is_number (coord p) <> is_number a
    end.
Proof.
  induction rest as [|p rest IH]; intros a b Hab.
  - simpl. split; [constructor|]. exists b, a. auto.
  - cbn [range_loop].
    destruct (Bool.bool_dec (is_number (coord p)) (is_number a)) as [E | E].
    + assert (Hmax : exists a', py_max a (coord p) = Compared a'
                                /\ (a' = a \/ a' = coord p)).
      { unfold py_max, gt.
        destruct (coord p), a; try discriminate E;
          eexists; (split; [reflexivity|]);
          match goal with |- context [if ?c then _ else _] =>
            destruct c end; auto. }
      assert (Hmin : exists b', py_min b (coord p) = Compared b'
                                /\ (b' = b \/ b' = coord p)).
      { unfold py_min, lt. rewrite Hab in E.
        destruct (coord p), b; try discriminate E;
          eexists; (split; [reflexivity|]);
          match goal with |- context [if ?c then _ else _] =>
            destruct c end; auto. }
      destruct Hmax as (a' & -> & Ha'), Hmin as (b' & -> & Hb').
      assert (Hka : is_number a' = is_number a)
        by (destruct Ha' as [-> | ->]; auto).
      assert (Hkb : is_number b' = is_number a)
        by (destruct Hb' as [-> | ->]; auto).
      specialize (IH a' b' ltac:(congruence)).
      destruct (range_loop coord rest (Some a') (Some b')) as [[lo hi]|].
      * destruct IH as (Hall & lo' & hi' & -> & -> & Hlo & Hhi).
        split.
        { constructor; [exact E|].
          eapply Forall_impl; [|exact Hall]. intros q Hq. congruence. }
        exists lo', hi'. repeat split.
        -- destruct Hlo as [<- | Hlo]; [|right; right; exact Hlo].
           destruct Hb' as [-> | ->]; [now left | right; now left].
        -- destruct Hhi as [<- | Hhi]; [|right; right; exact Hhi].
           destruct Ha' as [-> | ->]; [now left | right; now left].
      * destruct IH as (q & Hq & Hk). exists q. split; [now right|].
        congruence.
    + assert (Hmax : py_max a (coord p) = TypeError).
      { unfold py_max, gt.
        destruct (coord p), a; simpl in E; congruence. }
      rewrite Hmax. exists p. split; [now left | exact E].
Qed.

(** After a number, a NaN changes neither end of the range; after a NaN,
    no number does. *)
Lemma range_loop_skips_nan (rest : list Point) :
  forall hi lo,
    Forall (fun p => is_number (coord p) = true) rest ->
    range_loop coord rest (Some (CNum hi)) (Some (CNum lo))
    = range_loop coord
        (filter (fun q => negb (is_nan (to_float (coord q)))) rest)
        (Some (CNum hi)) (Some (CNum lo)).
Proof.
  induction rest as [|p rest IH]; intros hi lo Hall; [reflexivity|].
  inversion Hall as [|? ? Hp Hrest]; subst.
  cbn [filter range_loop].
  destruct (coord p) as [f|s] eqn:E; [|discriminate Hp].
  cbn [to_float py_max py_min gt lt].
  destruct (is_nan f) eqn:Hf; cbn [negb].
  - destruct (nan_ltb f hi Hf) as [_ ->].
    destruct (nan_ltb f lo Hf) as [-> _]. now apply IH.
  - cbn [range_loop]. rewrite E. cbn [py_max py_min gt lt].
    destruct (hi <? f), (f <? lo); now apply IH.
Qed.

Lemma range_loop_after_nan (rest : list Point) (v : float) :
  is_nan v = true ->
  Forall (fun p => is_number (coord p) = true) rest ->
  range_loop coord rest (Some (CNum v)) (Some (CNum v))
  = Compared (Some (CNum v), Some (CNum v)).
Proof.
  intros Hv. induction rest as [|p rest IH]; intros Hall; [reflexivity|].
  inversion Hall as [|? ? Hp Hrest]; subst.
  cbn [range_loop].
  destruct (coord p) as [f|s] eqn:E; [|discriminate Hp].
  cbn [py_max py_min gt lt].
  destruct (nan_ltb v f Hv) as [-> ->]. now apply IH.
Qed.

(** The three facts for the loop started on a non-empty list, as
    [get_x_range] and [get_y_range] start it. *)
Lemma range_of_numbers (p : Point) (rest : list Point) :
  Forall (fun p => exists f, coord p = CNum f /\ is_nan f = false)
    (p :: rest) ->
  exists lo hi,
    range_loop coord (p :: rest) None None
    = Compared (Some (CNum lo), Some (CNum hi))
    /\ In (CNum lo) (map coord (p :: rest))
    /\ In (CNum hi) (map coord (p :: rest))
    /\ forall q f, In q (p :: rest) -> coord q = CNum f ->
                   (lo <=? f) = true /\ (f <=? hi) = true.
Proof.
  intros Hall. inversion Hall as [|? ? (f & Hp & Hf) Hrest]; subst.
  destruct (range_loop_numbers rest f f Hrest Hf Hf)
    as (lo & hi & Hrun & Hhi & Hlo & Hle1 & Hle2 & Hbounds).
  exists lo, hi. cbn [range_loop map]. rewrite Hp.
  split; [exact Hrun|]. split; [|split].
  - destruct Hlo as [-> | H]; [now left | now right].
  - destruct Hhi as [-> | H]; [now left | now right].
  - intros q g [<- | Hq] Hg; [|now apply (Hbounds q g)].
    assert (g = f) by congruence. subst g. auto.
Qed.

Lemma range_of_kinds (p : Point) (rest : list Point) :
  match range_loop coord (p :: rest) None None with
  | Compared (lo, hi) =>
      (forall q, In q (p :: rest) ->
                 is_number (coord q) = is_number (coord p))
      /\ exists lo' hi',
           lo = Some lo' /\ hi = Some hi'
           /\ In lo' (map coord (p :: rest))
           /\ In hi' (map coord (p :: rest))
  | TypeError =>
      exists q, In q rest /\ is_number (coord q) <> is_number (coord p)
  end.
Proof.
  cbn [range_loop].
  pose proof (range_loop_kinds rest (coord p) (coord p) eq_refl) as H.
  destruct (range_loop coord rest (Some (coord p)) (Some (coord p)))
    as [[lo hi]|]; [|exact H].
  destruct H as (Hall & lo' & hi' & -> & -> & Hlo & Hhi).
  split.
  - intros q [<- | Hq]; [reflexivity|].
    rewrite Forall_forall in Hall. auto.
  - exists lo', hi'. auto.
Qed.

Lemma range_of_nan (p : Point) (rest : list Point) :
  Forall (fun q => is_number (coord q) = true) (p :: rest) ->
  range_loop coord (p :: rest) None None
  = range_loop coord
      (p :: filter (fun q => negb (is_nan (to_float (coord q)))) rest)
      None None
  /\ (is_nan (to_float (coord p)) = true ->
      range_loop coord (p :: rest) None None
      = Compared (Some (coord p), Some (coord p))).
Proof.
  intros Hall. inversion Hall as [|? ? Hp Hrest]; subst.
  cbn [range_loop].
  destruct (coord p) as [f|s]; [|discriminate Hp].
  split; [now apply range_loop_skips_nan|].
  cbn [to_float]. intros Hf. now apply range_loop_after_nan.
Qed.

End AxisRange.

(** Over points whose coordinates are numbers, none of them NaN,
    [get_x_range] and [get_y_range] return the smallest and the largest
    coordinate: both are coordinates of points, and every coordinate
    lies between them. *)
Theorem axis_ranges_bound_the_numbers (points : list Scatter.Point) :
  points <> [] ->
  (Forall (fun p => exists f, Scatter.x p = Scatter.CNum f
                              /\ is_nan f = false) points ->
   exists lo hi,
     Scatter.get_x_range points
     = Scatter.Compared (Some (Scatter.CNum lo), Some (Scatter.CNum hi))
     /\ In (Scatter.CNum lo) (map Scatter.x points)
     /\ In (Scatter.CNum hi) (map Scatter.x points)
     /\ forall q f, In q points -> Scatter.x q = Scatter.CNum f ->
                    (lo <=? f)%float = true /\ (f <=? hi)%float = true)
  /\ (Forall (fun p => exists f, Scatter.y p = Scatter.CNum f
                                 /\ is_nan f = false) points ->
      exists lo hi,
        Scatter.get_y_range points
        = Scatter.Compared (Some (Scatter.CNum lo), Some (Scatter.CNum hi))
        /\ In (Scatter.CNum lo) (map Scatter.y points)
        /\ In (Scatter.CNum hi) (map Scatter.y points)
        /\ forall q f, In q points -> Scatter.y q = Scatter.CNum f ->
                       (lo <=? f)%float = true /\ (f <=? hi)%float = true).
Proof.
  intros Hne. destruct points as [|p rest]; [contradiction|].
  split; intros Hall.
  - apply (range_of_numbers Scatter.x p rest Hall).
  - apply (range_of_numbers Scatter.y p rest Hall).
Qed.

Lemma axis_ranges_bound_the_numbers_witness :
  let p1 := {| Scatter.x := Scatter.CNum 3; Scatter.y := Scatter.CNum 2;
               Scatter.name := "s1"%string; Scatter.annotation := None;
               Scatter.annotate := true |} in
  let p2 := {| Scatter.x := Scatter.CNum 1; Scatter.y := Scatter.CNum 5;
               Scatter.name := "s2"%string; Scatter.annotation := None;
               Scatter.annotate := true |} in
  exists lo hi,
    Scatter.get_x_range [p1; p2]
    = Scatter.Compared (Some (Scatter.CNum lo), Some (Scatter.CNum hi))
    /\ In (Scatter.CNum lo) (map Scatter.x [p1; p2])
    /\ In (Scatter.CNum hi) (map Scatter.x [p1; p2])
    /\ forall q f, In q [p1; p2] -> Scatter.x q = Scatter.CNum f ->
                   (lo <=? f)%float = true /\ (f <=? hi)%float = true.
Proof.
  intros p1 p2.
  apply (axis_ranges_bound_the_numbers [p1; p2]); [discriminate|].
  repeat constructor; eexists; split; reflexivity.
Defined.

(** [get_x_range] and [get_y_range] raise [TypeError] exactly when the
    coordinates they read are not all of one kind: some point after the
    first has a string where the first has a number, or a number where
    it has a string.  Otherwise both ends of the range are coordinates
    of points, or [None] when there is no point. *)
Theorem axis_ranges_raise_on_mixed_kinds (points : list Scatter.Point) :
  match Scatter.get_x_range points with
  | Scatter.Compared (lo, hi) =>
      (forall p q, In p points -> In q points ->
                   Scatter.is_number (Scatter.x p)
                   = Scatter.is_number (Scatter.x q))
      /\ match points with
         | [] => lo = None /\ hi = None
         | _ :: _ =>
             exists lo' hi',
               lo = Some lo' /\ hi = Some hi'
               /\ In lo' (map Scatter.x points)
               /\ In hi' (map Scatter.x points)
         end
  | Scatter.TypeError =>
      exists p q, In p points /\ In q points
                  /\ Scatter.is_number (Scatter.x p)
                     <> Scatter.is_number (Scatter.x q)
  end
  /\ match Scatter.get_y_range points with
     | Scatter.Compared (lo, hi) =>
         (forall p q, In p points -> In q points ->
                      Scatter.is_number (Scatter.y p)
                      = Scatter.is_number (Scatter.y q))
         /\ match points with
            | [] => lo = None /\ hi = None
            | _ :: _ =>
                exists lo' hi',
                  lo = Some lo' /\ hi = Some hi'
                  /\ In lo' (map Scatter.y points)
                  /\ In hi' (map Scatter.y points)
            end
     | Scatter.TypeError =>
         exists p q, In p points /\ In q points
                     /\ Scatter.is_number (Scatter.y p)
                        <> Scatter.is_number (Scatter.y q)
     end.
Proof.
  destruct points as [|p rest].
  { simpl. repeat split; contradiction. }
  unfold Scatter.get_x_range, Scatter.get_y_range.
  split.
  - pose proof (range_of_kinds Scatter.x p rest) as H.
    destruct (Scatter.range_loop Scatter.x (p :: rest) None None)
      as [[lo hi]|].
    + destruct H as [Hk Hends]. split; [|exact Hends].
      intros a b Ha Hb. rewrite (Hk a Ha), (Hk b Hb). reflexivity.
    + destruct H as (q & Hq & Hk). exists q, p.
      split; [now right|]. split; [now left | exact Hk].
  - pose proof (range_of_kinds Scatter.y p rest) as H.
    destruct (Scatter.range_loop Scatter.y (p :: rest) None None)
      as [[lo hi]|].
    + destruct H as [Hk Hends]. split; [|exact Hends].
      intros a b Ha Hb. rewrite (Hk a Ha), (Hk b Hb). reflexivity.
    + destruct H as (q & Hq & Hk). exists q, p.
      split; [now right|]. split; [now left | exact Hk].
Qed.

(** Over numbers the ranges depend on where a NaN stands: in a later
    position it is passed over, as if the point were not there, but in
    the first position it stays, and both ends of the range are NaN
    whatever the other points are. *)
Theorem axis_ranges_keep_a_leading_nan (p : Scatter.Point)
  (rest : list Scatter.Point) :
  (Forall (fun q => Scatter.is_number (Scatter.x q) = true) (p :: rest) ->
   Scatter.get_x_range (p :: rest)
   = Scatter.get_x_range
       (p :: filter (fun q =>
                       negb (is_nan (Scatter.to_float (Scatter.x q)))) rest)
   /\ (is_nan (Scatter.to_float (Scatter.x p)) = true ->
       Scatter.get_x_range (p :: rest)
       = Scatter.Compared (Some (Scatter.x p), Some (Scatter.x p))))
  /\ (Forall (fun q => Scatter.is_number (Scatter.y q) = true) (p :: rest) ->
      Scatter.get_y_range (p :: rest)
      = Scatter.get_y_range
          (p :: filter (fun q =>
                          negb (is_nan (Scatter.to_float (Scatter.y q))))
                  rest)
      /\ (is_nan (Scatter.to_float (Scatter.y p)) = true ->
          Scatter.get_y_range (p :: rest)
          = Scatter.Compared (Some (Scatter.y p), Some (Scatter.y p)))).
Proof.
  split; intros Hall.
  - apply (range_of_nan Scatter.x p rest Hall).
  - apply (range_of_nan Scatter.y p rest Hall).
Qed.

Lemma axis_ranges_keep_a_leading_nan_witness :
  let p1 := {| Scatter.x := Scatter.CNum nan; Scatter.y := Scatter.CNum 2;
               Scatter.name := "s1"%string; Scatter.annotation := None;
               Scatter.annotate := true |} in
  let p2 := {| Scatter.x := Scatter.CNum 1; Scatter.y := Scatter.CNum 5;
               Scatter.name := "s2"%string; Scatter.annotation := None;
               Scatter.annotate := true |} in
  Scatter.get_x_range [p1; p2]
  = Scatter.Compared (Some (Scatter.CNum nan), Some (Scatter.CNum nan)).
Proof.
  intros p1 p2.
  destruct (axis_ranges_keep_a_leading_nan p1 [p2]) as [Hx _].
  destruct Hx as [_ Hnan]; [repeat constructor|].
  apply Hnan. reflexivity.
Defined.

(** ** Bar plots: when the assembly returns *)

Section BarOutcome.

Import Bar.

Variable split_long_string : string -> list string.
Variable html_rgb : string -> string.
Variable py_sum : list float -> float.

(** What [Dataset.create] asks of an input category, given the number of
    samples [n]. *)
Let well_formed (n : nat) (c : CatDataDict) : Prop :=
  cd_name c <> None
  /\ length (cd_data c) = n
  /\ match cd_data_pct c with
     | Some pct => pct = [] \/ length pct = n
     | None => True
     end.

Lemma create_category_returns (samples : list string)
  (input_cat : CatDataDict) :
  well_formed (length samples) input_cat ->
  exists cat,
    create_category split_long_string html_rgb samples input_cat = Ok cat
    /\ length (data cat) = length samples.
Proof.
  intros (Hname & Hlen & Hpct). unfold create_category.
  destruct (cd_name input_cat) as [n|]; [|congruence].
  cbn [data data_pct]. rewrite length_rev, Hlen, Nat.eqb_refl. cbn [negb].
  destruct (cd_data_pct input_cat) as [pct|].
  - destruct (rev pct) as [|p ps] eqn:Hrev.
    + eexists. split; [reflexivity|]. cbn [data]. now rewrite length_rev.
    + destruct Hpct as [-> | Hl]; [discriminate Hrev|].
      rewrite <- Hrev, length_rev, Hl, Nat.eqb_refl. cbn [negb].
      eexists. split; [reflexivity|]. cbn [data]. now rewrite length_rev.
  - eexists. split; [reflexivity|]. cbn [data]. now rewrite length_rev.
Qed.

Lemma create_returns (input_cats : list CatDataDict)
  (input_samples : list string) :
  Forall (well_formed (length input_samples)) input_cats ->
  exists fixed_cats,
    create split_long_string html_rgb input_cats input_samples
    = Ok {| cats := fixed_cats; samples := rev input_samples;
            pct_range_min := None |}
    /\ length fixed_cats = length input_cats
    /\ Forall (fun cat => length (data cat) = length input_samples)
         fixed_cats.
Proof.
  intros Hall. unfold create.
  destruct (mapM_ok_exists
              (create_category split_long_string html_rgb
                 (rev input_samples)) input_cats)
    as (fixed & Hrun & Hlen).
  { intros c Hc. rewrite Forall_forall in Hall.
    destruct (create_category_returns (rev input_samples) c) as (cat & -> & _).
    - rewrite length_rev. now apply Hall.
    - now exists cat. }
  exists fixed. rewrite Hrun. split; [reflexivity|]. split; [exact Hlen|].
  apply mapM_ok_Forall2 in Hrun.
  apply (Forall2_Forall_right _ input_cats).
  eapply Forall2_impl; [|apply (Forall2_and_left _ _ _ _ Hrun Hall)].
  intros c cat [Hc Hwf]. cbv beta in Hc.
  destruct (create_category_returns (rev input_samples) c) as (cat' & Hc' & Hl).
  { rewrite length_rev. exact Hwf. }
  rewrite length_rev in Hl. congruence.
Qed.

(** The values of the categories at a sample index. *)
Lemma column_at_returns (field : Category -> list float)
  (cats : list Category) (n i : nat) :
  Forall (fun cat => length (field cat) = n) cats ->
  i < n ->
  exists column,
    column_at field cats i = Ok column
    /\ Forall2 (fun cat v => nth_error (field cat) i = Some v) cats column.
Proof.
  intros Hlen Hi. unfold column_at.
  induction Hlen as [|cat t Hcat _ IH]; simpl.
  - exists []. split; [reflexivity | constructor].
  - destruct (nth_error (field cat) i) as [v|] eqn:Hv.
    2:{ apply nth_error_None in Hv. lia. }
    rewrite (getitem_nth_error _ _ _ Hv). simpl.
    destruct IH as (column & -> & Hcol). simpl.
    exists (v :: column). split; [reflexivity|]. now constructor.
Qed.

(** What the two loops over the samples have in common: one result per
    sample, computed from the values at its index. *)
Lemma per_sample_returns (field : Category -> list float)
  (g : list float -> result float) (dataset : Dataset) :
  Forall (fun cat => length (field cat) = length (samples dataset))
    (cats dataset) ->
  (forall column,
     length column = length (cats dataset) -> exists m, g column = Ok m) ->
  exists per_sample,
    mapM (fun i => column <- column_at field (cats dataset) i ;; g column)
      (seq 0 (length (samples dataset))) = Ok per_sample
    /\ length per_sample = length (samples dataset).
Proof.
  intros Hlen Hg.
  destruct (mapM_ok_exists
              (fun i => column <- column_at field (cats dataset) i ;;
                        g column)
              (seq 0 (length (samples dataset))))
    as (per_sample & Hrun & Hl).
  - intros i Hi. apply in_seq in Hi.
    destruct (column_at_returns field (cats dataset) _ i Hlen)
      as (column & -> & Hcol); [lia|].
    simpl. apply Hg. symmetry. eapply Forall2_length; eauto.
  - rewrite length_seq in Hl. eauto.
Qed.

Lemma axis_limits_returns (barmode : Barmode) (dataset : Dataset) :
  cats dataset <> [] \/ is_group barmode = false ->
  samples dataset <> [] ->
  Forall (fun cat => length (data cat) = length (samples dataset))
    (cats dataset) ->
  exists limits, axis_limits py_sum barmode dataset = Ok limits.
Proof.
  intros Hcats Hsamples Hlen. unfold axis_limits, range_max, range_min.
  assert (Hne : forall column : list float,
            length column = length (cats dataset) ->
            is_group barmode = true -> column <> []).
  { intros column Hl Hg ->. destruct Hcats as [H | H]; [|congruence].
    destruct (cats dataset); [congruence | discriminate]. }
  destruct (per_sample_returns data
              (fun column => if is_group barmode then py_max column
                             else Ok (sum_positive py_sum column)) dataset Hlen)
    as (maxes & -> & Hmaxes).
  { intros column Hl. destruct (is_group barmode) eqn:Hg;
      [|eexists; reflexivity].
    destruct column; [now destruct (Hne [] Hl) | eexists; reflexivity]. }
  destruct (per_sample_returns data
              (fun column => if is_group barmode then py_min column
                             else Ok (sum_negative py_sum column)) dataset Hlen)
    as (mins & -> & Hmins).
  { intros column Hl. destruct (is_group barmode) eqn:Hg;
      [|eexists; reflexivity].
    destruct column; [now destruct (Hne [] Hl) | eexists; reflexivity]. }
  cbn [bind].
  destruct maxes as [|a maxes].
  { destruct (samples dataset); [congruence | discriminate]. }
  destruct mins as [|b mins].
  { destruct (samples dataset); [congruence | discriminate]. }
  cbn [py_max py_min bind]. eexists; reflexivity.
Qed.

(** Without samples, and without categories in a grouped plot, [max] is
    called on an empty sequence. *)
Lemma axis_limits_no_samples (barmode : Barmode) (dataset : Dataset) :
  samples dataset = [] -> axis_limits py_sum barmode dataset = Raise ValueError.
Proof.
  intros H. unfold axis_limits, range_max. rewrite H. reflexivity.
Qed.

Lemma axis_limits_no_categories (barmode : Barmode) (dataset : Dataset) :
  samples dataset <> [] -> cats dataset = [] -> is_group barmode = true ->
  axis_limits py_sum barmode dataset = Raise ValueError.
Proof.
  intros Hs Hc Hg. unfold axis_limits, range_max. rewrite Hc, Hg.
  destruct (samples dataset) as [|s ss]; [congruence|]. reflexivity.
Qed.

(** What [BarPlot.create] does with a dataset, given categories that
    [Dataset.create] accepts: without samples it raises [ValueError];
    without categories it raises [ValueError] in a grouped plot and
    [IndexError] when the percentage tab is on, and otherwise returns
    the dataset without categories; in every other case it returns. *)
Theorem assemble_outcomes (stacking : option Stacking) (add_pct_tab : bool)
  (input_cats : list CatDataDict) (input_samples : list string) :
  Forall (fun c =>
            cd_name c <> None
            /\ length (cd_data c) = length input_samples
            /\ match cd_data_pct c with
               | Some pct => pct = [] \/ length pct = length input_samples
               | None => True
               end) input_cats ->
  let outcome :=
    assemble split_long_string html_rgb py_sum stacking add_pct_tab
      input_cats input_samples in
  match input_samples, input_cats with
  | [], _ => outcome = Raise ValueError
  | _ :: _, [] =>
      outcome
      = if is_group (barmode_of stacking) then Raise ValueError
        else if add_pct_tab then Raise IndexError
        else Ok {| cats := []; samples := rev input_samples;
                   pct_range_min := None |}
  | _ :: _, _ :: _ =>
      exists dataset,
        outcome = Ok dataset
        /\ samples dataset = rev input_samples
        /\ length (cats dataset) = length input_cats
        /\ Forall (fun cat =>
                     length (data cat) = length input_samples
                     /\ (add_pct_tab = true ->
                         length (data_pct cat) = length input_samples))
             (cats dataset)
  end.
Proof.
  intros Hall outcome. subst outcome. unfold assemble.
  destruct (create_returns input_cats input_samples Hall)
    as (fixed & -> & Hn & Hlen).
  cbn [bind].
  set (dataset := {| cats := fixed; samples := rev input_samples;
                     pct_range_min := None |}).
  assert (Hlen' : Forall (fun cat => length (data cat)
                                     = length (samples dataset))
                    (cats dataset)).
  { cbn [cats samples dataset]. rewrite length_rev. exact Hlen. }
  destruct input_samples as [|s ss].
  { now rewrite axis_limits_no_samples. }
  assert (Hsamples : samples dataset <> []).
  { cbn [samples dataset]. simpl.
    intros H. now apply app_eq_nil in H as [_ H]. }
  destruct input_cats as [|c cs].
  - destruct fixed; [|discriminate Hn].
    destruct (is_group (barmode_of stacking)) eqn:Hg.
    { now rewrite axis_limits_no_categories. }
    destruct (axis_limits_returns (barmode_of stacking) dataset)
      as [limits Hlimits]; auto.
    rewrite Hlimits. cbn [bind].
    rewrite expand_with_zeroes_same_length by exact Hlen'.
    destruct add_pct_tab; reflexivity.
  - assert (Hcats : cats dataset <> []).
    { cbn [cats dataset]. destruct fixed; [discriminate Hn | discriminate]. }
    destruct (axis_limits_returns (barmode_of stacking) dataset)
      as [limits ->]; auto.
    cbn [bind]. rewrite expand_with_zeroes_same_length by exact Hlen'.
    destruct add_pct_tab.
    + destruct (percentage_pass_ok py_sum (barmode_of stacking) dataset
                  Hcats Hsamples Hlen') as (dataset' & -> & Hs' & Hrel).
      exists dataset'. split; [reflexivity|].
      split; [exact Hs'|].
      split; [rewrite <- (Forall2_length Hrel); exact Hn|].
      apply (Forall2_Forall_right _ (cats dataset)).
      eapply Forall2_impl;
        [|apply (Forall2_and_left _ _ _ _ Hrel Hlen')].
      intros cat cat' [(_ & Hd & Hpct) Hl].
      cbn [samples dataset] in Hl. rewrite length_rev in Hl.
      split; [congruence|]. intros _.
      assert (Hsome : forall i,
                (i < length (data_pct cat') <-> i < length (data cat))).
      { intros i. rewrite <- !nth_error_Some, Hpct.
        destruct (nth_error (data cat) i); simpl; split; congruence. }
      rewrite <- Hl.
      destruct (Nat.lt_trichotomy (length (data_pct cat'))
                  (length (data cat))) as [H | [H | H]]; [|exact H|].
      * apply Hsome in H. lia.
      * apply Hsome in H. lia.
    + exists dataset. split; [reflexivity|].
      split; [reflexivity|]. split; [exact Hn|].
      eapply Forall_impl; [|exact Hlen].
      intros cat Hl. split; [exact Hl | discriminate].
Qed.

End BarOutcome.

Lemma assemble_outcomes_witness :
  exists dataset,
    Bar.assemble Examples.keep_name Examples.keep_color
      Examples.sum_from_left None true
      [Examples.cat_X; Examples.cat_Y] Examples.two_samples = Ok dataset
    /\ Bar.samples dataset = rev Examples.two_samples
    /\ length (Bar.cats dataset) = 2
    /\ Forall (fun cat =>
                 length (Bar.data cat) = 2
                 /\ (true = true -> length (Bar.data_pct cat) = 2))
         (Bar.cats dataset).
Proof.
  apply (assemble_outcomes Examples.keep_name Examples.keep_color
           Examples.sum_from_left None true
           [Examples.cat_X; Examples.cat_Y] Examples.two_samples).
  repeat constructor; discriminate.
Defined.

(** ** Bar plots: the ranges of grouped bars *)

Section GroupedRanges.

Import Bar.

Local Open Scope float_scope.

Variable py_sum : list float -> float.

(** The per-sample results of a loop over the samples whose body may
    raise. *)
Lemma per_sample_results (field : Category -> list float)
  (g : list float -> result float) (dataset : Dataset)
  (per_sample : list float) :
  mapM (fun i => column <- column_at field (cats dataset) i ;; g column)
    (seq 0 (length (samples dataset))) = Ok per_sample ->
  (forall r, In r per_sample ->
     exists i column,
       (i < length (samples dataset))%nat
       /\ column_at field (cats dataset) i = Ok column
       /\ g column = Ok r)
  /\ (forall i,
        (i < length (samples dataset))%nat ->
        exists column r,
          column_at field (cats dataset) i = Ok column
          /\ g column = Ok r /\ In r per_sample).
Proof.
  intros Hrun.
  pose proof (mapM_ok_length _ _ _ Hrun) as Hlen. rewrite length_seq in Hlen.
  apply mapM_ok_Forall2 in Hrun.
  assert (Hnth : forall i r,
            nth_error per_sample i = Some r ->
            (i < length (samples dataset))%nat
            /\ exists column,
                 column_at field (cats dataset) i = Ok column
                 /\ g column = Ok r).
  { set (n := length (samples dataset)) in *.
    assert (Hgen : forall start,
              Forall2 (fun i r =>
                         (column <- column_at field (cats dataset) i ;;
                          g column) = Ok r)
                (seq start n) per_sample ->
              forall i r,
                nth_error per_sample i = Some r ->
                (i < n)%nat
                /\ exists column,
                     column_at field (cats dataset) (start + i) = Ok column
                     /\ g column = Ok r).
    { clear. revert per_sample.
      induction n as [|n IH]; intros per_sample start H i r Hi.
      - inversion H; subst. now rewrite nth_error_nil in Hi.
      - cbn [seq] in H. inversion H as [|? y ? ys Hy Hys]; subst.
        destruct i as [|i]; simpl in Hi.
        + injection Hi as <-. split; [lia|]. rewrite Nat.add_0_r.
          destruct (column_at field (cats dataset) start) as [column| |];
            simpl in Hy; try discriminate.
          exists column. split; [reflexivity | exact Hy].
        + destruct (IH ys (S start) Hys i r Hi) as [Hlt Hcol].
          split; [lia|]. now rewrite Nat.add_succ_r. }
    exact (Hgen 0%nat Hrun). }
  split.
  - intros r Hr. destruct (In_nth_error _ _ Hr) as [i Hi].
    destruct (Hnth i r Hi) as (Hlt & column & Hcol & Hg).
    exists i, column. auto.
  - intros i Hi.
    destruct (nth_error per_sample i) as [r|] eqn:Hr.
    + destruct (Hnth i r Hr) as (_ & column & Hcol & Hg).
      exists column, r. repeat split; auto.
      now apply (nth_error_In _ i).
    + apply nth_error_None in Hr. lia.
Qed.

Lemma column_at_entries (field : Category -> list float)
  (cats : list Category) (i : nat) (column : list float) :
  column_at field cats i = Ok column ->
  Forall2 (fun cat v => nth_error (field cat) i = Some v) cats column.
Proof.
  intros H. apply mapM_ok_Forall2 in H.
  eapply Forall2_impl; [|exact H].
  intros cat v Hv. unfold getitem in Hv.
  destruct (nth_error (field cat) i); [congruence | discriminate].
Qed.

(** The values at a sample index of categories without NaN. *)
Lemma column_of_numbers (cats : list Category) (i : nat)
  (column : list float) :
  Forall (fun cat => Forall (fun v => is_nan v = false) (data cat)) cats ->
  column_at data cats i = Ok column ->
  Forall (fun v => is_nan v = false) column
  /\ (forall v, In v column ->
        exists cat, In cat cats /\ nth_error (data cat) i = Some v)
  /\ (forall cat v, In cat cats -> nth_error (data cat) i = Some v ->
                    In v column).
Proof.
  intros Hnum Hcol. apply column_at_entries in Hcol.
  induction Hcol as [|cat v cats' column' Hv _ IH].
  - repeat split; try constructor; contradiction.
  - inversion Hnum as [|? ? Hcat Hrest]; subst.
    destruct (IH Hrest) as (Hnan & Hfrom & Hin).
    split; [|split].
    + constructor; [|exact Hnan].
      rewrite Forall_forall in Hcat. apply Hcat.
      eapply nth_error_In; eauto.
    + intros x [<- | Hx].
      * exists cat. split; [now left | exact Hv].
      * destruct (Hfrom x Hx) as (c & Hc & Hn). exists c.
        split; [now right | exact Hn].
    + intros c x [<- | Hc] Hx.
      * left. congruence.
      * right. now apply (Hin c).
Qed.

(** Over values that are not NaN, [min] and [max] return an entry that
    bounds all the others. *)
Lemma fold_min_floats (t : list float) :
  forall a,
    is_nan a = false -> Forall (fun v => is_nan v = false) t ->
    let m := fold_left (fun m v => if v <? m then v else m) t a in
    is_nan m = false /\ In m (a :: t)
    /\ forall q, In q (a :: t) -> (m <=? q) = true.
Proof.
  induction t as [|q t IH]; intros a Ha Hall; cbv zeta; cbn [fold_left].
  - split; [exact Ha|]. split; [now left|].
    intros q [<- | []]. now apply float_leb_refl.
  - inversion Hall as [|? ? Hq Ht]; subst.
    set (a' := if q <? a then q else a).
    assert (Ha' : is_nan a' = false /\ (a' = a \/ a' = q)
                  /\ (a' <=? a) = true /\ (a' <=? q) = true).
    { unfold a'. rewrite (float_ltb_leb q a Hq Ha).
      destruct (a <=? q) eqn:E; cbn [negb].
      - repeat split; auto using float_leb_refl.
      - repeat split; auto using float_leb_refl.
        destruct (float_leb_total a q Ha Hq); congruence. }
    destruct Ha' as (Hn & Hor & Hle1 & Hle2).
    destruct (IH a' Hn Ht) as (Hm & Hin & Hmin). cbv zeta in Hm, Hin, Hmin.
    split; [exact Hm|]. split.
    + destruct Hin as [<- | Hin]; [|right; right; exact Hin].
      destruct Hor as [-> | ->]; [now left | right; now left].
    + assert (Hma : (fold_left (fun m v => if v <? m then v else m) t a'
                     <=? a') = true) by (apply Hmin; now left).
      intros x [<- | [<- | Hx]].
      * eapply float_leb_trans; eauto.
      * eapply float_leb_trans; eauto.
      * apply Hmin. now right.
Qed.

Lemma fold_max_floats (t : list float) :
  forall a,
    is_nan a = false -> Forall (fun v => is_nan v = false) t ->
    let m := fold_left (fun m v => if m <? v then v else m) t a in
    is_nan m = false /\ In m (a :: t)
    /\ forall q, In q (a :: t) -> (q <=? m) = true.
Proof.
  induction t as [|q t IH]; intros a Ha Hall; cbv zeta; cbn [fold_left].
  - split; [exact Ha|]. split; [now left|].
    intros q [<- | []]. now apply float_leb_refl.
  - inversion Hall as [|? ? Hq Ht]; subst.
    set (a' := if a <? q then q else a).
    assert (Ha' : is_nan a' = false /\ (a' = a \/ a' = q)
                  /\ (a <=? a') = true /\ (q <=? a') = true).
    { unfold a'. rewrite (float_ltb_leb a q Ha Hq).
      destruct (q <=? a) eqn:E; cbn [negb].
      - repeat split; auto using float_leb_refl.
      - repeat split; auto using float_leb_refl.
        destruct (float_leb_total q a Hq Ha); congruence. }
    destruct Ha' as (Hn & Hor & Hle1 & Hle2).
    destruct (IH a' Hn Ht) as (Hm & Hin & Hmax). cbv zeta in Hm, Hin, Hmax.
    split; [exact Hm|]. split.
    + destruct Hin as [<- | Hin]; [|right; right; exact Hin].
      destruct Hor as [-> | ->]; [now left | right; now left].
    + assert (Hma : (a' <=? fold_left (fun m v => if m <? v then v else m)
                             t a') = true) by (apply Hmax; now left).
      intros x [<- | [<- | Hx]].
      * eapply float_leb_trans; eauto.
      * eapply float_leb_trans; eauto.
      * apply Hmax. now right.
Qed.

Lemma py_min_floats (l : list float) (r : float) :
  Forall (fun v => is_nan v = false) l ->
  py_min l = Ok r ->
  is_nan r = false /\ In r l /\ forall q, In q l -> (r <=? q) = true.
Proof.
  intros Hall Hr. destruct l as [|a t]; [discriminate Hr|].
  cbn [py_min] in Hr. injection Hr as <-.
  inversion Hall; subst. now apply fold_min_floats.
Qed.

Lemma py_max_floats (l : list float) (r : float) :
  Forall (fun v => is_nan v = false) l ->
  py_max l = Ok r ->
  is_nan r = false /\ In r l /\ forall q, In q l -> (q <=? r) = true.
Proof.
  intros Hall Hr. destruct l as [|a t]; [discriminate Hr|].
  cbn [py_max] in Hr. injection Hr as <-.
  inversion Hall; subst. now apply fold_max_floats.
Qed.

(** In a grouped plot without NaN the limits of the axis are numbers
    that bound every value of the dataset; the upper limit is the
    largest value, and the lower limit is the smallest value or, when
    that is above zero, zero. *)
Theorem grouped_axis_limits_bound_every_value (barmode : Barmode)
  (dataset : Dataset) (minallowed xmax_cnt : float) :
  is_group barmode = true ->
  Forall (fun cat => Forall (fun v => is_nan v = false) (data cat))
    (cats dataset) ->
  axis_limits py_sum barmode dataset = Ok (minallowed, xmax_cnt) ->
  is_nan minallowed = false /\ is_nan xmax_cnt = false
  /\ (minallowed <=? 0) = true
  /\ (forall cat i v,
        In cat (cats dataset) -> (i < length (samples dataset))%nat ->
        nth_error (data cat) i = Some v ->
        (minallowed <=? v) = true /\ (v <=? xmax_cnt) = true)
  /\ (exists cat i,
        In cat (cats dataset) /\ (i < length (samples dataset))%nat
        /\ nth_error (data cat) i = Some xmax_cnt)
  /\ (minallowed = 0
      \/ exists cat i,
           In cat (cats dataset) /\ (i < length (samples dataset))%nat
           /\ nth_error (data cat) i = Some minallowed).
Proof.
  intros Hg Hnum Hrun. unfold axis_limits, range_max, range_min in Hrun.
  rewrite Hg in Hrun.
  destruct (mapM _ _) as [maxes| |] eqn:Hmaxes in Hrun;
    cbn [bind] in Hrun; try discriminate.
  destruct (py_max maxes) as [xmax| |] eqn:Hxmax;
    cbn [bind] in Hrun; try discriminate.
  destruct (mapM _ _) as [mins| |] eqn:Hmins in Hrun;
    cbn [bind] in Hrun; try discriminate.
  destruct (py_min mins) as [xmin| |] eqn:Hxmin;
    cbn [bind] in Hrun; try discriminate.
  destruct (per_sample_results data py_max dataset maxes Hmaxes)
    as (Hmax_from & Hmax_in).
  destruct (per_sample_results data py_min dataset mins Hmins)
    as (Hmin_from & Hmin_in).
  assert (Hmaxes_nan : Forall (fun v => is_nan v = false) maxes).
  { apply Forall_forall. intros r Hr.
    destruct (Hmax_from r Hr) as (i & column & _ & Hcol & Hpy).
    destruct (column_of_numbers _ _ _ Hnum Hcol) as (Hc & _).
    now destruct (py_max_floats column r Hc Hpy). }
  assert (Hmins_nan : Forall (fun v => is_nan v = false) mins).
  { apply Forall_forall. intros r Hr.
    destruct (Hmin_from r Hr) as (i & column & _ & Hcol & Hpy).
    destruct (column_of_numbers _ _ _ Hnum Hcol) as (Hc & _).
    now destruct (py_min_floats column r Hc Hpy). }
  destruct (py_max_floats maxes xmax Hmaxes_nan Hxmax)
    as (Hhi_nan & Hhi_in & Hhi).
  destruct (py_min_floats mins xmin Hmins_nan Hxmin)
    as (Hlo_nan & Hlo_in & Hlo).
  assert (Hhi_at : exists cat i,
            In cat (cats dataset) /\ (i < length (samples dataset))%nat
            /\ nth_error (data cat) i = Some xmax).
  { destruct (Hmax_from xmax Hhi_in) as (i & column & Hi & Hcol & Hpy).
    destruct (column_of_numbers _ _ _ Hnum Hcol) as (Hc & Hfrom & _).
    destruct (py_max_floats column xmax Hc Hpy) as (_ & Hin & _).
    destruct (Hfrom xmax Hin) as (cat & Hcat & Hv). exists cat, i. auto. }
  assert (Hlo_at : exists cat i,
            In cat (cats dataset) /\ (i < length (samples dataset))%nat
            /\ nth_error (data cat) i = Some xmin).
  { destruct (Hmin_from xmin Hlo_in) as (i & column & Hi & Hcol & Hpy).
    destruct (column_of_numbers _ _ _ Hnum Hcol) as (Hc & Hfrom & _).
    destruct (py_min_floats column xmin Hc Hpy) as (_ & Hin & _).
    destruct (Hfrom xmin Hin) as (cat & Hcat & Hv). exists cat, i. auto. }
  assert (Hbounds : forall cat i v,
            In cat (cats dataset) -> (i < length (samples dataset))%nat ->
            nth_error (data cat) i = Some v ->
            (xmin <=? v) = true /\ (v <=? xmax) = true).
  { intros cat i v Hcat Hi Hv.
    destruct (Hmax_in i Hi) as (column & r & Hcol & Hpy & Hr_in).
    destruct (column_of_numbers _ _ _ Hnum Hcol) as (Hc & _ & Hall).
    destruct (py_max_floats column r Hc Hpy) as (_ & _ & Hr).
    destruct (Hmin_in i Hi) as (column2 & r2 & Hcol2 & Hpy2 & Hr2_in).
    assert (column2 = column) by congruence. subst column2.
    destruct (py_min_floats column r2 Hc Hpy2) as (_ & _ & Hr2).
    pose proof (Hall cat v Hcat Hv) as Hv_in.
    split.
    - eapply float_leb_trans; [apply Hlo; exact Hr2_in | now apply Hr2].
    - eapply float_leb_trans; [now apply Hr | apply Hhi; exact Hr_in]. }
  assert (Hzero : is_nan 0 = false) by reflexivity.
  pose proof (float_ltb_leb 0 xmin Hzero Hlo_nan) as Hlt.
  destruct (0 <? xmin) eqn:E; injection Hrun as <- <-.
  - assert (H0 : (0 <=? xmin) = true).
    { symmetry in Hlt. apply negb_true_iff in Hlt.
      destruct (float_leb_total 0 xmin Hzero Hlo_nan); congruence. }
    split; [reflexivity|]. split; [exact Hhi_nan|].
    split; [reflexivity|].
    split; [|split; [exact Hhi_at | now left]].
    intros cat i v Hcat Hi Hv.
    destruct (Hbounds cat i v Hcat Hi Hv) as [H1 H2].
    split; [eapply float_leb_trans; eauto | exact H2].
  - split; [exact Hlo_nan|]. split; [exact Hhi_nan|].
    split.
    { symmetry in Hlt. now apply negb_false_iff in Hlt. }
    split; [exact Hbounds|]. split; [exact Hhi_at | now right].
Qed.

End GroupedRanges.

Lemma grouped_axis_limits_bound_every_value_witness :
  (0 <=? 0)%float = true
  /\ forall cat i v,
       In cat (Bar.cats Examples.assembled_XY) ->
       i < length (Bar.samples Examples.assembled_XY) ->
       nth_error (Bar.data cat) i = Some v ->
       (0 <=? v)%float = true /\ (v <=? 3)%float = true.
Proof.
  destruct (grouped_axis_limits_bound_every_value Examples.sum_from_left
              Bar.Group Examples.assembled_XY 0%float 3%float)
    as (_ & _ & H1 & H2 & _);
    [reflexivity | repeat constructor | reflexivity |].
  split; [exact H1 | exact H2].
Defined.

(** ** Scatter plots: the legend *)

Section LegendFacts.

Import Scatter.

Variable Key : Type.
Variable key_eqb : Key -> Key -> bool.
Variable group_of : Key -> option Text.

Local Abbreviation point := (LegendPoint Key).

(** The keys of the points whose trace is shown in the legend, in the
    order of the points. *)
Local Abbreviation shown_keys :=
  (fun (points : list point) (traces : list Trace) =>
     map (fun pt => lp_key Key (fst pt))
       (filter (fun pt => tr_showlegend (snd pt)) (combine points traces))).



Hypothesis key_eqb_spec : forall a b, key_eqb a b = true <-> a = b.

Lemma existsb_key (k : Key) (seen : list Key) :
  existsb (key_eqb k) seen = true <-> In k seen.
Proof.
  rewrite existsb_exists. split.
  - intros (x & Hx & E). apply key_eqb_spec in E. now subst.
  - intros H. exists k. split; [exact H | now apply key_eqb_spec].
Qed.

(** The keys the loop adds: one for every point shown in the legend,
    never one that is there already. *)
Lemma legend_loop_keys (all : list point) (rest : list point) :
  forall seen,
    NoDup seen ->
    let out := legend_loop Key key_eqb group_of all rest seen in
    length (fst out) = length rest
    /\ snd out = rev (shown_keys rest (fst out)) ++ seen
    /\ NoDup (snd out)
    /\ forall k,
         In k (snd out)
         <-> In k seen
             \/ exists el, In el rest /\ lp_key Key el = k
                           /\ lp_hide_in_legend Key el = false.
Proof.
  induction rest as [|el rest IH]; intros seen Hseen; cbn [legend_loop].
  - cbv zeta. cbn [fst snd length combine filter map rev app].
    repeat split; auto.
    intros [H | (el & [] & _)]. exact H.
  - destruct (negb (lp_hide_in_legend Key el)
              && negb (existsb (key_eqb (lp_key Key el)) seen)) eqn:E;
      cbv zeta; cbn [fst snd length combine filter map tr_showlegend].
    + apply andb_true_iff in E. destruct E as [Eh Es].
      apply negb_true_iff in Eh, Es.
      assert (Hnew : ~ In (lp_key Key el) seen).
      { intros H. apply existsb_key in H. congruence. }
      destruct (IH (lp_key Key el :: seen)) as (Hlen & Hkeys & Hnd & Hin).
      { now constructor. }
      cbv zeta in Hlen, Hkeys, Hnd, Hin.
      split; [now rewrite Hlen|]. split.
      { rewrite Hkeys. cbn [rev]. now rewrite <- app_assoc. }
      split; [exact Hnd|].
      intros k. rewrite Hin. split.
      * intros [[<- | H] | (p & Hp & Hk & Hh)]; auto.
        -- right. exists el. repeat split; auto. now left.
        -- right. exists p. repeat split; auto. now right.
      * intros [H | (p & [<- | Hp] & Hk & Hh)].
        -- left. now right.
        -- left. now left.
        -- right. exists p. auto.
    + destruct (IH seen Hseen) as (Hlen & Hkeys & Hnd & Hin).
      cbv zeta in Hlen, Hkeys, Hnd, Hin.
      split; [now rewrite Hlen|]. split; [exact Hkeys|].
      split; [exact Hnd|].
      intros k. rewrite Hin. split.
      * intros [H | (p & Hp & Hk & Hh)]; auto.
        right. exists p. repeat split; auto. now right.
      * intros [H | (p & [<- | Hp] & Hk & Hh)]; auto.
        -- left. rewrite Hh in E. cbn [negb andb] in E.
           apply negb_false_iff in E. apply existsb_key in E. congruence.
        -- right. exists p. auto.
Qed.

(** Every legend key that has a point not hidden from the legend is
    shown in the legend once, by one of its points, and no other key
    is; the height added for the legend is five times their number. *)
Theorem legend_shows_every_key_once (points : list point) :
  let traces := fst (legend_traces Key key_eqb group_of points) in
  let height := snd (legend_traces Key key_eqb group_of points) in
  let shown :=
    map (fun pt => lp_key Key (fst pt))
      (filter (fun pt => tr_showlegend (snd pt)) (combine points traces)) in
  length traces = length points
  /\ NoDup shown
  /\ height = length shown * 5
  /\ forall k,
       In k shown
       <-> exists el, In el points /\ lp_key Key el = k
                      /\ lp_hide_in_legend Key el = false.
Proof.
  cbv zeta. unfold legend_traces. cbv zeta. cbn [fst snd].
  destruct (legend_loop_keys points points [] (NoDup_nil _))
    as (Hlen & Hkeys & Hnd & Hin).
  cbv zeta in Hlen, Hkeys, Hnd, Hin.
  rewrite app_nil_r in Hkeys.
  split; [exact Hlen|].
  rewrite Hkeys in Hnd, Hin.
  split.
  { apply NoDup_rev in Hnd. now rewrite rev_involutive in Hnd. }
  split.
  { rewrite Hkeys, length_rev. reflexivity. }
  intros k. rewrite (in_rev _ k), Hin. split.
  - intros [[] | H]. exact H.
  - intros H. now right.
Qed.


End LegendFacts.

Lemma legend_shows_every_key_once_witness :
  let points :=
    [ {| Scatter.lp_name := [97%N]; Scatter.lp_key := 1;
         Scatter.lp_hide_in_legend := false;
         Scatter.lp_annotation := None |};
      {| Scatter.lp_name := [98%N]; Scatter.lp_key := 1;
         Scatter.lp_hide_in_legend := false;
         Scatter.lp_annotation := None |};
      {| Scatter.lp_name := [99%N]; Scatter.lp_key := 2;
         Scatter.lp_hide_in_legend := true;
         Scatter.lp_annotation := None |} ] in
  length (fst (Scatter.legend_traces nat Nat.eqb (fun _ => None) points))
  = 3
  /\ snd (Scatter.legend_traces nat Nat.eqb (fun _ => None) points)
     = length
         (map (fun pt => Scatter.lp_key nat (fst pt))
            (filter (fun pt => Scatter.tr_showlegend (snd pt))
               (combine points
                  (fst (Scatter.legend_traces nat Nat.eqb (fun _ => None)
                          points))))) * 5.
Proof.
  intros points.
  destruct (legend_shows_every_key_once nat Nat.eqb (fun _ => None)
              Nat.eqb_eq points) as (Hlen & _ & Hheight & _).
  split; [exact Hlen | exact Hheight].
Defined.
